(** * Receipt collector: parsing heuristics and draft life cycle

    Shallow embedding of [discord_receipt_collector.py] and proofs of the
    properties its specification states about it.

    Python strings are sequences of Unicode code points, so a string is a
    [list N].  The regular expressions of the program are values of a small
    abstract syntax, run by a backtracking matcher that follows the search
    order of CPython's [re] engine (leftmost start, alternatives left to
    right, greedy repetition).  Character classes, case mapping and digit
    values are those of the Unicode character database that CPython 3.11
    carries (Unicode 14.0.0), given as range tables in [Module UCD]. *)

From stdpp Require Import gmap.
From Stdlib Require Import String Ascii NArith ZArith Bool List Lia.
From Stdlib Require Import DecimalPos.
Import ListNotations.

(** ** Code points and the character database *)

Definition char := N.
Definition str := list char.

Module UCD.
Local Open Scope N_scope.

(** Maximal runs of decimal digits (general category Nd). Every run starts at a digit zero, so the value of a digit is its offset in the run modulo 10. *)
Definition decimal_ranges : list (N * N) := [
  (0x30,0x39); (0x660,0x669); (0x6f0,0x6f9); (0x7c0,0x7c9); (0x966,0x96f); (0x9e6,0x9ef); (0xa66,0xa6f); (0xae6,0xaef);
  (0xb66,0xb6f); (0xbe6,0xbef); (0xc66,0xc6f); (0xce6,0xcef); (0xd66,0xd6f); (0xde6,0xdef); (0xe50,0xe59); (0xed0,0xed9);
  (0xf20,0xf29); (0x1040,0x1049); (0x1090,0x1099); (0x17e0,0x17e9); (0x1810,0x1819); (0x1946,0x194f); (0x19d0,0x19d9); (0x1a80,0x1a89);
  (0x1a90,0x1a99); (0x1b50,0x1b59); (0x1bb0,0x1bb9); (0x1c40,0x1c49); (0x1c50,0x1c59); (0xa620,0xa629); (0xa8d0,0xa8d9); (0xa900,0xa909);
  (0xa9d0,0xa9d9); (0xa9f0,0xa9f9); (0xaa50,0xaa59); (0xabf0,0xabf9); (0xff10,0xff19); (0x104a0,0x104a9); (0x10d30,0x10d39); (0x11066,0x1106f);
  (0x110f0,0x110f9); (0x11136,0x1113f); (0x111d0,0x111d9); (0x112f0,0x112f9); (0x11450,0x11459); (0x114d0,0x114d9); (0x11650,0x11659); (0x116c0,0x116c9);
  (0x11730,0x11739); (0x118e0,0x118e9); (0x11950,0x11959); (0x11c50,0x11c59); (0x11d50,0x11d59); (0x11da0,0x11da9); (0x16a60,0x16a69); (0x16ac0,0x16ac9);
  (0x16b50,0x16b59); (0x1d7ce,0x1d7ff); (0x1e140,0x1e149); (0x1e2f0,0x1e2f9); (0x1e950,0x1e959); (0x1fbf0,0x1fbf9) ].

(** Code points for which [str.isspace] holds; the same set drives [\s] and [str.strip]. *)
Definition space_ranges : list (N * N) := [
  (0x9,0xd); (0x1c,0x20); (0x85,0x85); (0xa0,0xa0); (0x1680,0x1680); (0x2000,0x200a); (0x2028,0x2029); (0x202f,0x202f);
  (0x205f,0x205f); (0x3000,0x3000) ].

(** Code points for which [str.isalnum] holds. *)
Definition alnum_ranges : list (N * N) := [
  (0x30,0x39); (0x41,0x5a); (0x61,0x7a); (0xaa,0xaa); (0xb2,0xb3); (0xb5,0xb5); (0xb9,0xba); (0xbc,0xbe);
  (0xc0,0xd6); (0xd8,0xf6); (0xf8,0x2c1); (0x2c6,0x2d1); (0x2e0,0x2e4); (0x2ec,0x2ec); (0x2ee,0x2ee); (0x370,0x374);
  (0x376,0x377); (0x37a,0x37d); (0x37f,0x37f); (0x386,0x386); (0x388,0x38a); (0x38c,0x38c); (0x38e,0x3a1); (0x3a3,0x3f5);
  (0x3f7,0x481); (0x48a,0x52f); (0x531,0x556); (0x559,0x559); (0x560,0x588); (0x5d0,0x5ea); (0x5ef,0x5f2); (0x620,0x64a);
  (0x660,0x669); (0x66e,0x66f); (0x671,0x6d3); (0x6d5,0x6d5); (0x6e5,0x6e6); (0x6ee,0x6fc); (0x6ff,0x6ff); (0x710,0x710);
  (0x712,0x72f); (0x74d,0x7a5); (0x7b1,0x7b1); (0x7c0,0x7ea); (0x7f4,0x7f5); (0x7fa,0x7fa); (0x800,0x815); (0x81a,0x81a);
  (0x824,0x824); (0x828,0x828); (0x840,0x858); (0x860,0x86a); (0x870,0x887); (0x889,0x88e); (0x8a0,0x8c9); (0x904,0x939);
  (0x93d,0x93d); (0x950,0x950); (0x958,0x961); (0x966,0x96f); (0x971,0x980); (0x985,0x98c); (0x98f,0x990); (0x993,0x9a8);
  (0x9aa,0x9b0); (0x9b2,0x9b2); (0x9b6,0x9b9); (0x9bd,0x9bd); (0x9ce,0x9ce); (0x9dc,0x9dd); (0x9df,0x9e1); (0x9e6,0x9f1);
  (0x9f4,0x9f9); (0x9fc,0x9fc); (0xa05,0xa0a); (0xa0f,0xa10); (0xa13,0xa28); (0xa2a,0xa30); (0xa32,0xa33); (0xa35,0xa36);
  (0xa38,0xa39); (0xa59,0xa5c); (0xa5e,0xa5e); (0xa66,0xa6f); (0xa72,0xa74); (0xa85,0xa8d); (0xa8f,0xa91); (0xa93,0xaa8);
  (0xaaa,0xab0); (0xab2,0xab3); (0xab5,0xab9); (0xabd,0xabd); (0xad0,0xad0); (0xae0,0xae1); (0xae6,0xaef); (0xaf9,0xaf9);
  (0xb05,0xb0c); (0xb0f,0xb10); (0xb13,0xb28); (0xb2a,0xb30); (0xb32,0xb33); (0xb35,0xb39); (0xb3d,0xb3d); (0xb5c,0xb5d);
  (0xb5f,0xb61); (0xb66,0xb6f); (0xb71,0xb77); (0xb83,0xb83); (0xb85,0xb8a); (0xb8e,0xb90); (0xb92,0xb95); (0xb99,0xb9a);
  (0xb9c,0xb9c); (0xb9e,0xb9f); (0xba3,0xba4); (0xba8,0xbaa); (0xbae,0xbb9); (0xbd0,0xbd0); (0xbe6,0xbf2); (0xc05,0xc0c);
  (0xc0e,0xc10); (0xc12,0xc28); (0xc2a,0xc39); (0xc3d,0xc3d); (0xc58,0xc5a); (0xc5d,0xc5d); (0xc60,0xc61); (0xc66,0xc6f);
  (0xc78,0xc7e); (0xc80,0xc80); (0xc85,0xc8c); (0xc8e,0xc90); (0xc92,0xca8); (0xcaa,0xcb3); (0xcb5,0xcb9); (0xcbd,0xcbd);
  (0xcdd,0xcde); (0xce0,0xce1); (0xce6,0xcef); (0xcf1,0xcf2); (0xd04,0xd0c); (0xd0e,0xd10); (0xd12,0xd3a); (0xd3d,0xd3d);
  (0xd4e,0xd4e); (0xd54,0xd56); (0xd58,0xd61); (0xd66,0xd78); (0xd7a,0xd7f); (0xd85,0xd96); (0xd9a,0xdb1); (0xdb3,0xdbb);
  (0xdbd,0xdbd); (0xdc0,0xdc6); (0xde6,0xdef); (0xe01,0xe30); (0xe32,0xe33); (0xe40,0xe46); (0xe50,0xe59); (0xe81,0xe82);
  (0xe84,0xe84); (0xe86,0xe8a); (0xe8c,0xea3); (0xea5,0xea5); (0xea7,0xeb0); (0xeb2,0xeb3); (0xebd,0xebd); (0xec0,0xec4);
  (0xec6,0xec6); (0xed0,0xed9); (0xedc,0xedf); (0xf00,0xf00); (0xf20,0xf33); (0xf40,0xf47); (0xf49,0xf6c); (0xf88,0xf8c);
  (0x1000,0x102a); (0x103f,0x1049); (0x1050,0x1055); (0x105a,0x105d); (0x1061,0x1061); (0x1065,0x1066); (0x106e,0x1070); (0x1075,0x1081);
  (0x108e,0x108e); (0x1090,0x1099); (0x10a0,0x10c5); (0x10c7,0x10c7); (0x10cd,0x10cd); (0x10d0,0x10fa); (0x10fc,0x1248); (0x124a,0x124d);
  (0x1250,0x1256); (0x1258,0x1258); (0x125a,0x125d); (0x1260,0x1288); (0x128a,0x128d); (0x1290,0x12b0); (0x12b2,0x12b5); (0x12b8,0x12be);
  (0x12c0,0x12c0); (0x12c2,0x12c5); (0x12c8,0x12d6); (0x12d8,0x1310); (0x1312,0x1315); (0x1318,0x135a); (0x1369,0x137c); (0x1380,0x138f);
  (0x13a0,0x13f5); (0x13f8,0x13fd); (0x1401,0x166c); (0x166f,0x167f); (0x1681,0x169a); (0x16a0,0x16ea); (0x16ee,0x16f8); (0x1700,0x1711);
  (0x171f,0x1731); (0x1740,0x1751); (0x1760,0x176c); (0x176e,0x1770); (0x1780,0x17b3); (0x17d7,0x17d7); (0x17dc,0x17dc); (0x17e0,0x17e9);
  (0x17f0,0x17f9); (0x1810,0x1819); (0x1820,0x1878); (0x1880,0x1884); (0x1887,0x18a8); (0x18aa,0x18aa); (0x18b0,0x18f5); (0x1900,0x191e);
  (0x1946,0x196d); (0x1970,0x1974); (0x1980,0x19ab); (0x19b0,0x19c9); (0x19d0,0x19da); (0x1a00,0x1a16); (0x1a20,0x1a54); (0x1a80,0x1a89);
  (0x1a90,0x1a99); (0x1aa7,0x1aa7); (0x1b05,0x1b33); (0x1b45,0x1b4c); (0x1b50,0x1b59); (0x1b83,0x1ba0); (0x1bae,0x1be5); (0x1c00,0x1c23);
  (0x1c40,0x1c49); (0x1c4d,0x1c7d); (0x1c80,0x1c88); (0x1c90,0x1cba); (0x1cbd,0x1cbf); (0x1ce9,0x1cec); (0x1cee,0x1cf3); (0x1cf5,0x1cf6);
  (0x1cfa,0x1cfa); (0x1d00,0x1dbf); (0x1e00,0x1f15); (0x1f18,0x1f1d); (0x1f20,0x1f45); (0x1f48,0x1f4d); (0x1f50,0x1f57); (0x1f59,0x1f59);
  (0x1f5b,0x1f5b); (0x1f5d,0x1f5d); (0x1f5f,0x1f7d); (0x1f80,0x1fb4); (0x1fb6,0x1fbc); (0x1fbe,0x1fbe); (0x1fc2,0x1fc4); (0x1fc6,0x1fcc);
  (0x1fd0,0x1fd3); (0x1fd6,0x1fdb); (0x1fe0,0x1fec); (0x1ff2,0x1ff4); (0x1ff6,0x1ffc); (0x2070,0x2071); (0x2074,0x2079); (0x207f,0x2089);
  (0x2090,0x209c); (0x2102,0x2102); (0x2107,0x2107); (0x210a,0x2113); (0x2115,0x2115); (0x2119,0x211d); (0x2124,0x2124); (0x2126,0x2126);
  (0x2128,0x2128); (0x212a,0x212d); (0x212f,0x2139); (0x213c,0x213f); (0x2145,0x2149); (0x214e,0x214e); (0x2150,0x2189); (0x2460,0x249b);
  (0x24ea,0x24ff); (0x2776,0x2793); (0x2c00,0x2ce4); (0x2ceb,0x2cee); (0x2cf2,0x2cf3); (0x2cfd,0x2cfd); (0x2d00,0x2d25); (0x2d27,0x2d27);
  (0x2d2d,0x2d2d); (0x2d30,0x2d67); (0x2d6f,0x2d6f); (0x2d80,0x2d96); (0x2da0,0x2da6); (0x2da8,0x2dae); (0x2db0,0x2db6); (0x2db8,0x2dbe);
  (0x2dc0,0x2dc6); (0x2dc8,0x2dce); (0x2dd0,0x2dd6); (0x2dd8,0x2dde); (0x2e2f,0x2e2f); (0x3005,0x3007); (0x3021,0x3029); (0x3031,0x3035);
  (0x3038,0x303c); (0x3041,0x3096); (0x309d,0x309f); (0x30a1,0x30fa); (0x30fc,0x30ff); (0x3105,0x312f); (0x3131,0x318e); (0x3192,0x3195);
  (0x31a0,0x31bf); (0x31f0,0x31ff); (0x3220,0x3229); (0x3248,0x324f); (0x3251,0x325f); (0x3280,0x3289); (0x32b1,0x32bf); (0x3400,0x4dbf);
  (0x4e00,0xa48c); (0xa4d0,0xa4fd); (0xa500,0xa60c); (0xa610,0xa62b); (0xa640,0xa66e); (0xa67f,0xa69d); (0xa6a0,0xa6ef); (0xa717,0xa71f);
  (0xa722,0xa788); (0xa78b,0xa7ca); (0xa7d0,0xa7d1); (0xa7d3,0xa7d3); (0xa7d5,0xa7d9); (0xa7f2,0xa801); (0xa803,0xa805); (0xa807,0xa80a);
  (0xa80c,0xa822); (0xa830,0xa835); (0xa840,0xa873); (0xa882,0xa8b3); (0xa8d0,0xa8d9); (0xa8f2,0xa8f7); (0xa8fb,0xa8fb); (0xa8fd,0xa8fe);
  (0xa900,0xa925); (0xa930,0xa946); (0xa960,0xa97c); (0xa984,0xa9b2); (0xa9cf,0xa9d9); (0xa9e0,0xa9e4); (0xa9e6,0xa9fe); (0xaa00,0xaa28);
  (0xaa40,0xaa42); (0xaa44,0xaa4b); (0xaa50,0xaa59); (0xaa60,0xaa76); (0xaa7a,0xaa7a); (0xaa7e,0xaaaf); (0xaab1,0xaab1); (0xaab5,0xaab6);
  (0xaab9,0xaabd); (0xaac0,0xaac0); (0xaac2,0xaac2); (0xaadb,0xaadd); (0xaae0,0xaaea); (0xaaf2,0xaaf4); (0xab01,0xab06); (0xab09,0xab0e);
  (0xab11,0xab16); (0xab20,0xab26); (0xab28,0xab2e); (0xab30,0xab5a); (0xab5c,0xab69); (0xab70,0xabe2); (0xabf0,0xabf9); (0xac00,0xd7a3);
  (0xd7b0,0xd7c6); (0xd7cb,0xd7fb); (0xf900,0xfa6d); (0xfa70,0xfad9); (0xfb00,0xfb06); (0xfb13,0xfb17); (0xfb1d,0xfb1d); (0xfb1f,0xfb28);
  (0xfb2a,0xfb36); (0xfb38,0xfb3c); (0xfb3e,0xfb3e); (0xfb40,0xfb41); (0xfb43,0xfb44); (0xfb46,0xfbb1); (0xfbd3,0xfd3d); (0xfd50,0xfd8f);
  (0xfd92,0xfdc7); (0xfdf0,0xfdfb); (0xfe70,0xfe74); (0xfe76,0xfefc); (0xff10,0xff19); (0xff21,0xff3a); (0xff41,0xff5a); (0xff66,0xffbe);
  (0xffc2,0xffc7); (0xffca,0xffcf); (0xffd2,0xffd7); (0xffda,0xffdc); (0x10000,0x1000b); (0x1000d,0x10026); (0x10028,0x1003a); (0x1003c,0x1003d);
  (0x1003f,0x1004d); (0x10050,0x1005d); (0x10080,0x100fa); (0x10107,0x10133); (0x10140,0x10178); (0x1018a,0x1018b); (0x10280,0x1029c); (0x102a0,0x102d0);
  (0x102e1,0x102fb); (0x10300,0x10323); (0x1032d,0x1034a); (0x10350,0x10375); (0x10380,0x1039d); (0x103a0,0x103c3); (0x103c8,0x103cf); (0x103d1,0x103d5);
  (0x10400,0x1049d); (0x104a0,0x104a9); (0x104b0,0x104d3); (0x104d8,0x104fb); (0x10500,0x10527); (0x10530,0x10563); (0x10570,0x1057a); (0x1057c,0x1058a);
  (0x1058c,0x10592); (0x10594,0x10595); (0x10597,0x105a1); (0x105a3,0x105b1); (0x105b3,0x105b9); (0x105bb,0x105bc); (0x10600,0x10736); (0x10740,0x10755);
  (0x10760,0x10767); (0x10780,0x10785); (0x10787,0x107b0); (0x107b2,0x107ba); (0x10800,0x10805); (0x10808,0x10808); (0x1080a,0x10835); (0x10837,0x10838);
  (0x1083c,0x1083c); (0x1083f,0x10855); (0x10858,0x10876); (0x10879,0x1089e); (0x108a7,0x108af); (0x108e0,0x108f2); (0x108f4,0x108f5); (0x108fb,0x1091b);
  (0x10920,0x10939); (0x10980,0x109b7); (0x109bc,0x109cf); (0x109d2,0x10a00); (0x10a10,0x10a13); (0x10a15,0x10a17); (0x10a19,0x10a35); (0x10a40,0x10a48);
  (0x10a60,0x10a7e); (0x10a80,0x10a9f); (0x10ac0,0x10ac7); (0x10ac9,0x10ae4); (0x10aeb,0x10aef); (0x10b00,0x10b35); (0x10b40,0x10b55); (0x10b58,0x10b72);
  (0x10b78,0x10b91); (0x10ba9,0x10baf); (0x10c00,0x10c48); (0x10c80,0x10cb2); (0x10cc0,0x10cf2); (0x10cfa,0x10d23); (0x10d30,0x10d39); (0x10e60,0x10e7e);
  (0x10e80,0x10ea9); (0x10eb0,0x10eb1); (0x10f00,0x10f27); (0x10f30,0x10f45); (0x10f51,0x10f54); (0x10f70,0x10f81); (0x10fb0,0x10fcb); (0x10fe0,0x10ff6);
  (0x11003,0x11037); (0x11052,0x1106f); (0x11071,0x11072); (0x11075,0x11075); (0x11083,0x110af); (0x110d0,0x110e8); (0x110f0,0x110f9); (0x11103,0x11126);
  (0x11136,0x1113f); (0x11144,0x11144); (0x11147,0x11147); (0x11150,0x11172); (0x11176,0x11176); (0x11183,0x111b2); (0x111c1,0x111c4); (0x111d0,0x111da);
  (0x111dc,0x111dc); (0x111e1,0x111f4); (0x11200,0x11211); (0x11213,0x1122b); (0x11280,0x11286); (0x11288,0x11288); (0x1128a,0x1128d); (0x1128f,0x1129d);
  (0x1129f,0x112a8); (0x112b0,0x112de); (0x112f0,0x112f9); (0x11305,0x1130c); (0x1130f,0x11310); (0x11313,0x11328); (0x1132a,0x11330); (0x11332,0x11333);
  (0x11335,0x11339); (0x1133d,0x1133d); (0x11350,0x11350); (0x1135d,0x11361); (0x11400,0x11434); (0x11447,0x1144a); (0x11450,0x11459); (0x1145f,0x11461);
  (0x11480,0x114af); (0x114c4,0x114c5); (0x114c7,0x114c7); (0x114d0,0x114d9); (0x11580,0x115ae); (0x115d8,0x115db); (0x11600,0x1162f); (0x11644,0x11644);
  (0x11650,0x11659); (0x11680,0x116aa); (0x116b8,0x116b8); (0x116c0,0x116c9); (0x11700,0x1171a); (0x11730,0x1173b); (0x11740,0x11746); (0x11800,0x1182b);
  (0x118a0,0x118f2); (0x118ff,0x11906); (0x11909,0x11909); (0x1190c,0x11913); (0x11915,0x11916); (0x11918,0x1192f); (0x1193f,0x1193f); (0x11941,0x11941);
  (0x11950,0x11959); (0x119a0,0x119a7); (0x119aa,0x119d0); (0x119e1,0x119e1); (0x119e3,0x119e3); (0x11a00,0x11a00); (0x11a0b,0x11a32); (0x11a3a,0x11a3a);
  (0x11a50,0x11a50); (0x11a5c,0x11a89); (0x11a9d,0x11a9d); (0x11ab0,0x11af8); (0x11c00,0x11c08); (0x11c0a,0x11c2e); (0x11c40,0x11c40); (0x11c50,0x11c6c);
  (0x11c72,0x11c8f); (0x11d00,0x11d06); (0x11d08,0x11d09); (0x11d0b,0x11d30); (0x11d46,0x11d46); (0x11d50,0x11d59); (0x11d60,0x11d65); (0x11d67,0x11d68);
  (0x11d6a,0x11d89); (0x11d98,0x11d98); (0x11da0,0x11da9); (0x11ee0,0x11ef2); (0x11fb0,0x11fb0); (0x11fc0,0x11fd4); (0x12000,0x12399); (0x12400,0x1246e);
  (0x12480,0x12543); (0x12f90,0x12ff0); (0x13000,0x1342e); (0x14400,0x14646); (0x16800,0x16a38); (0x16a40,0x16a5e); (0x16a60,0x16a69); (0x16a70,0x16abe);
  (0x16ac0,0x16ac9); (0x16ad0,0x16aed); (0x16b00,0x16b2f); (0x16b40,0x16b43); (0x16b50,0x16b59); (0x16b5b,0x16b61); (0x16b63,0x16b77); (0x16b7d,0x16b8f);
  (0x16e40,0x16e96); (0x16f00,0x16f4a); (0x16f50,0x16f50); (0x16f93,0x16f9f); (0x16fe0,0x16fe1); (0x16fe3,0x16fe3); (0x17000,0x187f7); (0x18800,0x18cd5);
  (0x18d00,0x18d08); (0x1aff0,0x1aff3); (0x1aff5,0x1affb); (0x1affd,0x1affe); (0x1b000,0x1b122); (0x1b150,0x1b152); (0x1b164,0x1b167); (0x1b170,0x1b2fb);
  (0x1bc00,0x1bc6a); (0x1bc70,0x1bc7c); (0x1bc80,0x1bc88); (0x1bc90,0x1bc99); (0x1d2e0,0x1d2f3); (0x1d360,0x1d378); (0x1d400,0x1d454); (0x1d456,0x1d49c);
  (0x1d49e,0x1d49f); (0x1d4a2,0x1d4a2); (0x1d4a5,0x1d4a6); (0x1d4a9,0x1d4ac); (0x1d4ae,0x1d4b9); (0x1d4bb,0x1d4bb); (0x1d4bd,0x1d4c3); (0x1d4c5,0x1d505);
  (0x1d507,0x1d50a); (0x1d50d,0x1d514); (0x1d516,0x1d51c); (0x1d51e,0x1d539); (0x1d53b,0x1d53e); (0x1d540,0x1d544); (0x1d546,0x1d546); (0x1d54a,0x1d550);
  (0x1d552,0x1d6a5); (0x1d6a8,0x1d6c0); (0x1d6c2,0x1d6da); (0x1d6dc,0x1d6fa); (0x1d6fc,0x1d714); (0x1d716,0x1d734); (0x1d736,0x1d74e); (0x1d750,0x1d76e);
  (0x1d770,0x1d788); (0x1d78a,0x1d7a8); (0x1d7aa,0x1d7c2); (0x1d7c4,0x1d7cb); (0x1d7ce,0x1d7ff); (0x1df00,0x1df1e); (0x1e100,0x1e12c); (0x1e137,0x1e13d);
  (0x1e140,0x1e149); (0x1e14e,0x1e14e); (0x1e290,0x1e2ad); (0x1e2c0,0x1e2eb); (0x1e2f0,0x1e2f9); (0x1e7e0,0x1e7e6); (0x1e7e8,0x1e7eb); (0x1e7ed,0x1e7ee);
  (0x1e7f0,0x1e7fe); (0x1e800,0x1e8c4); (0x1e8c7,0x1e8cf); (0x1e900,0x1e943); (0x1e94b,0x1e94b); (0x1e950,0x1e959); (0x1ec71,0x1ecab); (0x1ecad,0x1ecaf);
  (0x1ecb1,0x1ecb4); (0x1ed01,0x1ed2d); (0x1ed2f,0x1ed3d); (0x1ee00,0x1ee03); (0x1ee05,0x1ee1f); (0x1ee21,0x1ee22); (0x1ee24,0x1ee24); (0x1ee27,0x1ee27);
  (0x1ee29,0x1ee32); (0x1ee34,0x1ee37); (0x1ee39,0x1ee39); (0x1ee3b,0x1ee3b); (0x1ee42,0x1ee42); (0x1ee47,0x1ee47); (0x1ee49,0x1ee49); (0x1ee4b,0x1ee4b);
  (0x1ee4d,0x1ee4f); (0x1ee51,0x1ee52); (0x1ee54,0x1ee54); (0x1ee57,0x1ee57); (0x1ee59,0x1ee59); (0x1ee5b,0x1ee5b); (0x1ee5d,0x1ee5d); (0x1ee5f,0x1ee5f);
  (0x1ee61,0x1ee62); (0x1ee64,0x1ee64); (0x1ee67,0x1ee6a); (0x1ee6c,0x1ee72); (0x1ee74,0x1ee77); (0x1ee79,0x1ee7c); (0x1ee7e,0x1ee7e); (0x1ee80,0x1ee89);
  (0x1ee8b,0x1ee9b); (0x1eea1,0x1eea3); (0x1eea5,0x1eea9); (0x1eeab,0x1eebb); (0x1f100,0x1f10c); (0x1fbf0,0x1fbf9); (0x20000,0x2a6df); (0x2a700,0x2b738);
  (0x2b740,0x2b81d); (0x2b820,0x2cea1); (0x2ceb0,0x2ebe0); (0x2f800,0x2fa1d); (0x30000,0x3134a) ].

(** Code points with the Cased property. *)
Definition cased_ranges : list (N * N) := [
  (0x41,0x5a); (0x61,0x7a); (0xaa,0xaa); (0xb5,0xb5); (0xba,0xba); (0xc0,0xd6); (0xd8,0xf6); (0xf8,0x1ba);
  (0x1bc,0x1bf); (0x1c4,0x293); (0x295,0x2b8); (0x2c0,0x2c1); (0x2e0,0x2e4); (0x345,0x345); (0x370,0x373); (0x376,0x377);
  (0x37a,0x37d); (0x37f,0x37f); (0x386,0x386); (0x388,0x38a); (0x38c,0x38c); (0x38e,0x3a1); (0x3a3,0x3f5); (0x3f7,0x481);
  (0x48a,0x52f); (0x531,0x556); (0x560,0x588); (0x10a0,0x10c5); (0x10c7,0x10c7); (0x10cd,0x10cd); (0x10d0,0x10fa); (0x10fd,0x10ff);
  (0x13a0,0x13f5); (0x13f8,0x13fd); (0x1c80,0x1c88); (0x1c90,0x1cba); (0x1cbd,0x1cbf); (0x1d00,0x1dbf); (0x1e00,0x1f15); (0x1f18,0x1f1d);
  (0x1f20,0x1f45); (0x1f48,0x1f4d); (0x1f50,0x1f57); (0x1f59,0x1f59); (0x1f5b,0x1f5b); (0x1f5d,0x1f5d); (0x1f5f,0x1f7d); (0x1f80,0x1fb4);
  (0x1fb6,0x1fbc); (0x1fbe,0x1fbe); (0x1fc2,0x1fc4); (0x1fc6,0x1fcc); (0x1fd0,0x1fd3); (0x1fd6,0x1fdb); (0x1fe0,0x1fec); (0x1ff2,0x1ff4);
  (0x1ff6,0x1ffc); (0x2071,0x2071); (0x207f,0x207f); (0x2090,0x209c); (0x2102,0x2102); (0x2107,0x2107); (0x210a,0x2113); (0x2115,0x2115);
  (0x2119,0x211d); (0x2124,0x2124); (0x2126,0x2126); (0x2128,0x2128); (0x212a,0x212d); (0x212f,0x2134); (0x2139,0x2139); (0x213c,0x213f);
  (0x2145,0x2149); (0x214e,0x214e); (0x2160,0x217f); (0x2183,0x2184); (0x24b6,0x24e9); (0x2c00,0x2ce4); (0x2ceb,0x2cee); (0x2cf2,0x2cf3);
  (0x2d00,0x2d25); (0x2d27,0x2d27); (0x2d2d,0x2d2d); (0xa640,0xa66d); (0xa680,0xa69d); (0xa722,0xa787); (0xa78b,0xa78e); (0xa790,0xa7ca);
  (0xa7d0,0xa7d1); (0xa7d3,0xa7d3); (0xa7d5,0xa7d9); (0xa7f5,0xa7f6); (0xa7f8,0xa7fa); (0xab30,0xab5a); (0xab5c,0xab68); (0xab70,0xabbf);
  (0xfb00,0xfb06); (0xfb13,0xfb17); (0xff21,0xff3a); (0xff41,0xff5a); (0x10400,0x1044f); (0x104b0,0x104d3); (0x104d8,0x104fb); (0x10570,0x1057a);
  (0x1057c,0x1058a); (0x1058c,0x10592); (0x10594,0x10595); (0x10597,0x105a1); (0x105a3,0x105b1); (0x105b3,0x105b9); (0x105bb,0x105bc); (0x10780,0x10780);
  (0x10783,0x10785); (0x10787,0x107b0); (0x107b2,0x107ba); (0x10c80,0x10cb2); (0x10cc0,0x10cf2); (0x118a0,0x118df); (0x16e40,0x16e7f); (0x1d400,0x1d454);
  (0x1d456,0x1d49c); (0x1d49e,0x1d49f); (0x1d4a2,0x1d4a2); (0x1d4a5,0x1d4a6); (0x1d4a9,0x1d4ac); (0x1d4ae,0x1d4b9); (0x1d4bb,0x1d4bb); (0x1d4bd,0x1d4c3);
  (0x1d4c5,0x1d505); (0x1d507,0x1d50a); (0x1d50d,0x1d514); (0x1d516,0x1d51c); (0x1d51e,0x1d539); (0x1d53b,0x1d53e); (0x1d540,0x1d544); (0x1d546,0x1d546);
  (0x1d54a,0x1d550); (0x1d552,0x1d6a5); (0x1d6a8,0x1d6c0); (0x1d6c2,0x1d6da); (0x1d6dc,0x1d6fa); (0x1d6fc,0x1d714); (0x1d716,0x1d734); (0x1d736,0x1d74e);
  (0x1d750,0x1d76e); (0x1d770,0x1d788); (0x1d78a,0x1d7a8); (0x1d7aa,0x1d7c2); (0x1d7c4,0x1d7cb); (0x1df00,0x1df09); (0x1df0b,0x1df1e); (0x1e900,0x1e943);
  (0x1f130,0x1f149); (0x1f150,0x1f169); (0x1f170,0x1f189) ].

(** Code points with the Case_Ignorable property. *)
Definition case_ignorable_ranges : list (N * N) := [
  (0x27,0x27); (0x2e,0x2e); (0x3a,0x3a); (0x5e,0x5e); (0x60,0x60); (0xa8,0xa8); (0xad,0xad); (0xaf,0xaf);
  (0xb4,0xb4); (0xb7,0xb8); (0x2b0,0x36f); (0x374,0x375); (0x37a,0x37a); (0x384,0x385); (0x387,0x387); (0x483,0x489);
  (0x559,0x559); (0x55f,0x55f); (0x591,0x5bd); (0x5bf,0x5bf); (0x5c1,0x5c2); (0x5c4,0x5c5); (0x5c7,0x5c7); (0x5f4,0x5f4);
  (0x600,0x605); (0x610,0x61a); (0x61c,0x61c); (0x640,0x640); (0x64b,0x65f); (0x670,0x670); (0x6d6,0x6dd); (0x6df,0x6e8);
  (0x6ea,0x6ed); (0x70f,0x70f); (0x711,0x711); (0x730,0x74a); (0x7a6,0x7b0); (0x7eb,0x7f5); (0x7fa,0x7fa); (0x7fd,0x7fd);
  (0x816,0x82d); (0x859,0x85b); (0x888,0x888); (0x890,0x891); (0x898,0x89f); (0x8c9,0x902); (0x93a,0x93a); (0x93c,0x93c);
  (0x941,0x948); (0x94d,0x94d); (0x951,0x957); (0x962,0x963); (0x971,0x971); (0x981,0x981); (0x9bc,0x9bc); (0x9c1,0x9c4);
  (0x9cd,0x9cd); (0x9e2,0x9e3); (0x9fe,0x9fe); (0xa01,0xa02); (0xa3c,0xa3c); (0xa41,0xa42); (0xa47,0xa48); (0xa4b,0xa4d);
  (0xa51,0xa51); (0xa70,0xa71); (0xa75,0xa75); (0xa81,0xa82); (0xabc,0xabc); (0xac1,0xac5); (0xac7,0xac8); (0xacd,0xacd);
  (0xae2,0xae3); (0xafa,0xaff); (0xb01,0xb01); (0xb3c,0xb3c); (0xb3f,0xb3f); (0xb41,0xb44); (0xb4d,0xb4d); (0xb55,0xb56);
  (0xb62,0xb63); (0xb82,0xb82); (0xbc0,0xbc0); (0xbcd,0xbcd); (0xc00,0xc00); (0xc04,0xc04); (0xc3c,0xc3c); (0xc3e,0xc40);
  (0xc46,0xc48); (0xc4a,0xc4d); (0xc55,0xc56); (0xc62,0xc63); (0xc81,0xc81); (0xcbc,0xcbc); (0xcbf,0xcbf); (0xcc6,0xcc6);
  (0xccc,0xccd); (0xce2,0xce3); (0xd00,0xd01); (0xd3b,0xd3c); (0xd41,0xd44); (0xd4d,0xd4d); (0xd62,0xd63); (0xd81,0xd81);
  (0xdca,0xdca); (0xdd2,0xdd4); (0xdd6,0xdd6); (0xe31,0xe31); (0xe34,0xe3a); (0xe46,0xe4e); (0xeb1,0xeb1); (0xeb4,0xebc);
  (0xec6,0xec6); (0xec8,0xecd); (0xf18,0xf19); (0xf35,0xf35); (0xf37,0xf37); (0xf39,0xf39); (0xf71,0xf7e); (0xf80,0xf84);
  (0xf86,0xf87); (0xf8d,0xf97); (0xf99,0xfbc); (0xfc6,0xfc6); (0x102d,0x1030); (0x1032,0x1037); (0x1039,0x103a); (0x103d,0x103e);
  (0x1058,0x1059); (0x105e,0x1060); (0x1071,0x1074); (0x1082,0x1082); (0x1085,0x1086); (0x108d,0x108d); (0x109d,0x109d); (0x10fc,0x10fc);
  (0x135d,0x135f); (0x1712,0x1714); (0x1732,0x1733); (0x1752,0x1753); (0x1772,0x1773); (0x17b4,0x17b5); (0x17b7,0x17bd); (0x17c6,0x17c6);
  (0x17c9,0x17d3); (0x17d7,0x17d7); (0x17dd,0x17dd); (0x180b,0x180f); (0x1843,0x1843); (0x1885,0x1886); (0x18a9,0x18a9); (0x1920,0x1922);
  (0x1927,0x1928); (0x1932,0x1932); (0x1939,0x193b); (0x1a17,0x1a18); (0x1a1b,0x1a1b); (0x1a56,0x1a56); (0x1a58,0x1a5e); (0x1a60,0x1a60);
  (0x1a62,0x1a62); (0x1a65,0x1a6c); (0x1a73,0x1a7c); (0x1a7f,0x1a7f); (0x1aa7,0x1aa7); (0x1ab0,0x1ace); (0x1b00,0x1b03); (0x1b34,0x1b34);
  (0x1b36,0x1b3a); (0x1b3c,0x1b3c); (0x1b42,0x1b42); (0x1b6b,0x1b73); (0x1b80,0x1b81); (0x1ba2,0x1ba5); (0x1ba8,0x1ba9); (0x1bab,0x1bad);
  (0x1be6,0x1be6); (0x1be8,0x1be9); (0x1bed,0x1bed); (0x1bef,0x1bf1); (0x1c2c,0x1c33); (0x1c36,0x1c37); (0x1c78,0x1c7d); (0x1cd0,0x1cd2);
  (0x1cd4,0x1ce0); (0x1ce2,0x1ce8); (0x1ced,0x1ced); (0x1cf4,0x1cf4); (0x1cf8,0x1cf9); (0x1d2c,0x1d6a); (0x1d78,0x1d78); (0x1d9b,0x1dff);
  (0x1fbd,0x1fbd); (0x1fbf,0x1fc1); (0x1fcd,0x1fcf); (0x1fdd,0x1fdf); (0x1fed,0x1fef); (0x1ffd,0x1ffe); (0x200b,0x200f); (0x2018,0x2019);
  (0x2024,0x2024); (0x2027,0x2027); (0x202a,0x202e); (0x2060,0x2064); (0x2066,0x206f); (0x2071,0x2071); (0x207f,0x207f); (0x2090,0x209c);
  (0x20d0,0x20f0); (0x2c7c,0x2c7d); (0x2cef,0x2cf1); (0x2d6f,0x2d6f); (0x2d7f,0x2d7f); (0x2de0,0x2dff); (0x2e2f,0x2e2f); (0x3005,0x3005);
  (0x302a,0x302d); (0x3031,0x3035); (0x303b,0x303b); (0x3099,0x309e); (0x30fc,0x30fe); (0xa015,0xa015); (0xa4f8,0xa4fd); (0xa60c,0xa60c);
  (0xa66f,0xa672); (0xa674,0xa67d); (0xa67f,0xa67f); (0xa69c,0xa69f); (0xa6f0,0xa6f1); (0xa700,0xa721); (0xa770,0xa770); (0xa788,0xa78a);
  (0xa7f2,0xa7f4); (0xa7f8,0xa7f9); (0xa802,0xa802); (0xa806,0xa806); (0xa80b,0xa80b); (0xa825,0xa826); (0xa82c,0xa82c); (0xa8c4,0xa8c5);
  (0xa8e0,0xa8f1); (0xa8ff,0xa8ff); (0xa926,0xa92d); (0xa947,0xa951); (0xa980,0xa982); (0xa9b3,0xa9b3); (0xa9b6,0xa9b9); (0xa9bc,0xa9bd);
  (0xa9cf,0xa9cf); (0xa9e5,0xa9e6); (0xaa29,0xaa2e); (0xaa31,0xaa32); (0xaa35,0xaa36); (0xaa43,0xaa43); (0xaa4c,0xaa4c); (0xaa70,0xaa70);
  (0xaa7c,0xaa7c); (0xaab0,0xaab0); (0xaab2,0xaab4); (0xaab7,0xaab8); (0xaabe,0xaabf); (0xaac1,0xaac1); (0xaadd,0xaadd); (0xaaec,0xaaed);
  (0xaaf3,0xaaf4); (0xaaf6,0xaaf6); (0xab5b,0xab5f); (0xab69,0xab6b); (0xabe5,0xabe5); (0xabe8,0xabe8); (0xabed,0xabed); (0xfb1e,0xfb1e);
  (0xfbb2,0xfbc2); (0xfe00,0xfe0f); (0xfe13,0xfe13); (0xfe20,0xfe2f); (0xfe52,0xfe52); (0xfe55,0xfe55); (0xfeff,0xfeff); (0xff07,0xff07);
  (0xff0e,0xff0e); (0xff1a,0xff1a); (0xff3e,0xff3e); (0xff40,0xff40); (0xff70,0xff70); (0xff9e,0xff9f); (0xffe3,0xffe3); (0xfff9,0xfffb);
  (0x101fd,0x101fd); (0x102e0,0x102e0); (0x10376,0x1037a); (0x10780,0x10785); (0x10787,0x107b0); (0x107b2,0x107ba); (0x10a01,0x10a03); (0x10a05,0x10a06);
  (0x10a0c,0x10a0f); (0x10a38,0x10a3a); (0x10a3f,0x10a3f); (0x10ae5,0x10ae6); (0x10d24,0x10d27); (0x10eab,0x10eac); (0x10f46,0x10f50); (0x10f82,0x10f85);
  (0x11001,0x11001); (0x11038,0x11046); (0x11070,0x11070); (0x11073,0x11074); (0x1107f,0x11081); (0x110b3,0x110b6); (0x110b9,0x110ba); (0x110bd,0x110bd);
  (0x110c2,0x110c2); (0x110cd,0x110cd); (0x11100,0x11102); (0x11127,0x1112b); (0x1112d,0x11134); (0x11173,0x11173); (0x11180,0x11181); (0x111b6,0x111be);
  (0x111c9,0x111cc); (0x111cf,0x111cf); (0x1122f,0x11231); (0x11234,0x11234); (0x11236,0x11237); (0x1123e,0x1123e); (0x112df,0x112df); (0x112e3,0x112ea);
  (0x11300,0x11301); (0x1133b,0x1133c); (0x11340,0x11340); (0x11366,0x1136c); (0x11370,0x11374); (0x11438,0x1143f); (0x11442,0x11444); (0x11446,0x11446);
  (0x1145e,0x1145e); (0x114b3,0x114b8); (0x114ba,0x114ba); (0x114bf,0x114c0); (0x114c2,0x114c3); (0x115b2,0x115b5); (0x115bc,0x115bd); (0x115bf,0x115c0);
  (0x115dc,0x115dd); (0x11633,0x1163a); (0x1163d,0x1163d); (0x1163f,0x11640); (0x116ab,0x116ab); (0x116ad,0x116ad); (0x116b0,0x116b5); (0x116b7,0x116b7);
  (0x1171d,0x1171f); (0x11722,0x11725); (0x11727,0x1172b); (0x1182f,0x11837); (0x11839,0x1183a); (0x1193b,0x1193c); (0x1193e,0x1193e); (0x11943,0x11943);
  (0x119d4,0x119d7); (0x119da,0x119db); (0x119e0,0x119e0); (0x11a01,0x11a0a); (0x11a33,0x11a38); (0x11a3b,0x11a3e); (0x11a47,0x11a47); (0x11a51,0x11a56);
  (0x11a59,0x11a5b); (0x11a8a,0x11a96); (0x11a98,0x11a99); (0x11c30,0x11c36); (0x11c38,0x11c3d); (0x11c3f,0x11c3f); (0x11c92,0x11ca7); (0x11caa,0x11cb0);
  (0x11cb2,0x11cb3); (0x11cb5,0x11cb6); (0x11d31,0x11d36); (0x11d3a,0x11d3a); (0x11d3c,0x11d3d); (0x11d3f,0x11d45); (0x11d47,0x11d47); (0x11d90,0x11d91);
  (0x11d95,0x11d95); (0x11d97,0x11d97); (0x11ef3,0x11ef4); (0x13430,0x13438); (0x16af0,0x16af4); (0x16b30,0x16b36); (0x16b40,0x16b43); (0x16f4f,0x16f4f);
  (0x16f8f,0x16f9f); (0x16fe0,0x16fe1); (0x16fe3,0x16fe4); (0x1aff0,0x1aff3); (0x1aff5,0x1affb); (0x1affd,0x1affe); (0x1bc9d,0x1bc9e); (0x1bca0,0x1bca3);
  (0x1cf00,0x1cf2d); (0x1cf30,0x1cf46); (0x1d167,0x1d169); (0x1d173,0x1d182); (0x1d185,0x1d18b); (0x1d1aa,0x1d1ad); (0x1d242,0x1d244); (0x1da00,0x1da36);
  (0x1da3b,0x1da6c); (0x1da75,0x1da75); (0x1da84,0x1da84); (0x1da9b,0x1da9f); (0x1daa1,0x1daaf); (0x1e000,0x1e006); (0x1e008,0x1e018); (0x1e01b,0x1e021);
  (0x1e023,0x1e024); (0x1e026,0x1e02a); (0x1e130,0x1e13d); (0x1e2ae,0x1e2ae); (0x1e2ec,0x1e2ef); (0x1e8d0,0x1e8d6); (0x1e944,0x1e94b); (0x1f3fb,0x1f3ff);
  (0xe0001,0xe0001); (0xe0020,0xe007f); (0xe0100,0xe01ef) ].

(** Simple lowercase mapping: every code point that is not its own lowercase, with its image. *)
Definition lower_pairs : list (N * N) := [
  (0x41,0x61); (0x42,0x62); (0x43,0x63); (0x44,0x64); (0x45,0x65); (0x46,0x66); (0x47,0x67); (0x48,0x68);
  (0x49,0x69); (0x4a,0x6a); (0x4b,0x6b); (0x4c,0x6c); (0x4d,0x6d); (0x4e,0x6e); (0x4f,0x6f); (0x50,0x70);
  (0x51,0x71); (0x52,0x72); (0x53,0x73); (0x54,0x74); (0x55,0x75); (0x56,0x76); (0x57,0x77); (0x58,0x78);
  (0x59,0x79); (0x5a,0x7a); (0xc0,0xe0); (0xc1,0xe1); (0xc2,0xe2); (0xc3,0xe3); (0xc4,0xe4); (0xc5,0xe5);
  (0xc6,0xe6); (0xc7,0xe7); (0xc8,0xe8); (0xc9,0xe9); (0xca,0xea); (0xcb,0xeb); (0xcc,0xec); (0xcd,0xed);
  (0xce,0xee); (0xcf,0xef); (0xd0,0xf0); (0xd1,0xf1); (0xd2,0xf2); (0xd3,0xf3); (0xd4,0xf4); (0xd5,0xf5);
  (0xd6,0xf6); (0xd8,0xf8); (0xd9,0xf9); (0xda,0xfa); (0xdb,0xfb); (0xdc,0xfc); (0xdd,0xfd); (0xde,0xfe);
  (0x100,0x101); (0x102,0x103); (0x104,0x105); (0x106,0x107); (0x108,0x109); (0x10a,0x10b); (0x10c,0x10d); (0x10e,0x10f);
  (0x110,0x111); (0x112,0x113); (0x114,0x115); (0x116,0x117); (0x118,0x119); (0x11a,0x11b); (0x11c,0x11d); (0x11e,0x11f);
  (0x120,0x121); (0x122,0x123); (0x124,0x125); (0x126,0x127); (0x128,0x129); (0x12a,0x12b); (0x12c,0x12d); (0x12e,0x12f);
  (0x130,0x69); (0x132,0x133); (0x134,0x135); (0x136,0x137); (0x139,0x13a); (0x13b,0x13c); (0x13d,0x13e); (0x13f,0x140);
  (0x141,0x142); (0x143,0x144); (0x145,0x146); (0x147,0x148); (0x14a,0x14b); (0x14c,0x14d); (0x14e,0x14f); (0x150,0x151);
  (0x152,0x153); (0x154,0x155); (0x156,0x157); (0x158,0x159); (0x15a,0x15b); (0x15c,0x15d); (0x15e,0x15f); (0x160,0x161);
  (0x162,0x163); (0x164,0x165); (0x166,0x167); (0x168,0x169); (0x16a,0x16b); (0x16c,0x16d); (0x16e,0x16f); (0x170,0x171);
  (0x172,0x173); (0x174,0x175); (0x176,0x177); (0x178,0xff); (0x179,0x17a); (0x17b,0x17c); (0x17d,0x17e); (0x181,0x253);
  (0x182,0x183); (0x184,0x185); (0x186,0x254); (0x187,0x188); (0x189,0x256); (0x18a,0x257); (0x18b,0x18c); (0x18e,0x1dd);
  (0x18f,0x259); (0x190,0x25b); (0x191,0x192); (0x193,0x260); (0x194,0x263); (0x196,0x269); (0x197,0x268); (0x198,0x199);
  (0x19c,0x26f); (0x19d,0x272); (0x19f,0x275); (0x1a0,0x1a1); (0x1a2,0x1a3); (0x1a4,0x1a5); (0x1a6,0x280); (0x1a7,0x1a8);
  (0x1a9,0x283); (0x1ac,0x1ad); (0x1ae,0x288); (0x1af,0x1b0); (0x1b1,0x28a); (0x1b2,0x28b); (0x1b3,0x1b4); (0x1b5,0x1b6);
  (0x1b7,0x292); (0x1b8,0x1b9); (0x1bc,0x1bd); (0x1c4,0x1c6); (0x1c5,0x1c6); (0x1c7,0x1c9); (0x1c8,0x1c9); (0x1ca,0x1cc);
  (0x1cb,0x1cc); (0x1cd,0x1ce); (0x1cf,0x1d0); (0x1d1,0x1d2); (0x1d3,0x1d4); (0x1d5,0x1d6); (0x1d7,0x1d8); (0x1d9,0x1da);
  (0x1db,0x1dc); (0x1de,0x1df); (0x1e0,0x1e1); (0x1e2,0x1e3); (0x1e4,0x1e5); (0x1e6,0x1e7); (0x1e8,0x1e9); (0x1ea,0x1eb);
  (0x1ec,0x1ed); (0x1ee,0x1ef); (0x1f1,0x1f3); (0x1f2,0x1f3); (0x1f4,0x1f5); (0x1f6,0x195); (0x1f7,0x1bf); (0x1f8,0x1f9);
  (0x1fa,0x1fb); (0x1fc,0x1fd); (0x1fe,0x1ff); (0x200,0x201); (0x202,0x203); (0x204,0x205); (0x206,0x207); (0x208,0x209);
  (0x20a,0x20b); (0x20c,0x20d); (0x20e,0x20f); (0x210,0x211); (0x212,0x213); (0x214,0x215); (0x216,0x217); (0x218,0x219);
  (0x21a,0x21b); (0x21c,0x21d); (0x21e,0x21f); (0x220,0x19e); (0x222,0x223); (0x224,0x225); (0x226,0x227); (0x228,0x229);
  (0x22a,0x22b); (0x22c,0x22d); (0x22e,0x22f); (0x230,0x231); (0x232,0x233); (0x23a,0x2c65); (0x23b,0x23c); (0x23d,0x19a);
  (0x23e,0x2c66); (0x241,0x242); (0x243,0x180); (0x244,0x289); (0x245,0x28c); (0x246,0x247); (0x248,0x249); (0x24a,0x24b);
  (0x24c,0x24d); (0x24e,0x24f); (0x370,0x371); (0x372,0x373); (0x376,0x377); (0x37f,0x3f3); (0x386,0x3ac); (0x388,0x3ad);
  (0x389,0x3ae); (0x38a,0x3af); (0x38c,0x3cc); (0x38e,0x3cd); (0x38f,0x3ce); (0x391,0x3b1); (0x392,0x3b2); (0x393,0x3b3);
  (0x394,0x3b4); (0x395,0x3b5); (0x396,0x3b6); (0x397,0x3b7); (0x398,0x3b8); (0x399,0x3b9); (0x39a,0x3ba); (0x39b,0x3bb);
  (0x39c,0x3bc); (0x39d,0x3bd); (0x39e,0x3be); (0x39f,0x3bf); (0x3a0,0x3c0); (0x3a1,0x3c1); (0x3a3,0x3c3); (0x3a4,0x3c4);
  (0x3a5,0x3c5); (0x3a6,0x3c6); (0x3a7,0x3c7); (0x3a8,0x3c8); (0x3a9,0x3c9); (0x3aa,0x3ca); (0x3ab,0x3cb); (0x3cf,0x3d7);
  (0x3d8,0x3d9); (0x3da,0x3db); (0x3dc,0x3dd); (0x3de,0x3df); (0x3e0,0x3e1); (0x3e2,0x3e3); (0x3e4,0x3e5); (0x3e6,0x3e7);
  (0x3e8,0x3e9); (0x3ea,0x3eb); (0x3ec,0x3ed); (0x3ee,0x3ef); (0x3f4,0x3b8); (0x3f7,0x3f8); (0x3f9,0x3f2); (0x3fa,0x3fb);
  (0x3fd,0x37b); (0x3fe,0x37c); (0x3ff,0x37d); (0x400,0x450); (0x401,0x451); (0x402,0x452); (0x403,0x453); (0x404,0x454);
  (0x405,0x455); (0x406,0x456); (0x407,0x457); (0x408,0x458); (0x409,0x459); (0x40a,0x45a); (0x40b,0x45b); (0x40c,0x45c);
  (0x40d,0x45d); (0x40e,0x45e); (0x40f,0x45f); (0x410,0x430); (0x411,0x431); (0x412,0x432); (0x413,0x433); (0x414,0x434);
  (0x415,0x435); (0x416,0x436); (0x417,0x437); (0x418,0x438); (0x419,0x439); (0x41a,0x43a); (0x41b,0x43b); (0x41c,0x43c);
  (0x41d,0x43d); (0x41e,0x43e); (0x41f,0x43f); (0x420,0x440); (0x421,0x441); (0x422,0x442); (0x423,0x443); (0x424,0x444);
  (0x425,0x445); (0x426,0x446); (0x427,0x447); (0x428,0x448); (0x429,0x449); (0x42a,0x44a); (0x42b,0x44b); (0x42c,0x44c);
  (0x42d,0x44d); (0x42e,0x44e); (0x42f,0x44f); (0x460,0x461); (0x462,0x463); (0x464,0x465); (0x466,0x467); (0x468,0x469);
  (0x46a,0x46b); (0x46c,0x46d); (0x46e,0x46f); (0x470,0x471); (0x472,0x473); (0x474,0x475); (0x476,0x477); (0x478,0x479);
  (0x47a,0x47b); (0x47c,0x47d); (0x47e,0x47f); (0x480,0x481); (0x48a,0x48b); (0x48c,0x48d); (0x48e,0x48f); (0x490,0x491);
  (0x492,0x493); (0x494,0x495); (0x496,0x497); (0x498,0x499); (0x49a,0x49b); (0x49c,0x49d); (0x49e,0x49f); (0x4a0,0x4a1);
  (0x4a2,0x4a3); (0x4a4,0x4a5); (0x4a6,0x4a7); (0x4a8,0x4a9); (0x4aa,0x4ab); (0x4ac,0x4ad); (0x4ae,0x4af); (0x4b0,0x4b1);
  (0x4b2,0x4b3); (0x4b4,0x4b5); (0x4b6,0x4b7); (0x4b8,0x4b9); (0x4ba,0x4bb); (0x4bc,0x4bd); (0x4be,0x4bf); (0x4c0,0x4cf);
  (0x4c1,0x4c2); (0x4c3,0x4c4); (0x4c5,0x4c6); (0x4c7,0x4c8); (0x4c9,0x4ca); (0x4cb,0x4cc); (0x4cd,0x4ce); (0x4d0,0x4d1);
  (0x4d2,0x4d3); (0x4d4,0x4d5); (0x4d6,0x4d7); (0x4d8,0x4d9); (0x4da,0x4db); (0x4dc,0x4dd); (0x4de,0x4df); (0x4e0,0x4e1);
  (0x4e2,0x4e3); (0x4e4,0x4e5); (0x4e6,0x4e7); (0x4e8,0x4e9); (0x4ea,0x4eb); (0x4ec,0x4ed); (0x4ee,0x4ef); (0x4f0,0x4f1);
  (0x4f2,0x4f3); (0x4f4,0x4f5); (0x4f6,0x4f7); (0x4f8,0x4f9); (0x4fa,0x4fb); (0x4fc,0x4fd); (0x4fe,0x4ff); (0x500,0x501);
  (0x502,0x503); (0x504,0x505); (0x506,0x507); (0x508,0x509); (0x50a,0x50b); (0x50c,0x50d); (0x50e,0x50f); (0x510,0x511);
  (0x512,0x513); (0x514,0x515); (0x516,0x517); (0x518,0x519); (0x51a,0x51b); (0x51c,0x51d); (0x51e,0x51f); (0x520,0x521);
  (0x522,0x523); (0x524,0x525); (0x526,0x527); (0x528,0x529); (0x52a,0x52b); (0x52c,0x52d); (0x52e,0x52f); (0x531,0x561);
  (0x532,0x562); (0x533,0x563); (0x534,0x564); (0x535,0x565); (0x536,0x566); (0x537,0x567); (0x538,0x568); (0x539,0x569);
  (0x53a,0x56a); (0x53b,0x56b); (0x53c,0x56c); (0x53d,0x56d); (0x53e,0x56e); (0x53f,0x56f); (0x540,0x570); (0x541,0x571);
  (0x542,0x572); (0x543,0x573); (0x544,0x574); (0x545,0x575); (0x546,0x576); (0x547,0x577); (0x548,0x578); (0x549,0x579);
  (0x54a,0x57a); (0x54b,0x57b); (0x54c,0x57c); (0x54d,0x57d); (0x54e,0x57e); (0x54f,0x57f); (0x550,0x580); (0x551,0x581);
  (0x552,0x582); (0x553,0x583); (0x554,0x584); (0x555,0x585); (0x556,0x586); (0x10a0,0x2d00); (0x10a1,0x2d01); (0x10a2,0x2d02);
  (0x10a3,0x2d03); (0x10a4,0x2d04); (0x10a5,0x2d05); (0x10a6,0x2d06); (0x10a7,0x2d07); (0x10a8,0x2d08); (0x10a9,0x2d09); (0x10aa,0x2d0a);
  (0x10ab,0x2d0b); (0x10ac,0x2d0c); (0x10ad,0x2d0d); (0x10ae,0x2d0e); (0x10af,0x2d0f); (0x10b0,0x2d10); (0x10b1,0x2d11); (0x10b2,0x2d12);
  (0x10b3,0x2d13); (0x10b4,0x2d14); (0x10b5,0x2d15); (0x10b6,0x2d16); (0x10b7,0x2d17); (0x10b8,0x2d18); (0x10b9,0x2d19); (0x10ba,0x2d1a);
  (0x10bb,0x2d1b); (0x10bc,0x2d1c); (0x10bd,0x2d1d); (0x10be,0x2d1e); (0x10bf,0x2d1f); (0x10c0,0x2d20); (0x10c1,0x2d21); (0x10c2,0x2d22);
  (0x10c3,0x2d23); (0x10c4,0x2d24); (0x10c5,0x2d25); (0x10c7,0x2d27); (0x10cd,0x2d2d); (0x13a0,0xab70); (0x13a1,0xab71); (0x13a2,0xab72);
  (0x13a3,0xab73); (0x13a4,0xab74); (0x13a5,0xab75); (0x13a6,0xab76); (0x13a7,0xab77); (0x13a8,0xab78); (0x13a9,0xab79); (0x13aa,0xab7a);
  (0x13ab,0xab7b); (0x13ac,0xab7c); (0x13ad,0xab7d); (0x13ae,0xab7e); (0x13af,0xab7f); (0x13b0,0xab80); (0x13b1,0xab81); (0x13b2,0xab82);
  (0x13b3,0xab83); (0x13b4,0xab84); (0x13b5,0xab85); (0x13b6,0xab86); (0x13b7,0xab87); (0x13b8,0xab88); (0x13b9,0xab89); (0x13ba,0xab8a);
  (0x13bb,0xab8b); (0x13bc,0xab8c); (0x13bd,0xab8d); (0x13be,0xab8e); (0x13bf,0xab8f); (0x13c0,0xab90); (0x13c1,0xab91); (0x13c2,0xab92);
  (0x13c3,0xab93); (0x13c4,0xab94); (0x13c5,0xab95); (0x13c6,0xab96); (0x13c7,0xab97); (0x13c8,0xab98); (0x13c9,0xab99); (0x13ca,0xab9a);
  (0x13cb,0xab9b); (0x13cc,0xab9c); (0x13cd,0xab9d); (0x13ce,0xab9e); (0x13cf,0xab9f); (0x13d0,0xaba0); (0x13d1,0xaba1); (0x13d2,0xaba2);
  (0x13d3,0xaba3); (0x13d4,0xaba4); (0x13d5,0xaba5); (0x13d6,0xaba6); (0x13d7,0xaba7); (0x13d8,0xaba8); (0x13d9,0xaba9); (0x13da,0xabaa);
  (0x13db,0xabab); (0x13dc,0xabac); (0x13dd,0xabad); (0x13de,0xabae); (0x13df,0xabaf); (0x13e0,0xabb0); (0x13e1,0xabb1); (0x13e2,0xabb2);
  (0x13e3,0xabb3); (0x13e4,0xabb4); (0x13e5,0xabb5); (0x13e6,0xabb6); (0x13e7,0xabb7); (0x13e8,0xabb8); (0x13e9,0xabb9); (0x13ea,0xabba);
  (0x13eb,0xabbb); (0x13ec,0xabbc); (0x13ed,0xabbd); (0x13ee,0xabbe); (0x13ef,0xabbf); (0x13f0,0x13f8); (0x13f1,0x13f9); (0x13f2,0x13fa);
  (0x13f3,0x13fb); (0x13f4,0x13fc); (0x13f5,0x13fd); (0x1c90,0x10d0); (0x1c91,0x10d1); (0x1c92,0x10d2); (0x1c93,0x10d3); (0x1c94,0x10d4);
  (0x1c95,0x10d5); (0x1c96,0x10d6); (0x1c97,0x10d7); (0x1c98,0x10d8); (0x1c99,0x10d9); (0x1c9a,0x10da); (0x1c9b,0x10db); (0x1c9c,0x10dc);
  (0x1c9d,0x10dd); (0x1c9e,0x10de); (0x1c9f,0x10df); (0x1ca0,0x10e0); (0x1ca1,0x10e1); (0x1ca2,0x10e2); (0x1ca3,0x10e3); (0x1ca4,0x10e4);
  (0x1ca5,0x10e5); (0x1ca6,0x10e6); (0x1ca7,0x10e7); (0x1ca8,0x10e8); (0x1ca9,0x10e9); (0x1caa,0x10ea); (0x1cab,0x10eb); (0x1cac,0x10ec);
  (0x1cad,0x10ed); (0x1cae,0x10ee); (0x1caf,0x10ef); (0x1cb0,0x10f0); (0x1cb1,0x10f1); (0x1cb2,0x10f2); (0x1cb3,0x10f3); (0x1cb4,0x10f4);
  (0x1cb5,0x10f5); (0x1cb6,0x10f6); (0x1cb7,0x10f7); (0x1cb8,0x10f8); (0x1cb9,0x10f9); (0x1cba,0x10fa); (0x1cbd,0x10fd); (0x1cbe,0x10fe);
  (0x1cbf,0x10ff); (0x1e00,0x1e01); (0x1e02,0x1e03); (0x1e04,0x1e05); (0x1e06,0x1e07); (0x1e08,0x1e09); (0x1e0a,0x1e0b); (0x1e0c,0x1e0d);
  (0x1e0e,0x1e0f); (0x1e10,0x1e11); (0x1e12,0x1e13); (0x1e14,0x1e15); (0x1e16,0x1e17); (0x1e18,0x1e19); (0x1e1a,0x1e1b); (0x1e1c,0x1e1d);
  (0x1e1e,0x1e1f); (0x1e20,0x1e21); (0x1e22,0x1e23); (0x1e24,0x1e25); (0x1e26,0x1e27); (0x1e28,0x1e29); (0x1e2a,0x1e2b); (0x1e2c,0x1e2d);
  (0x1e2e,0x1e2f); (0x1e30,0x1e31); (0x1e32,0x1e33); (0x1e34,0x1e35); (0x1e36,0x1e37); (0x1e38,0x1e39); (0x1e3a,0x1e3b); (0x1e3c,0x1e3d);
  (0x1e3e,0x1e3f); (0x1e40,0x1e41); (0x1e42,0x1e43); (0x1e44,0x1e45); (0x1e46,0x1e47); (0x1e48,0x1e49); (0x1e4a,0x1e4b); (0x1e4c,0x1e4d);
  (0x1e4e,0x1e4f); (0x1e50,0x1e51); (0x1e52,0x1e53); (0x1e54,0x1e55); (0x1e56,0x1e57); (0x1e58,0x1e59); (0x1e5a,0x1e5b); (0x1e5c,0x1e5d);
  (0x1e5e,0x1e5f); (0x1e60,0x1e61); (0x1e62,0x1e63); (0x1e64,0x1e65); (0x1e66,0x1e67); (0x1e68,0x1e69); (0x1e6a,0x1e6b); (0x1e6c,0x1e6d);
  (0x1e6e,0x1e6f); (0x1e70,0x1e71); (0x1e72,0x1e73); (0x1e74,0x1e75); (0x1e76,0x1e77); (0x1e78,0x1e79); (0x1e7a,0x1e7b); (0x1e7c,0x1e7d);
  (0x1e7e,0x1e7f); (0x1e80,0x1e81); (0x1e82,0x1e83); (0x1e84,0x1e85); (0x1e86,0x1e87); (0x1e88,0x1e89); (0x1e8a,0x1e8b); (0x1e8c,0x1e8d);
  (0x1e8e,0x1e8f); (0x1e90,0x1e91); (0x1e92,0x1e93); (0x1e94,0x1e95); (0x1e9e,0xdf); (0x1ea0,0x1ea1); (0x1ea2,0x1ea3); (0x1ea4,0x1ea5);
  (0x1ea6,0x1ea7); (0x1ea8,0x1ea9); (0x1eaa,0x1eab); (0x1eac,0x1ead); (0x1eae,0x1eaf); (0x1eb0,0x1eb1); (0x1eb2,0x1eb3); (0x1eb4,0x1eb5);
  (0x1eb6,0x1eb7); (0x1eb8,0x1eb9); (0x1eba,0x1ebb); (0x1ebc,0x1ebd); (0x1ebe,0x1ebf); (0x1ec0,0x1ec1); (0x1ec2,0x1ec3); (0x1ec4,0x1ec5);
  (0x1ec6,0x1ec7); (0x1ec8,0x1ec9); (0x1eca,0x1ecb); (0x1ecc,0x1ecd); (0x1ece,0x1ecf); (0x1ed0,0x1ed1); (0x1ed2,0x1ed3); (0x1ed4,0x1ed5);
  (0x1ed6,0x1ed7); (0x1ed8,0x1ed9); (0x1eda,0x1edb); (0x1edc,0x1edd); (0x1ede,0x1edf); (0x1ee0,0x1ee1); (0x1ee2,0x1ee3); (0x1ee4,0x1ee5);
  (0x1ee6,0x1ee7); (0x1ee8,0x1ee9); (0x1eea,0x1eeb); (0x1eec,0x1eed); (0x1eee,0x1eef); (0x1ef0,0x1ef1); (0x1ef2,0x1ef3); (0x1ef4,0x1ef5);
  (0x1ef6,0x1ef7); (0x1ef8,0x1ef9); (0x1efa,0x1efb); (0x1efc,0x1efd); (0x1efe,0x1eff); (0x1f08,0x1f00); (0x1f09,0x1f01); (0x1f0a,0x1f02);
  (0x1f0b,0x1f03); (0x1f0c,0x1f04); (0x1f0d,0x1f05); (0x1f0e,0x1f06); (0x1f0f,0x1f07); (0x1f18,0x1f10); (0x1f19,0x1f11); (0x1f1a,0x1f12);
  (0x1f1b,0x1f13); (0x1f1c,0x1f14); (0x1f1d,0x1f15); (0x1f28,0x1f20); (0x1f29,0x1f21); (0x1f2a,0x1f22); (0x1f2b,0x1f23); (0x1f2c,0x1f24);
  (0x1f2d,0x1f25); (0x1f2e,0x1f26); (0x1f2f,0x1f27); (0x1f38,0x1f30); (0x1f39,0x1f31); (0x1f3a,0x1f32); (0x1f3b,0x1f33); (0x1f3c,0x1f34);
  (0x1f3d,0x1f35); (0x1f3e,0x1f36); (0x1f3f,0x1f37); (0x1f48,0x1f40); (0x1f49,0x1f41); (0x1f4a,0x1f42); (0x1f4b,0x1f43); (0x1f4c,0x1f44);
  (0x1f4d,0x1f45); (0x1f59,0x1f51); (0x1f5b,0x1f53); (0x1f5d,0x1f55); (0x1f5f,0x1f57); (0x1f68,0x1f60); (0x1f69,0x1f61); (0x1f6a,0x1f62);
  (0x1f6b,0x1f63); (0x1f6c,0x1f64); (0x1f6d,0x1f65); (0x1f6e,0x1f66); (0x1f6f,0x1f67); (0x1f88,0x1f80); (0x1f89,0x1f81); (0x1f8a,0x1f82);
  (0x1f8b,0x1f83); (0x1f8c,0x1f84); (0x1f8d,0x1f85); (0x1f8e,0x1f86); (0x1f8f,0x1f87); (0x1f98,0x1f90); (0x1f99,0x1f91); (0x1f9a,0x1f92);
  (0x1f9b,0x1f93); (0x1f9c,0x1f94); (0x1f9d,0x1f95); (0x1f9e,0x1f96); (0x1f9f,0x1f97); (0x1fa8,0x1fa0); (0x1fa9,0x1fa1); (0x1faa,0x1fa2);
  (0x1fab,0x1fa3); (0x1fac,0x1fa4); (0x1fad,0x1fa5); (0x1fae,0x1fa6); (0x1faf,0x1fa7); (0x1fb8,0x1fb0); (0x1fb9,0x1fb1); (0x1fba,0x1f70);
  (0x1fbb,0x1f71); (0x1fbc,0x1fb3); (0x1fc8,0x1f72); (0x1fc9,0x1f73); (0x1fca,0x1f74); (0x1fcb,0x1f75); (0x1fcc,0x1fc3); (0x1fd8,0x1fd0);
  (0x1fd9,0x1fd1); (0x1fda,0x1f76); (0x1fdb,0x1f77); (0x1fe8,0x1fe0); (0x1fe9,0x1fe1); (0x1fea,0x1f7a); (0x1feb,0x1f7b); (0x1fec,0x1fe5);
  (0x1ff8,0x1f78); (0x1ff9,0x1f79); (0x1ffa,0x1f7c); (0x1ffb,0x1f7d); (0x1ffc,0x1ff3); (0x2126,0x3c9); (0x212a,0x6b); (0x212b,0xe5);
  (0x2132,0x214e); (0x2160,0x2170); (0x2161,0x2171); (0x2162,0x2172); (0x2163,0x2173); (0x2164,0x2174); (0x2165,0x2175); (0x2166,0x2176);
  (0x2167,0x2177); (0x2168,0x2178); (0x2169,0x2179); (0x216a,0x217a); (0x216b,0x217b); (0x216c,0x217c); (0x216d,0x217d); (0x216e,0x217e);
  (0x216f,0x217f); (0x2183,0x2184); (0x24b6,0x24d0); (0x24b7,0x24d1); (0x24b8,0x24d2); (0x24b9,0x24d3); (0x24ba,0x24d4); (0x24bb,0x24d5);
  (0x24bc,0x24d6); (0x24bd,0x24d7); (0x24be,0x24d8); (0x24bf,0x24d9); (0x24c0,0x24da); (0x24c1,0x24db); (0x24c2,0x24dc); (0x24c3,0x24dd);
  (0x24c4,0x24de); (0x24c5,0x24df); (0x24c6,0x24e0); (0x24c7,0x24e1); (0x24c8,0x24e2); (0x24c9,0x24e3); (0x24ca,0x24e4); (0x24cb,0x24e5);
  (0x24cc,0x24e6); (0x24cd,0x24e7); (0x24ce,0x24e8); (0x24cf,0x24e9); (0x2c00,0x2c30); (0x2c01,0x2c31); (0x2c02,0x2c32); (0x2c03,0x2c33);
  (0x2c04,0x2c34); (0x2c05,0x2c35); (0x2c06,0x2c36); (0x2c07,0x2c37); (0x2c08,0x2c38); (0x2c09,0x2c39); (0x2c0a,0x2c3a); (0x2c0b,0x2c3b);
  (0x2c0c,0x2c3c); (0x2c0d,0x2c3d); (0x2c0e,0x2c3e); (0x2c0f,0x2c3f); (0x2c10,0x2c40); (0x2c11,0x2c41); (0x2c12,0x2c42); (0x2c13,0x2c43);
  (0x2c14,0x2c44); (0x2c15,0x2c45); (0x2c16,0x2c46); (0x2c17,0x2c47); (0x2c18,0x2c48); (0x2c19,0x2c49); (0x2c1a,0x2c4a); (0x2c1b,0x2c4b);
  (0x2c1c,0x2c4c); (0x2c1d,0x2c4d); (0x2c1e,0x2c4e); (0x2c1f,0x2c4f); (0x2c20,0x2c50); (0x2c21,0x2c51); (0x2c22,0x2c52); (0x2c23,0x2c53);
  (0x2c24,0x2c54); (0x2c25,0x2c55); (0x2c26,0x2c56); (0x2c27,0x2c57); (0x2c28,0x2c58); (0x2c29,0x2c59); (0x2c2a,0x2c5a); (0x2c2b,0x2c5b);
  (0x2c2c,0x2c5c); (0x2c2d,0x2c5d); (0x2c2e,0x2c5e); (0x2c2f,0x2c5f); (0x2c60,0x2c61); (0x2c62,0x26b); (0x2c63,0x1d7d); (0x2c64,0x27d);
  (0x2c67,0x2c68); (0x2c69,0x2c6a); (0x2c6b,0x2c6c); (0x2c6d,0x251); (0x2c6e,0x271); (0x2c6f,0x250); (0x2c70,0x252); (0x2c72,0x2c73);
  (0x2c75,0x2c76); (0x2c7e,0x23f); (0x2c7f,0x240); (0x2c80,0x2c81); (0x2c82,0x2c83); (0x2c84,0x2c85); (0x2c86,0x2c87); (0x2c88,0x2c89);
  (0x2c8a,0x2c8b); (0x2c8c,0x2c8d); (0x2c8e,0x2c8f); (0x2c90,0x2c91); (0x2c92,0x2c93); (0x2c94,0x2c95); (0x2c96,0x2c97); (0x2c98,0x2c99);
  (0x2c9a,0x2c9b); (0x2c9c,0x2c9d); (0x2c9e,0x2c9f); (0x2ca0,0x2ca1); (0x2ca2,0x2ca3); (0x2ca4,0x2ca5); (0x2ca6,0x2ca7); (0x2ca8,0x2ca9);
  (0x2caa,0x2cab); (0x2cac,0x2cad); (0x2cae,0x2caf); (0x2cb0,0x2cb1); (0x2cb2,0x2cb3); (0x2cb4,0x2cb5); (0x2cb6,0x2cb7); (0x2cb8,0x2cb9);
  (0x2cba,0x2cbb); (0x2cbc,0x2cbd); (0x2cbe,0x2cbf); (0x2cc0,0x2cc1); (0x2cc2,0x2cc3); (0x2cc4,0x2cc5); (0x2cc6,0x2cc7); (0x2cc8,0x2cc9);
  (0x2cca,0x2ccb); (0x2ccc,0x2ccd); (0x2cce,0x2ccf); (0x2cd0,0x2cd1); (0x2cd2,0x2cd3); (0x2cd4,0x2cd5); (0x2cd6,0x2cd7); (0x2cd8,0x2cd9);
  (0x2cda,0x2cdb); (0x2cdc,0x2cdd); (0x2cde,0x2cdf); (0x2ce0,0x2ce1); (0x2ce2,0x2ce3); (0x2ceb,0x2cec); (0x2ced,0x2cee); (0x2cf2,0x2cf3);
  (0xa640,0xa641); (0xa642,0xa643); (0xa644,0xa645); (0xa646,0xa647); (0xa648,0xa649); (0xa64a,0xa64b); (0xa64c,0xa64d); (0xa64e,0xa64f);
  (0xa650,0xa651); (0xa652,0xa653); (0xa654,0xa655); (0xa656,0xa657); (0xa658,0xa659); (0xa65a,0xa65b); (0xa65c,0xa65d); (0xa65e,0xa65f);
  (0xa660,0xa661); (0xa662,0xa663); (0xa664,0xa665); (0xa666,0xa667); (0xa668,0xa669); (0xa66a,0xa66b); (0xa66c,0xa66d); (0xa680,0xa681);
  (0xa682,0xa683); (0xa684,0xa685); (0xa686,0xa687); (0xa688,0xa689); (0xa68a,0xa68b); (0xa68c,0xa68d); (0xa68e,0xa68f); (0xa690,0xa691);
  (0xa692,0xa693); (0xa694,0xa695); (0xa696,0xa697); (0xa698,0xa699); (0xa69a,0xa69b); (0xa722,0xa723); (0xa724,0xa725); (0xa726,0xa727);
  (0xa728,0xa729); (0xa72a,0xa72b); (0xa72c,0xa72d); (0xa72e,0xa72f); (0xa732,0xa733); (0xa734,0xa735); (0xa736,0xa737); (0xa738,0xa739);
  (0xa73a,0xa73b); (0xa73c,0xa73d); (0xa73e,0xa73f); (0xa740,0xa741); (0xa742,0xa743); (0xa744,0xa745); (0xa746,0xa747); (0xa748,0xa749);
  (0xa74a,0xa74b); (0xa74c,0xa74d); (0xa74e,0xa74f); (0xa750,0xa751); (0xa752,0xa753); (0xa754,0xa755); (0xa756,0xa757); (0xa758,0xa759);
  (0xa75a,0xa75b); (0xa75c,0xa75d); (0xa75e,0xa75f); (0xa760,0xa761); (0xa762,0xa763); (0xa764,0xa765); (0xa766,0xa767); (0xa768,0xa769);
  (0xa76a,0xa76b); (0xa76c,0xa76d); (0xa76e,0xa76f); (0xa779,0xa77a); (0xa77b,0xa77c); (0xa77d,0x1d79); (0xa77e,0xa77f); (0xa780,0xa781);
  (0xa782,0xa783); (0xa784,0xa785); (0xa786,0xa787); (0xa78b,0xa78c); (0xa78d,0x265); (0xa790,0xa791); (0xa792,0xa793); (0xa796,0xa797);
  (0xa798,0xa799); (0xa79a,0xa79b); (0xa79c,0xa79d); (0xa79e,0xa79f); (0xa7a0,0xa7a1); (0xa7a2,0xa7a3); (0xa7a4,0xa7a5); (0xa7a6,0xa7a7);
  (0xa7a8,0xa7a9); (0xa7aa,0x266); (0xa7ab,0x25c); (0xa7ac,0x261); (0xa7ad,0x26c); (0xa7ae,0x26a); (0xa7b0,0x29e); (0xa7b1,0x287);
  (0xa7b2,0x29d); (0xa7b3,0xab53); (0xa7b4,0xa7b5); (0xa7b6,0xa7b7); (0xa7b8,0xa7b9); (0xa7ba,0xa7bb); (0xa7bc,0xa7bd); (0xa7be,0xa7bf);
  (0xa7c0,0xa7c1); (0xa7c2,0xa7c3); (0xa7c4,0xa794); (0xa7c5,0x282); (0xa7c6,0x1d8e); (0xa7c7,0xa7c8); (0xa7c9,0xa7ca); (0xa7d0,0xa7d1);
  (0xa7d6,0xa7d7); (0xa7d8,0xa7d9); (0xa7f5,0xa7f6); (0xff21,0xff41); (0xff22,0xff42); (0xff23,0xff43); (0xff24,0xff44); (0xff25,0xff45);
  (0xff26,0xff46); (0xff27,0xff47); (0xff28,0xff48); (0xff29,0xff49); (0xff2a,0xff4a); (0xff2b,0xff4b); (0xff2c,0xff4c); (0xff2d,0xff4d);
  (0xff2e,0xff4e); (0xff2f,0xff4f); (0xff30,0xff50); (0xff31,0xff51); (0xff32,0xff52); (0xff33,0xff53); (0xff34,0xff54); (0xff35,0xff55);
  (0xff36,0xff56); (0xff37,0xff57); (0xff38,0xff58); (0xff39,0xff59); (0xff3a,0xff5a); (0x10400,0x10428); (0x10401,0x10429); (0x10402,0x1042a);
  (0x10403,0x1042b); (0x10404,0x1042c); (0x10405,0x1042d); (0x10406,0x1042e); (0x10407,0x1042f); (0x10408,0x10430); (0x10409,0x10431); (0x1040a,0x10432);
  (0x1040b,0x10433); (0x1040c,0x10434); (0x1040d,0x10435); (0x1040e,0x10436); (0x1040f,0x10437); (0x10410,0x10438); (0x10411,0x10439); (0x10412,0x1043a);
  (0x10413,0x1043b); (0x10414,0x1043c); (0x10415,0x1043d); (0x10416,0x1043e); (0x10417,0x1043f); (0x10418,0x10440); (0x10419,0x10441); (0x1041a,0x10442);
  (0x1041b,0x10443); (0x1041c,0x10444); (0x1041d,0x10445); (0x1041e,0x10446); (0x1041f,0x10447); (0x10420,0x10448); (0x10421,0x10449); (0x10422,0x1044a);
  (0x10423,0x1044b); (0x10424,0x1044c); (0x10425,0x1044d); (0x10426,0x1044e); (0x10427,0x1044f); (0x104b0,0x104d8); (0x104b1,0x104d9); (0x104b2,0x104da);
  (0x104b3,0x104db); (0x104b4,0x104dc); (0x104b5,0x104dd); (0x104b6,0x104de); (0x104b7,0x104df); (0x104b8,0x104e0); (0x104b9,0x104e1); (0x104ba,0x104e2);
  (0x104bb,0x104e3); (0x104bc,0x104e4); (0x104bd,0x104e5); (0x104be,0x104e6); (0x104bf,0x104e7); (0x104c0,0x104e8); (0x104c1,0x104e9); (0x104c2,0x104ea);
  (0x104c3,0x104eb); (0x104c4,0x104ec); (0x104c5,0x104ed); (0x104c6,0x104ee); (0x104c7,0x104ef); (0x104c8,0x104f0); (0x104c9,0x104f1); (0x104ca,0x104f2);
  (0x104cb,0x104f3); (0x104cc,0x104f4); (0x104cd,0x104f5); (0x104ce,0x104f6); (0x104cf,0x104f7); (0x104d0,0x104f8); (0x104d1,0x104f9); (0x104d2,0x104fa);
  (0x104d3,0x104fb); (0x10570,0x10597); (0x10571,0x10598); (0x10572,0x10599); (0x10573,0x1059a); (0x10574,0x1059b); (0x10575,0x1059c); (0x10576,0x1059d);
  (0x10577,0x1059e); (0x10578,0x1059f); (0x10579,0x105a0); (0x1057a,0x105a1); (0x1057c,0x105a3); (0x1057d,0x105a4); (0x1057e,0x105a5); (0x1057f,0x105a6);
  (0x10580,0x105a7); (0x10581,0x105a8); (0x10582,0x105a9); (0x10583,0x105aa); (0x10584,0x105ab); (0x10585,0x105ac); (0x10586,0x105ad); (0x10587,0x105ae);
  (0x10588,0x105af); (0x10589,0x105b0); (0x1058a,0x105b1); (0x1058c,0x105b3); (0x1058d,0x105b4); (0x1058e,0x105b5); (0x1058f,0x105b6); (0x10590,0x105b7);
  (0x10591,0x105b8); (0x10592,0x105b9); (0x10594,0x105bb); (0x10595,0x105bc); (0x10c80,0x10cc0); (0x10c81,0x10cc1); (0x10c82,0x10cc2); (0x10c83,0x10cc3);
  (0x10c84,0x10cc4); (0x10c85,0x10cc5); (0x10c86,0x10cc6); (0x10c87,0x10cc7); (0x10c88,0x10cc8); (0x10c89,0x10cc9); (0x10c8a,0x10cca); (0x10c8b,0x10ccb);
  (0x10c8c,0x10ccc); (0x10c8d,0x10ccd); (0x10c8e,0x10cce); (0x10c8f,0x10ccf); (0x10c90,0x10cd0); (0x10c91,0x10cd1); (0x10c92,0x10cd2); (0x10c93,0x10cd3);
  (0x10c94,0x10cd4); (0x10c95,0x10cd5); (0x10c96,0x10cd6); (0x10c97,0x10cd7); (0x10c98,0x10cd8); (0x10c99,0x10cd9); (0x10c9a,0x10cda); (0x10c9b,0x10cdb);
  (0x10c9c,0x10cdc); (0x10c9d,0x10cdd); (0x10c9e,0x10cde); (0x10c9f,0x10cdf); (0x10ca0,0x10ce0); (0x10ca1,0x10ce1); (0x10ca2,0x10ce2); (0x10ca3,0x10ce3);
  (0x10ca4,0x10ce4); (0x10ca5,0x10ce5); (0x10ca6,0x10ce6); (0x10ca7,0x10ce7); (0x10ca8,0x10ce8); (0x10ca9,0x10ce9); (0x10caa,0x10cea); (0x10cab,0x10ceb);
  (0x10cac,0x10cec); (0x10cad,0x10ced); (0x10cae,0x10cee); (0x10caf,0x10cef); (0x10cb0,0x10cf0); (0x10cb1,0x10cf1); (0x10cb2,0x10cf2); (0x118a0,0x118c0);
  (0x118a1,0x118c1); (0x118a2,0x118c2); (0x118a3,0x118c3); (0x118a4,0x118c4); (0x118a5,0x118c5); (0x118a6,0x118c6); (0x118a7,0x118c7); (0x118a8,0x118c8);
  (0x118a9,0x118c9); (0x118aa,0x118ca); (0x118ab,0x118cb); (0x118ac,0x118cc); (0x118ad,0x118cd); (0x118ae,0x118ce); (0x118af,0x118cf); (0x118b0,0x118d0);
  (0x118b1,0x118d1); (0x118b2,0x118d2); (0x118b3,0x118d3); (0x118b4,0x118d4); (0x118b5,0x118d5); (0x118b6,0x118d6); (0x118b7,0x118d7); (0x118b8,0x118d8);
  (0x118b9,0x118d9); (0x118ba,0x118da); (0x118bb,0x118db); (0x118bc,0x118dc); (0x118bd,0x118dd); (0x118be,0x118de); (0x118bf,0x118df); (0x16e40,0x16e60);
  (0x16e41,0x16e61); (0x16e42,0x16e62); (0x16e43,0x16e63); (0x16e44,0x16e64); (0x16e45,0x16e65); (0x16e46,0x16e66); (0x16e47,0x16e67); (0x16e48,0x16e68);
  (0x16e49,0x16e69); (0x16e4a,0x16e6a); (0x16e4b,0x16e6b); (0x16e4c,0x16e6c); (0x16e4d,0x16e6d); (0x16e4e,0x16e6e); (0x16e4f,0x16e6f); (0x16e50,0x16e70);
  (0x16e51,0x16e71); (0x16e52,0x16e72); (0x16e53,0x16e73); (0x16e54,0x16e74); (0x16e55,0x16e75); (0x16e56,0x16e76); (0x16e57,0x16e77); (0x16e58,0x16e78);
  (0x16e59,0x16e79); (0x16e5a,0x16e7a); (0x16e5b,0x16e7b); (0x16e5c,0x16e7c); (0x16e5d,0x16e7d); (0x16e5e,0x16e7e); (0x16e5f,0x16e7f); (0x1e900,0x1e922);
  (0x1e901,0x1e923); (0x1e902,0x1e924); (0x1e903,0x1e925); (0x1e904,0x1e926); (0x1e905,0x1e927); (0x1e906,0x1e928); (0x1e907,0x1e929); (0x1e908,0x1e92a);
  (0x1e909,0x1e92b); (0x1e90a,0x1e92c); (0x1e90b,0x1e92d); (0x1e90c,0x1e92e); (0x1e90d,0x1e92f); (0x1e90e,0x1e930); (0x1e90f,0x1e931); (0x1e910,0x1e932);
  (0x1e911,0x1e933); (0x1e912,0x1e934); (0x1e913,0x1e935); (0x1e914,0x1e936); (0x1e915,0x1e937); (0x1e916,0x1e938); (0x1e917,0x1e939); (0x1e918,0x1e93a);
  (0x1e919,0x1e93b); (0x1e91a,0x1e93c); (0x1e91b,0x1e93d); (0x1e91c,0x1e93e); (0x1e91d,0x1e93f); (0x1e91e,0x1e940); (0x1e91f,0x1e941); (0x1e920,0x1e942);
  (0x1e921,0x1e943) ].

End UCD.

Section CharacterClasses.
Local Open Scope N_scope.

Definition in_ranges (tbl : list (N * N)) (c : char) : bool :=
  existsb (fun r => (fst r <=? c) && (c <=? snd r)) tbl.

(** [str.isdecimal] for one code point; this is also the class [\d]. *)
Definition is_decimal (c : char) : bool := in_ranges UCD.decimal_ranges c.

(** Value of a decimal digit, as [int] reads it. *)
Definition decimal_value (c : char) : Z :=
  match find (fun r => (fst r <=? c) && (c <=? snd r)) UCD.decimal_ranges with
  | Some r => Z.of_N ((c - fst r) mod 10)
  | None => 0%Z
  end.

(** [str.isspace] for one code point; this is also the class [\s]. *)
Definition is_space (c : char) : bool := in_ranges UCD.space_ranges c.

Definition is_alnum (c : char) : bool := in_ranges UCD.alnum_ranges c.

(** The class [\w]: alphanumeric or underscore. *)
Definition is_word (c : char) : bool := is_alnum c || (c =? 0x5f).

Definition is_cased (c : char) : bool := in_ranges UCD.cased_ranges c.
Definition is_case_ignorable (c : char) : bool :=
  in_ranges UCD.case_ignorable_ranges c.

Fixpoint assoc (c : char) (tbl : list (N * N)) : option N :=
  match tbl with
  | [] => None
  | (k, v) :: tbl' => if k =? c then Some v else assoc c tbl'
  end.

(** Simple lowercase mapping of one code point (what the regex engine uses
    under IGNORECASE). *)
Definition tolower (c : char) : char :=
  match assoc c UCD.lower_pairs with
  | Some l => l
  | None => c
  end.

(** Full lowercase mapping (what [str.lower] uses): capital I with dot
    above is the only code point whose lowercase has two code points. *)
Definition tolower_full (c : char) : str :=
  if c =? 0x130 then [0x69; 0x307] else [tolower c].

End CharacterClasses.

(** ** String literals

    Literals of the source are written as UTF-8 text and decoded to code
    points. *)

Section Utf8.
Local Open Scope N_scope.

Fixpoint utf8_decode (bs : list N) : str :=
  match bs with
  | [] => []
  | b0 :: t =>
      if b0 <? 0x80 then b0 :: utf8_decode t
      else if b0 <? 0xe0 then
        match t with
        | b1 :: t1 => ((b0 mod 0x20) * 0x40 + b1 mod 0x40) :: utf8_decode t1
        | _ => []
        end
      else if b0 <? 0xf0 then
        match t with
        | b1 :: b2 :: t2 =>
            ((b0 mod 0x10) * 0x1000 + (b1 mod 0x40) * 0x40 + b2 mod 0x40)
              :: utf8_decode t2
        | _ => []
        end
      else
        match t with
        | b1 :: b2 :: b3 :: t3 =>
            ((b0 mod 0x8) * 0x40000 + (b1 mod 0x40) * 0x1000
             + (b2 mod 0x40) * 0x40 + b3 mod 0x40) :: utf8_decode t3
        | _ => []
        end
  end.

Definition U (s : string) : str :=
  utf8_decode (List.map N_of_ascii (list_ascii_of_string s)).

End Utf8.
Arguments U : simpl never.

(** ** String methods *)

Section StrMethods.
Local Open Scope N_scope.

Fixpoint skip_ignorable (s : str) : option char :=
  match s with
  | [] => None
  | c :: s' => if is_case_ignorable c then skip_ignorable s' else Some c
  end.

(** Lowercase of capital sigma at a position: final sigma when a cased
    letter precedes it and none follows, case-ignorable code points being
    skipped on both sides.  [before] is the text before the position,
    nearest code point first. *)
Definition handle_capital_sigma (before after : str) : char :=
  let preceded :=
    match skip_ignorable before with Some c => is_cased c | None => false end in
  let followed :=
    match skip_ignorable after with Some c => is_cased c | None => false end in
  if preceded && negb followed then 0x3c2 else 0x3c3.

Fixpoint lower_from (before s : str) : str :=
  match s with
  | [] => []
  | c :: s' =>
      (if c =? 0x3a3 then [handle_capital_sigma before s'] else tolower_full c)
        ++ lower_from (c :: before) s'
  end.

(** [s.lower()] *)
Definition str_lower (s : str) : str := lower_from [] s.

Fixpoint lstrip (s : str) : str :=
  match s with
  | [] => []
  | c :: s' => if is_space c then lstrip s' else s
  end.

(** [s.strip()] *)
Definition str_strip (s : str) : str := rev (lstrip (rev (lstrip s))).

Definition str_eqb (a b : str) : bool :=
  if list_eq_dec N.eq_dec a b then true else false.

Fixpoint startswith (p s : str) : bool :=
  match p, s with
  | [], _ => true
  | x :: p', y :: s' => (x =? y) && startswith p' s'
  | _ :: _, [] => false
  end.

(** [needle in hay] *)
Fixpoint contains (needle hay : str) : bool :=
  startswith needle hay ||
  match hay with
  | [] => false
  | _ :: hay' => contains needle hay'
  end.

(** [s.rfind(c)] for a single code point, [None] standing for -1. *)
Fixpoint rfind_from (c : char) (s : str) (i : nat) (best : option nat)
  : option nat :=
  match s with
  | [] => best
  | x :: s' => rfind_from c s' (S i) (if x =? c then Some i else best)
  end.
Definition rfind (c : char) (s : str) : option nat := rfind_from c s 0%nat None.

End StrMethods.

(** ** Regular expressions

    The fragment of Python's [re] syntax that the program uses. *)

Inductive cset_item :=
| CChar (c : char)   (* a literal code point inside a set *)
| CRange (lo hi : char)  (* lo-hi *)
| CDigit             (* \d *)
| CSpace.            (* \s *)

Inductive regex :=
| REps                                          (* the empty pattern *)
| RLit (c : char)                               (* a literal code point *)
| RLitI (c : char)                              (* a lowercase literal under IGNORECASE *)
| RIn (negate : bool) (items : list cset_item)  (* [...] and [^...] *)
| RSeq (r1 r2 : regex)
| RAlt (r1 r2 : regex)                          (* r1|r2 *)
| RRep (lo : nat) (hi : option nat) (r : regex) (* greedy r{lo,hi}; no upper bound when [hi] is [None] *)
| RGroup (n : nat) (r : regex)                  (* capturing group number n *)
| RLook (r : regex)                             (* (?=r) *)
| RWordB.                                       (* \b *)

Definition item_mem (i : cset_item) (c : char) : bool :=
  match i with
  | CChar x => N.eqb x c
  | CRange lo hi => N.leb lo c && N.leb c hi
  | CDigit => is_decimal c
  | CSpace => is_space c
  end.

Definition cset_mem (negate : bool) (items : list cset_item) (c : char) : bool :=
  xorb negate (existsb (fun i => item_mem i c) items).

(** A position in the subject: the code point just before it, if any, and
    the text from it on. *)
Record cursor := Cur { c_prev : option char; c_rest : str }.

Definition caps := list (nat * str).

Fixpoint getcap (n : nat) (cs : caps) : option str :=
  match cs with
  | [] => None
  | (k, v) :: cs' => if Nat.eqb k n then Some v else getcap n cs'
  end.

Definition setcap (n : nat) (v : str) (cs : caps) : caps := (n, v) :: cs.

(** The text between two positions of the same subject. *)
Definition consumed (from to : cursor) : str :=
  firstn (length (c_rest from) - length (c_rest to)) (c_rest from).

Definition word_before (cur : cursor) : bool :=
  match c_prev cur with Some c => is_word c | None => false end.
Definition word_after (cur : cursor) : bool :=
  match c_rest cur with c :: _ => is_word c | [] => false end.

Definition step_if (p : char -> bool) (cur : cursor)
    (k : cursor -> option (cursor * caps)) : option (cursor * caps) :=
  match c_rest cur with
  | c :: s => if p c then k (Cur (Some c) s) else None
  | [] => None
  end.

Definition outcome := option (cursor * caps).
Definition kont := cursor -> caps -> outcome.

(** Greedy repetition of a matcher [body]: at most [rounds] further rounds,
    at least [lo] of them; one more round is tried before stopping. *)
Section Repeat.
Variable body : cursor -> caps -> kont -> outcome.
Variable k : kont.

Fixpoint rep (rounds lo : nat) (cur : cursor) (cs : caps) {struct rounds} : outcome :=
  match rounds with
  | O => if Nat.eqb lo 0 then k cur cs else None
  | S rounds' =>
      match body cur cs (fun cur' cs' => rep rounds' (Nat.pred lo) cur' cs') with
      | Some x => Some x
      | None => if Nat.eqb lo 0 then k cur cs else None
      end
  end.
End Repeat.

(** Backtracking matcher in continuation-passing style: [mt r cur cs k]
    matches [r] at [cur] and hands the position reached and the captures
    to [k]; when [k] fails, the next way of matching [r] is tried, in the
    order of Python's engine.  An unbounded repetition runs at most once
    per remaining code point, every repeated pattern of this program taking
    at least one code point per round. *)
Fixpoint mt (r : regex) (cur : cursor) (cs : caps) (k : kont) {struct r} : outcome :=
  match r with
  | REps => k cur cs
  | RLit c => step_if (N.eqb c) cur (fun cur' => k cur' cs)
  | RLitI c => step_if (fun x => N.eqb (tolower x) c) cur (fun cur' => k cur' cs)
  | RIn negate items => step_if (cset_mem negate items) cur (fun cur' => k cur' cs)
  | RSeq r1 r2 => mt r1 cur cs (fun cur' cs' => mt r2 cur' cs' k)
  | RAlt r1 r2 =>
      match mt r1 cur cs k with
      | Some x => Some x
      | None => mt r2 cur cs k
      end
  | RRep lo hi r1 =>
      rep (mt r1) k
          (match hi with Some h => h | None => length (c_rest cur) end)
          lo cur cs
  | RGroup n r1 =>
      mt r1 cur cs (fun cur' cs' => k cur' (setcap n (consumed cur cur') cs'))
  | RLook r1 =>
      match mt r1 cur cs (fun cur' cs' => Some (cur', cs')) with
      | Some (_, cs') => k cur cs'
      | None => None
      end
  | RWordB => if xorb (word_before cur) (word_after cur) then k cur cs else None
  end.

(** One attempt at one position.  With [must_advance] an empty match is
    refused and the matcher backtracks past it. *)
Definition match_at (r : regex) (must_advance : bool) (cur : cursor)
  : option (cursor * caps) :=
  mt r cur []
     (fun cur' cs' =>
        if must_advance && Nat.eqb (length (c_rest cur')) (length (c_rest cur))
        then None else Some (cur', cs')).

(** A match object: the text skipped before the match since the search
    began, the matched text, the groups and the position after it. *)
Record rmatch := Match {
  m_pre : str;
  m_text : str;
  m_caps : caps;
  m_after : cursor
}.

(** [m.group(n)]; [None] when the group took no part in the match. *)
Definition group (m : rmatch) (n : nat) : option str :=
  match n with
  | O => Some (m_text m)
  | _ => getcap n (m_caps m)
  end.

(** Leftmost match at or after a position.  [must_advance] only binds at
    the position the search starts from. *)
Fixpoint search_from (r : regex) (must_advance : bool) (skipped : str)
    (prev : option char) (s : str) {struct s} : option rmatch :=
  match match_at r must_advance (Cur prev s) with
  | Some (cur', cs) =>
      Some (Match (rev skipped) (consumed (Cur prev s) cur') cs cur')
  | None =>
      match s with
      | [] => None
      | c :: s' => search_from r false (c :: skipped) (Some c) s'
      end
  end.

Definition search_at (r : regex) (must_advance : bool) (cur : cursor)
  : option rmatch :=
  search_from r must_advance [] (c_prev cur) (c_rest cur).

(** [re.search(r, text)] *)
Definition re_search (r : regex) (text : str) : option rmatch :=
  search_at r false (Cur None text).

Definition empty_match (m : rmatch) : bool :=
  match m_text m with [] => true | _ => false end.

(** The scan shared by [finditer] and [sub]: each search starts where the
    previous match ended, and after an empty match the next one has to
    advance.  Two rounds per code point and two more are enough for any
    subject ([iter_bound]). *)
Fixpoint finditer_from (rounds : nat) (r : regex) (must_advance : bool)
    (cur : cursor) : list rmatch :=
  match rounds with
  | O => []
  | S rounds' =>
      match search_at r must_advance cur with
      | None => []
      | Some m => m :: finditer_from rounds' r (empty_match m) (m_after m)
      end
  end.

Definition iter_bound (s : str) : nat := 2 * length s + 2.

(** [re.finditer(r, text)], as the list of its matches. *)
Definition re_finditer (r : regex) (text : str) : list rmatch :=
  finditer_from (iter_bound text) r false (Cur None text).

Fixpoint sub_from (rounds : nat) (r : regex) (repl : str) (must_advance : bool)
    (cur : cursor) : str :=
  match rounds with
  | O => c_rest cur
  | S rounds' =>
      match search_at r must_advance cur with
      | None => c_rest cur
      | Some m =>
          m_pre m ++ repl ++ sub_from rounds' r repl (empty_match m) (m_after m)
      end
  end.

(** [re.sub(r, repl, text)] for a replacement without group references. *)
Definition re_sub (r : regex) (repl text : str) : str :=
  sub_from (iter_bound text) r repl false (Cur None text).

(** Pattern builders. *)
Fixpoint rcat (rs : list regex) : regex :=
  match rs with
  | [] => REps
  | [r] => r
  | r :: rs' => RSeq r (rcat rs')
  end.
Fixpoint ralt (r : regex) (rs : list regex) : regex :=
  match rs with
  | [] => r
  | r' :: rs' => RAlt r (ralt r' rs')
  end.
Definition rdigit : regex := RIn false [CDigit].
Definition rspace : regex := RIn false [CSpace].
Definition rplus (r : regex) : regex := RRep 1 None r.
Definition rstar (r : regex) : regex := RRep 0 None r.
Definition ropt (r : regex) : regex := RRep 0 (Some 1) r.
Definition rtimes (n : nat) (r : regex) : regex := RRep n (Some n) r.

(** ** Python values the program computes with *)

Inductive exn := ValueError | TypeError | OverflowError.

(** A call either returns or raises. *)
Inductive res (A : Type) :=
| Ret (a : A)
| Raise (e : exn).
Arguments Ret {A} a.
Arguments Raise {A} e.

Definition bind {A B} (x : res A) (f : A -> res B) : res B :=
  match x with
  | Ret a => f a
  | Raise e => Raise e
  end.

Declare Scope res_scope.
Delimit Scope res_scope with res.
Notation "x <- e ;; k" := (bind e (fun x => k))
  (at level 100, e at next level, right associativity) : res_scope.


Fixpoint mapM {A B} (f : A -> res B) (l : list A) : res (list B) :=
  match l with
  | [] => Ret []
  | a :: l' =>
      match f a with
      | Ret b =>
          match mapM f l' with
          | Ret bs => Ret (b :: bs)
          | Raise e => Raise e
          end
      | Raise e => Raise e
      end
  end.

(** Value of a string of decimal digits. *)
Definition digits_value (s : str) : Z :=
  fold_left (fun acc c => (10 * acc + decimal_value c)%Z) s 0%Z.

(** [int(s)] on text.  The model covers non-empty strings of decimal
    digits, which is all this program ever converts; any other argument is
    answered with ValueError.  The interpreter's optional cap on the number
    of digits of a conversion is not part of the model. *)
Definition py_int (s : str) : res Z :=
  match s with
  | [] => Raise ValueError
  | _ => if forallb is_decimal s then Ret (digits_value s) else Raise ValueError
  end.

(** [max(l)]: the first of the largest elements; ValueError on an empty list. *)
Definition py_max (l : list Z) : res Z :=
  match l with
  | [] => Raise ValueError
  | x :: l' => Ret (fold_left Z.max l' x)
  end.

(** [datetime.datetime] with second resolution. *)
Record datetime := DateTime {
  year : Z; month : Z; day : Z;
  hour : Z; minute : Z; second : Z
}.

Definition is_leap (y : Z) : bool :=
  ((y mod 4 =? 0) && (negb (y mod 100 =? 0) || (y mod 400 =? 0)))%Z.

Definition days_in_month (y m : Z) : Z :=
  if (m =? 2)%Z then (if is_leap y then 29 else 28)%Z
  else if ((m =? 4) || (m =? 6) || (m =? 9) || (m =? 11))%Z then 30%Z
  else 31%Z.

Definition fits_c_int (z : Z) : bool := ((- 2 ^ 31 <=? z) && (z <? 2 ^ 31))%Z.

(** [datetime(y, m, d, hh, mi, ss)]: OverflowError for an argument that
    does not fit a C int, ValueError for one out of range. *)
Definition datetime_new (y m d hh mi ss : Z) : res datetime :=
  if negb (forallb fits_c_int [y; m; d; hh; mi; ss]) then Raise OverflowError
  else if ((1 <=? y) && (y <=? 9999) && (1 <=? m) && (m <=? 12)
           && (1 <=? d) && (d <=? days_in_month y m)
           && (0 <=? hh) && (hh <=? 23) && (0 <=? mi) && (mi <=? 59)
           && (0 <=? ss) && (ss <=? 59))%Z
  then Ret (DateTime y m d hh mi ss)
  else Raise ValueError.

(** ** The program: OCR text parsing *)

Local Open Scope res_scope.

(** One code point written as a literal. *)
Definition ch (s : string) : char := hd 0%N (U s).

(** [r"\s+"] *)
Definition ws_patt : regex := rplus rspace.

(** [r"[^\d]"] *)
Definition nondigit_patt : regex := RIn true [CDigit].

(** [normalize]: [re.sub(r"\s+", " ", s).strip().lower()] *)
Definition normalize (s : str) : str :=
  str_lower (str_strip (re_sub ws_patt (U " ") s)).

(** The amount pattern,
    [(\d{1,3}(?:[,\s]\d{3})+|\d{4,})(?=\s*(?:원|krw|₩)?\b)] with IGNORECASE:
    the flag only bears on the cased letters k, r and w. *)
Definition amount_patt : regex :=
  RSeq
    (RGroup 1
       (RAlt
          (RSeq (RRep 1 (Some 3) rdigit)
                (rplus (RSeq (RIn false [CChar (ch ","); CSpace]) (rtimes 3 rdigit))))
          (RRep 4 None rdigit)))
    (RLook
       (rcat [rstar rspace;
              ropt (RAlt (RLit (ch "원"))
                         (RAlt (rcat [RLitI (ch "k"); RLitI (ch "r"); RLitI (ch "w")])
                               (RLit (ch "₩"))));
              RWordB])).

(** [int] of [m.group(1)] once [re.sub] has removed every code point that
    is not a digit ([[^\d]]); a group that took no part is
    [None] in Python and [re.sub] raises TypeError on it. *)
Definition amount_of_match (m : rmatch) : res Z :=
  match group m 1 with
  | Some g => py_int (re_sub nondigit_patt [] g)
  | None => Raise TypeError
  end.

Definition nonempty {A} (l : list A) : bool :=
  match l with [] => false | _ => true end.

Definition guess_amount (text : str) : res (option Z) :=
  candidates <- mapM amount_of_match (re_finditer amount_patt text) ;;
  let big := List.filter (fun v => (1000 <=? v)%Z) candidates in
  if nonempty big then
    v <- py_max big ;; Ret (Some v)
  else if nonempty candidates then
    v <- py_max candidates ;; Ret (Some v)
  else Ret None.

(** [[.\-\/]] *)
Definition date_sep : regex := RIn false [CChar (ch "."); CChar (ch "-"); CChar (ch "/")].

(** [(\d{4})[.\-\/](\d{1,2})[.\-\/](\d{1,2})] and
    [(\d{2})[.\-\/](\d{1,2})[.\-\/](\d{1,2})] *)
Definition date_patt (year_digits : nat) : regex :=
  rcat [RGroup 1 (rtimes year_digits rdigit); date_sep;
        RGroup 2 (RRep 1 (Some 2) rdigit); date_sep;
        RGroup 3 (RRep 1 (Some 2) rdigit)].

Definition date_patts : list regex := [date_patt 4; date_patt 2].

(** [(\d{1,2}):(\d{2})(?::(\d{2}))?] *)
Definition time_patt : regex :=
  rcat [RGroup 1 (RRep 1 (Some 2) rdigit); RLit (ch ":");
        RGroup 2 (rtimes 2 rdigit);
        ropt (RSeq (RLit (ch ":")) (RGroup 3 (rtimes 2 rdigit)))].

(** [int(m.group(n))]; [int(None)] raises TypeError. *)
Definition int_group (m : rmatch) (n : nat) : res Z :=
  match group m n with
  | Some g => py_int g
  | None => Raise TypeError
  end.

(** The loop over [date_patts]: the first pattern that matches decides and
    ends the loop.  The result is [yy, mm, dd], [None] when they stay unset. *)
Fixpoint find_date (patts : list regex) (text : str) : res (option (Z * Z * Z)) :=
  match patts with
  | [] => Ret None
  | dp :: patts' =>
      match re_search dp text with
      | Some m =>
          a <- int_group m 1 ;;
          b <- int_group m 2 ;;
          c <- int_group m 3 ;;
          match group m 1 with
          | Some g1 =>
              if Nat.eqb (length g1) 4 then Ret (Some (a, b, c))
              else Ret (Some (2000 + a, b, c)%Z)
          | None => Raise TypeError
          end
      | None => find_date patts' text
      end
  end.

(** The time search: [hh, mi, ss], all 0 when the pattern matches nowhere. *)
Definition find_time (text : str) : res (Z * Z * Z) :=
  match re_search time_patt text with
  | Some m =>
      hh <- int_group m 1 ;;
      mi <- int_group m 2 ;;
      match group m 3 with
      | Some g3 =>
          if nonempty g3 then ss <- py_int g3 ;; Ret (hh, mi, ss)
          else Ret (hh, mi, 0%Z)
      | None => Ret (hh, mi, 0%Z)
      end
  | None => Ret (0, 0, 0)%Z
  end.

(** Truth value of an integer. *)
Definition truthy (z : Z) : bool := negb (z =? 0)%Z.

Definition guess_datetime (text : str) : res (option datetime) :=
  date <- find_date date_patts text ;;
  tm <- find_time text ;;
  match date with
  | Some (yy, mm, dd) =>
      if truthy yy && truthy mm && truthy dd then
        match datetime_new yy mm dd (fst (fst tm)) (snd (fst tm)) (snd tm) with
        | Ret dt => Ret (Some dt)
        | Raise ValueError => Ret None
        | Raise e => Raise e
        end
      else Ret None
  | None => Ret None
  end.

(** ** The program: category classifier *)

(** A compiled pattern of the vendor table, known by the answer of its
    [search] method on a text. *)
Definition compiled := str -> bool.

(** The compiled form of a pattern of the fragment above. *)
Definition re_compile (r : regex) : compiled :=
  fun t => match re_search r t with Some _ => true | None => false end.

(** Rows of [_vendor_patterns]: compiled pattern, category, vendor. *)
Definition vendor_table := list (compiled * str * str).

Definition CATEGORY_RULES : list (str * list str) :=
  List.map (fun r => (U (fst r), List.map U (snd r)))
    [ ("편의점", ["gs25"; "cu"; "세븐일레븐"; "ministop"; "emart24"; "이마트24";
                  "이마트에브리데이"; "emarteveryday"]);
      ("카페", ["스타벅스"; "이디야커피"; "투썸플레이스"; "할리스"; "메가MGC커피";
                "메가커피"; "컴포즈커피"; "빽다방"; "더벤티"; "폴바셋"; "파스쿠찌";
                "드롭탑"; "커피빈"; "공차"; "쥬씨"; "달콤"; "요거프레소"; "더카페";
                "테라로사"; "카페베네"; "커피"]);
      ("식당", ["식당"; "분식"; "치킨"; "피자"; "족발"; "냉면"; "칼국수"; "김밥";
                "국밥"; "한솥"; "버거"; "맥도날드"; "롯데리아"; "버거킹"]);
      ("마트", ["이마트"; "홈플러스"; "롯데마트"; "노브랜드"; "코스트코"; "마트";
                "슈퍼"]);
      ("배달", ["배달의민족"; "쿠팡이츠"; "요기요"; "딜리버리"]);
      ("교통", ["버스"; "지하철"; "택시"; "코레일"; "철도"; "고속"; "교통"; "티머니"]);
      ("의료/약국", ["약국"; "병원"; "의원"; "치과"; "의무"; "메디칼"; "처방"]);
      ("쇼핑", ["무신사"; "쿠팡"; "네이버페이"; "11번가"; "지마켓"; "옥션";
                "마켓컬리"; "ssg"; "위메프"; "티몬"; "롯데온"]);
      ("문화/여가", ["영화"; "CGV"; "메가박스"; "롯데시네마"; "넷플릭스"; "뮤지컬";
                    "공연"; "노래방"])
    ]%string.

(** The sentinel category. *)
Definition ETC : str := U "기타".

(** The loop over the vendor table: the first pattern found in the text
    decides. *)
Fixpoint first_vendor (pats : vendor_table) (t : str) : option str :=
  match pats with
  | [] => None
  | (pat, cat, _) :: pats' => if pat t then Some cat else first_vendor pats' t
  end.

(** The inner loop: one point for each keyword whose lowercase occurs in
    the text. *)
Definition keyword_score (t : str) (kws : list str) : Z :=
  fold_left (fun s kw => if contains (str_lower kw) t then (s + 1)%Z else s) kws 0%Z.

(** [d[k] = v] on a dictionary kept in insertion order. *)
Fixpoint dict_set (k : str) (v : Z) (d : list (str * Z)) : list (str * Z) :=
  match d with
  | [] => [(k, v)]
  | (k', v') :: d' => if str_eqb k' k then (k, v) :: d' else (k', v') :: dict_set k v d'
  end.

(** The outer loop: the dictionary [score]. *)
Definition score_rules (t : str) (rules : list (str * list str)) : list (str * Z) :=
  fold_left
    (fun score rule =>
       let s := keyword_score t (snd rule) in
       if (0 <? s)%Z then dict_set (fst rule) s score else score)
    rules [].

(** [max(best :: l, key=key)]: a later item replaces the current one only
    when its key is strictly larger. *)
Fixpoint max_by {A} (key : A -> Z) (best : A) (l : list A) : A :=
  match l with
  | [] => best
  | x :: l' => max_by key (if (key best <? key x)%Z then x else best) l'
  end.

Definition guess_category (vendor_patterns : vendor_table) (text : str) : str :=
  let t := normalize text in
  match first_vendor vendor_patterns t with
  | Some cat => cat
  | None =>
      match score_rules t CATEGORY_RULES with
      | [] => ETC
      | item :: items => fst (max_by snd item items)
      end
  end.

(** ** The program: drafts, ledger and interaction handlers *)

Record Pending := {
  id : str;
  filename : str;
  category : str;
  amount : option Z;
  when : option datetime;
  ocr_text : str
}.

(** What the program takes from its host: the data directory, the path
    functions of the platform, the OCR engine and the library parser
    [datetime.strptime(_, "%Y-%m-%d %H:%M:%S")], which answers [None] when
    it raises. *)
Class Host := {
  DATA_DIR : str;
  path_join : str -> str -> str;
  os_sep : char;
  os_altsep : option char;
  ocr : list N -> str;
  strptime : str -> option datetime
}.

(** A row of [labels.csv].  Cells are kept as values; [None] stands for the
    empty cell. *)
Record row := {
  row_id : str;
  row_filename : str;
  row_category : str;
  row_amount : option Z;
  row_datetime : option datetime;
  row_ocr_text_path : str
}.

(** The mutable state: the dictionary [PENDING], the rows appended to the
    ledger and the files written. *)
Record world := {
  PENDING : gmap str Pending;
  ledger : list row;
  files : gmap str (list N)
}.

(** A message sent back to the user. *)
Record reply := { r_text : str; r_ephemeral : bool }.

Section Handlers.
Context `{Host}.

Definition UPLOAD_DIR : str := path_join DATA_DIR (U "uploads").

Definition save_row (p : Pending) (w : world) : world :=
  let text_path := path_join DATA_DIR (id p ++ U ".txt") in
  {| PENDING := PENDING w;
     ledger := ledger w ++
       [ {| row_id := id p; row_filename := filename p;
            row_category := category p; row_amount := amount p;
            row_datetime := when p; row_ocr_text_path := text_path |} ];
     files := <[text_path := ocr_text p]> (files w) |}.

Definition set_pending (f : gmap str Pending -> gmap str Pending) (w : world) : world :=
  {| PENDING := f (PENDING w); ledger := ledger w; files := files w |}.

(** The values of the three text inputs of the correction form. *)
Record form := {
  t_category : str;
  t_amount : option str;
  t_dt : option str
}.

Definition MSG_NOT_FOUND : str := U "세션을 찾지 못했습니다. 다시 시도해주세요.".
Definition MSG_EXPIRED : str := U "세션이 만료되었습니다. 다시 시도해주세요.".
Definition MSG_CORRECTED : str := U "✅ 수정값으로 저장했습니다.".
Definition MSG_SAVED : str := U "✅ 저장했습니다.".

Definition or_empty (v : option str) : str :=
  match v with Some s => s | None => [] end.

(** [CorrectionModal.on_submit] for the modal of draft [pid]. *)
Definition on_submit (pid : str) (f : form) (w : world) : res (world * reply) :=
  match PENDING w !! pid with
  | None => Ret (w, {| r_text := MSG_NOT_FOUND; r_ephemeral := true |})
  | Some p =>
      let cat := if nonempty (str_strip (t_category f))
                 then str_strip (t_category f) else ETC in
      let digits := re_sub nondigit_patt [] (or_empty (t_amount f)) in
      amt <- (if nonempty digits then v <- py_int digits ;; Ret (Some v)
              else Ret None) ;;
      let dt := if nonempty (or_empty (t_dt f))
                then str_strip (or_empty (t_dt f)) else [] in
      let parsed :=
        if nonempty dt then
          match strptime dt with
          | Some d => Some d
          | None => when p
          end
        else None in
      let p' := {| id := id p; filename := filename p;
                   category := cat;
                   amount := match amt with Some v => Some v | None => amount p end;
                   when := match parsed with Some d => Some d | None => when p end;
                   ocr_text := ocr_text p |} in
      let w1 := set_pending (fun m => <[pid := p']> m) w in
      let w2 := save_row p' w1 in
      let w3 := set_pending (fun m => delete pid m) w2 in
      Ret (w3, {| r_text := MSG_CORRECTED; r_ephemeral := false |})
  end.

(** [ReviewView.confirm] for the view of draft [pid]. *)
Definition confirm (pid : str) (w : world) : world * reply :=
  match PENDING w !! pid with
  | None => (w, {| r_text := MSG_EXPIRED; r_ephemeral := true |})
  | Some p =>
      let w1 := save_row p w in
      let w2 := set_pending (fun m => delete pid m) w1 in
      (w2, {| r_text := MSG_SAVED; r_ephemeral := false |})
  end.

(** [genericpath._splitext] with the separators of the platform; an
    absent index is -1. *)
Definition index_of (o : option nat) : Z :=
  match o with Some i => Z.of_nat i | None => (-1)%Z end.

Definition splitext (p : str) : str * str :=
  let sepIndex :=
    match os_altsep with
    | Some alt => Z.max (index_of (rfind os_sep p)) (index_of (rfind alt p))
    | None => index_of (rfind os_sep p)
    end in
  let dotIndex := index_of (rfind (ch ".") p) in
  if (sepIndex <? dotIndex)%Z then
    let name := firstn (Z.to_nat (dotIndex - (sepIndex + 1)))
                       (skipn (Z.to_nat (sepIndex + 1)) p) in
    if existsb (fun c => negb (N.eqb c (ch "."))) name
    then (firstn (Z.to_nat dotIndex) p, skipn (Z.to_nat dotIndex) p)
    else (p, [])
  else (p, []).

Record attachment := {
  att_filename : str;
  att_content_type : option str;
  att_data : list N
}.

Definition is_image (att : attachment) : bool :=
  match att_content_type att with
  | Some ct => nonempty ct && startswith (U "image/") ct
  | None => false
  end.

(** The body of the loop of [on_message] for one image attachment; [pid]
    is the fresh [uuid4().hex]. *)
Definition handle_attachment (vendor_patterns : vendor_table) (pid : str)
    (att : attachment) (w : world) : res world :=
  let ext := if nonempty (str_lower (snd (splitext (att_filename att))))
             then str_lower (snd (splitext (att_filename att)))
             else U ".jpg" in
  let fname := pid ++ ext in
  let save_path := path_join UPLOAD_DIR fname in
  let w1 := {| PENDING := PENDING w; ledger := ledger w;
               files := <[save_path := att_data att]> (files w) |} in
  let text := ocr (att_data att) in
  let cat := guess_category vendor_patterns text in
  amt <- guess_amount text ;;
  when_ <- guess_datetime text ;;
  Ret (set_pending
         (fun m => <[pid := {| id := pid; filename := fname; category := cat;
                               amount := amt; when := when_; ocr_text := text |}]> m)
         w1).

Record message := {
  author_bot : bool;
  in_dm : bool;
  attachments : list attachment
}.

(** The loop over the attachments, each image taking the next fresh id. *)
Fixpoint handle_attachments (vendor_patterns : vendor_table) (ids : list str)
    (atts : list attachment) (w : world) : res world :=
  match atts with
  | [] => Ret w
  | att :: atts' =>
      if is_image att then
        match ids with
        | pid :: ids' =>
            w' <- handle_attachment vendor_patterns pid att w ;;
            handle_attachments vendor_patterns ids' atts' w'
        | [] => Ret w
        end
      else handle_attachments vendor_patterns ids atts' w
  end.

(** [on_message]; [seen] is the answer of [seen_before(message.id)] and
    [ids] the ids that [uuid4] hands out. *)
Definition on_message (vendor_patterns : vendor_table) (seen : bool)
    (ids : list str) (msg : message) (w : world) : res world :=
  if author_bot msg then Ret w
  else if negb (in_dm msg) then Ret w
  else if seen then Ret w
  else handle_attachments vendor_patterns ids (attachments msg) w.

End Handlers.

(** ** A concrete host

    POSIX paths and CPython's [strptime], for running the handlers on
    concrete inputs. *)

(** [posixpath.join(a, b)] *)
Definition posix_join (a b : str) : str :=
  if startswith (U "/") b then b
  else if negb (nonempty a) || N.eqb (last a 0%N) (ch "/") then a ++ b
  else a ++ U "/" ++ b.

Definition rrange (lo hi : string) : regex := RIn false [CRange (ch lo) (ch hi)].

(** The pattern that [_strptime] compiles for ["%Y-%m-%d %H:%M:%S"]; the
    groups Y, m, d, H, M, S are numbered 1 to 6. *)
Definition strptime_patt : regex :=
  rcat [RGroup 1 (rcat [rdigit; rdigit; rdigit; rdigit]);
        RLit (ch "-");
        RGroup 2 (ralt (RSeq (RLit (ch "1")) (rrange "0" "2"))
                       [RSeq (RLit (ch "0")) (rrange "1" "9"); rrange "1" "9"]);
        RLit (ch "-");
        RGroup 3 (ralt (RSeq (RLit (ch "3")) (rrange "0" "1"))
                       [RSeq (rrange "1" "2") rdigit;
                        RSeq (RLit (ch "0")) (rrange "1" "9");
                        rrange "1" "9";
                        RSeq (RLit (ch " ")) (rrange "1" "9")]);
        rplus rspace;
        RGroup 4 (ralt (RSeq (RLit (ch "2")) (rrange "0" "3"))
                       [RSeq (rrange "0" "1") rdigit; rdigit]);
        RLit (ch ":");
        RGroup 5 (ralt (RSeq (rrange "0" "5") rdigit) [rdigit]);
        RLit (ch ":");
        RGroup 6 (ralt (RSeq (RLit (ch "6")) (rrange "0" "1"))
                       [RSeq (rrange "0" "5") rdigit; rdigit])].

(** [datetime.strptime(s, "%Y-%m-%d %H:%M:%S")]: the pattern has to match
    at the start and reach the end of [s]; [int] skips the blank that the
    day group may start with; the date and time then have to be valid. *)
Definition strptime_ymd_hms (s : str) : option datetime :=
  match match_at strptime_patt false (Cur None s) with
  | Some (Cur _ [], cs) =>
      let field n := match getcap n cs with
                     | Some g => py_int (lstrip g)
                     | None => Raise TypeError
                     end in
      match (y <- field 1%nat ;; m <- field 2%nat ;; d <- field 3%nat ;;
             hh <- field 4%nat ;; mi <- field 5%nat ;; ss <- field 6%nat ;;
             datetime_new y m d hh mi ss) with
      | Ret d => Some d
      | Raise _ => None
      end
  | _ => None
  end.

Definition posix_host (engine : list N -> str) : Host :=
  {| DATA_DIR := U "./data";
     path_join := posix_join;
     os_sep := ch "/";
     os_altsep := None;
     ocr := engine;
     strptime := strptime_ymd_hms |}.

(** ** The program: vendor file, duplicate filter, OCR and the edit form *)

(** A row of [vendor_map.csv] as [csv.DictReader] yields it when the
    header names the three columns and the row has its three cells. *)
Record vendor_row := {
  vr_vendor : str;
  vr_category : str;
  vr_alias_regex : str
}.

(** The loop that fills [_vendor_patterns]; [compile s] is
    [re.compile(s, re.I)], [None] when it raises. *)
Definition load_vendor_map (compile : str -> option compiled) (rows : list vendor_row)
  : vendor_table :=
  fold_left
    (fun pats row =>
       match compile (vr_alias_regex row) with
       | Some pat => pats ++ [(pat, vr_category row, vr_vendor row)]
       | None => pats
       end)
    rows [].

(** The clock of [seen_before]: the readings of [time.time()] and the test
    [now - t > ttl] between two of them, for the [ttl] of the call. *)
Class Clock := {
  instant : Type;
  expired : instant -> instant -> bool
}.

(** [seen_before(msg_id)] on the dictionary [_recent_seen]: entries that
    have expired are dropped first; the answer and the dictionary
    afterwards. *)
Definition seen_before `{Clock} (now : instant) (msg_id : Z)
    (recent : gmap Z instant) : bool * gmap Z instant :=
  let kept := base.filter (fun kt => expired now (snd kt) = false) recent in
  match kept !! msg_id with
  | Some _ => (true, kept)
  | None => (false, <[msg_id := now]> kept)
  end.

(** A clock counting whole seconds, with the default [ttl] of 10. *)
Definition seconds_clock : Clock :=
  {| instant := Z; expired := fun now t => (10 <? now - t)%Z |}.

(** The function [ocr_text] of the source (the name is taken by the field
    of [Pending]): the engine is asked for Korean with English, then for
    English alone; [image_to_string lang image] is [None] when opening the
    image or recognizing it raises. *)
Definition ocr_text_of (image_to_string : str -> list N -> option str) (image : list N) : str :=
  match image_to_string (U "kor+eng") image with
  | Some text => text
  | None =>
      match image_to_string (U "eng") image with
      | Some text => text
      | None => []
      end
  end.

(** The digits of a decimal numeral as code points. *)
Fixpoint uint_str (d : Decimal.uint) : str :=
  match d with
  | Decimal.Nil => []
  | Decimal.D0 d' => 48%N :: uint_str d'
  | Decimal.D1 d' => 49%N :: uint_str d'
  | Decimal.D2 d' => 50%N :: uint_str d'
  | Decimal.D3 d' => 51%N :: uint_str d'
  | Decimal.D4 d' => 52%N :: uint_str d'
  | Decimal.D5 d' => 53%N :: uint_str d'
  | Decimal.D6 d' => 54%N :: uint_str d'
  | Decimal.D7 d' => 55%N :: uint_str d'
  | Decimal.D8 d' => 56%N :: uint_str d'
  | Decimal.D9 d' => 57%N :: uint_str d'
  end.

(** [f"{v}"] for an integer [v]. *)
Definition format_int (v : Z) : str :=
  match v with
  | Z0 => U "0"
  | Zpos p => uint_str (Pos.to_uint p)
  | Zneg p => ch "-" :: uint_str (Pos.to_uint p)
  end.

(** A number written with at least [width] digits. *)
Definition zero_pad (width : nat) (s : str) : str :=
  repeat (ch "0") (width - length s) ++ s.

(** [d.strftime("%Y-%m-%d %H:%M:%S")], the year written with four digits
    (all platforms agree from the year 1000 on). *)
Definition strftime_ymd_hms (d : datetime) : str :=
  zero_pad 4 (format_int (year d)) ++ U "-"
  ++ zero_pad 2 (format_int (month d)) ++ U "-"
  ++ zero_pad 2 (format_int (day d)) ++ U " "
  ++ zero_pad 2 (format_int (hour d)) ++ U ":"
  ++ zero_pad 2 (format_int (minute d)) ++ U ":"
  ++ zero_pad 2 (format_int (second d)).

(** What a [ReviewView] holds: the arguments of its constructor. *)
Record ReviewView := {
  rv_pid : str;
  rv_cat : str;
  rv_amt : option Z;
  rv_when : option datetime
}.

(** What a [CorrectionModal] holds: the draft id and the three text
    inputs, here with the text they show. *)
Record CorrectionModal := {
  cm_pid : str;
  cm_form : form
}.

(** [ReviewView.edit]: the modal that is sent, its inputs filled with the
    defaults; [strftime d] is [d.strftime("%Y-%m-%d %H:%M:%S")]. *)
Definition edit (strftime : datetime -> str) (v : ReviewView) : CorrectionModal :=
  let default_dt := match rv_when v with Some d => strftime d | None => [] end in
  let default_amt := match rv_amt v with Some a => format_int a | None => [] end in
  {| cm_pid := rv_pid v;
     cm_form := {| t_category := rv_cat v;
                   t_amount := Some default_amt;
                   t_dt := Some default_dt |} |}.


(** ** Notions the specifications are stated with *)

(** What a pattern can match.  [lang r s cs cs'] says that [r] can take the
    text [s] and turn the captures [cs] into [cs']; lookahead and word
    boundary, which depend on what surrounds [s], are taken as possible.
    [rep_lang P n] is [n] rounds of [P] in a row. *)
Section RepLang.
Variable P : str -> caps -> caps -> Prop.
Fixpoint rep_lang (n : nat) (s : str) (cs cs' : caps) : Prop :=
  match n with
  | O => s = [] /\ cs' = cs
  | S n' => exists s1 s2 cs1, s = s1 ++ s2 /\ P s1 cs cs1 /\ rep_lang n' s2 cs1 cs'
  end.
End RepLang.

Fixpoint lang (r : regex) (s : str) (cs cs' : caps) : Prop :=
  match r with
  | REps => s = [] /\ cs' = cs
  | RLit c => s = [c] /\ cs' = cs
  | RLitI c => (exists x, s = [x] /\ tolower x = c) /\ cs' = cs
  | RIn neg items => (exists x, s = [x] /\ cset_mem neg items x = true) /\ cs' = cs
  | RSeq r1 r2 =>
      exists s1 s2 cs1, s = s1 ++ s2 /\ lang r1 s1 cs cs1 /\ lang r2 s2 cs1 cs'
  | RAlt r1 r2 => lang r1 s cs cs' \/ lang r2 s cs cs'
  | RRep lo hi r1 =>
      exists n, lo <= n /\ (match hi with Some h => n <= h | None => True end)
                /\ rep_lang (lang r1) n s cs cs'
  | RGroup n r1 => exists cs1, lang r1 s cs cs1 /\ cs' = setcap n s cs1
  | RLook r1 => s = [] /\ exists s1, lang r1 s1 cs cs'
  | RWordB => s = [] /\ cs' = cs
  end.

(** The code point before the position reached after [pre]. *)
Definition prev_of (prev : option char) (pre : str) : option char :=
  fold_left (fun _ c => Some c) pre prev.

(** What is left of a scan, as a number that every match makes smaller. *)
Definition todo (adv : bool) (cur : cursor) : nat :=
  2 * length (c_rest cur) + (if adv then 0 else 1).

(** A match with more text skipped before it. *)
Definition prepend (p : str) (m : rmatch) : rmatch :=
  Match (p ++ m_pre m) (m_text m) (m_caps m) (m_after m).

(** Every whitespace run replaced by one space, said directly. *)
Fixpoint collapse_from (in_ws : bool) (s : str) : str :=
  match s with
  | [] => []
  | c :: s' =>
      if is_space c then
        if in_ws then collapse_from true s' else U " " ++ collapse_from true s'
      else c :: collapse_from false s'
  end.
Definition collapse_ws (s : str) : str := collapse_from false s.

(** The position after the whitespace a position starts with. *)
Fixpoint span_space (prev : option char) (s : str) : cursor :=
  match s with
  | c :: s' => if is_space c then span_space (Some c) s' else Cur prev s
  | [] => Cur prev []
  end.

(** Separated text: no whitespace at either end, and inside only single
    spaces.  [prev_space] tells whether whitespace came just before. *)
Fixpoint sparse (prev_space : bool) (u : str) : bool :=
  match u with
  | [] => true
  | c :: u' =>
      if is_space c then N.eqb c 32 && negb prev_space && sparse true u'
      else sparse false u'
  end.
Fixpoint separated (prev_space : bool) (u : str) : bool :=
  match u with
  | [] => negb prev_space
  | c :: u' =>
      if is_space c then N.eqb c 32 && negb prev_space && separated true u'
      else separated false u'
  end.
Definition tidy (u : str) : Prop := u = [] \/ separated true u = true.

(** A code point that [str.lower] leaves alone wherever it stands. *)
Definition lower_fixed (c : char) : bool :=
  negb (N.eqb c 0x3a3) && negb (N.eqb c 0x130)
  && match assoc c UCD.lower_pairs with None => true | Some _ => false end.

(** Whitespace stripped from the end only. *)
Definition rstrip (s : str) : str := rev (lstrip (rev s)).

(** The code points that [str.lower] puts for one code point. *)
Definition lower_block (before : str) (c : char) (after : str) : str :=
  if N.eqb c 0x3a3 then [handle_capital_sigma before after] else tolower_full c.

(** Patterns without a capturing group. *)
Fixpoint nogroups (r : regex) : bool :=
  match r with
  | RSeq r1 r2 | RAlt r1 r2 => nogroups r1 && nogroups r2
  | RRep _ _ r1 | RLook r1 => nogroups r1
  | RGroup _ _ => false
  | _ => true
  end.

(** A string of between [lo] and [hi] decimal digits. *)
Definition digits (lo hi : nat) (s : str) : Prop :=
  lo <= length s <= hi /\ forallb is_decimal s = true.

(** A token of the amount pattern: one to three digits followed by one or
    more groups of a comma or whitespace and three digits, or four or more
    digits. *)
Definition amount_group (g : str) : Prop :=
  exists c d, g = c :: d /\ (c = ch "," \/ is_space c = true) /\ digits 3 3 d.
Definition amount_token (tok : str) : Prop :=
  (exists h gs, tok = h ++ concat gs /\ digits 1 3 h /\ gs <> [] /\ Forall amount_group gs)
  \/ (4 <= length tok /\ forallb is_decimal tok = true).

(** The tokens the amount pattern finds, and what each is worth: its
    digits read as a decimal number, separators dropped. *)
Definition amount_tokens (text : str) : list str :=
  List.map m_text (re_finditer amount_patt text).
Definition token_value (tok : str) : Z :=
  digits_value (List.filter is_decimal tok).
Definition amount_candidates (text : str) : list Z :=
  List.map token_value (amount_tokens text).

(** The number a group of a match spells, 0 for a group that took no part. *)
Definition group_value (m : rmatch) (n : nat) : Z :=
  match group m n with
  | Some g => digits_value g
  | None => 0%Z
  end.

(** The date the text shows: from the leftmost match of the four-digit-year
    pattern, else from the leftmost match of the two-digit-year pattern
    with the year counted from 2000. *)
Definition found_date (text : str) : option (Z * Z * Z) :=
  match re_search (date_patt 4) text with
  | Some m => Some (group_value m 1, group_value m 2, group_value m 3)
  | None =>
      match re_search (date_patt 2) text with
      | Some m => Some ((2000 + group_value m 1)%Z, group_value m 2, group_value m 3)
      | None => None
      end
  end.

(** The time the text shows: from the leftmost match of the time pattern,
    midnight when there is none. *)
Definition found_time (text : str) : Z * Z * Z :=
  match re_search time_patt text with
  | Some m => (group_value m 1, group_value m 2, group_value m 3)
  | None => (0, 0, 0)%Z
  end.

(** Dates of the calendar, years 1 to 9999, and times of the day. *)
Definition valid_date (y m d : Z) : bool :=
  ((1 <=? y) && (y <=? 9999) && (1 <=? m) && (m <=? 12)
   && (1 <=? d) && (d <=? days_in_month y m))%Z.
Definition valid_time (hh mi ss : Z) : bool :=
  ((0 <=? hh) && (hh <=? 23) && (0 <=? mi) && (mi <=? 59)
   && (0 <=? ss) && (ss <=? 59))%Z.

(** Date and time put together: a timestamp when both are valid. *)
Definition combine (date : option (Z * Z * Z)) (tm : Z * Z * Z) : option datetime :=
  match date with
  | Some (y, mo, d) =>
      if valid_date y mo d && valid_time (fst (fst tm)) (snd (fst tm)) (snd tm)
      then Some (DateTime y mo d (fst (fst tm)) (snd (fst tm)) (snd tm))
      else None
  | None => None
  end.

(** Number of the keywords of a list that occur, lowercased, in a text. *)
Definition hits (t : str) (kws : list str) : Z :=
  Z.of_nat (length (List.filter (fun kw => contains (str_lower kw) t) kws)).

(** A list of strings without a repeated one. *)
Fixpoint nodupb (l : list str) : bool :=
  match l with
  | [] => true
  | x :: l' => negb (existsb (str_eqb x) l') && nodupb l'
  end.

(** The positive scores, in the order of the rules. *)
Definition positive_scores (t : str) (rules : list (str * list str)) : list (str * Z) :=
  List.filter (fun kv => (0 <? snd kv)%Z)
              (List.map (fun rule => (fst rule, hits t (snd rule))) rules).

(** A literal word as a pattern compiled with IGNORECASE, for words
    without cased letters. *)
Definition word_patt (w : string) : regex := rcat (List.map RLit (U w)).

(** The ledger row that [save_row] writes for a draft. *)
Definition row_of `{Host} (p : Pending) : row :=
  {| row_id := id p; row_filename := filename p; row_category := category p;
     row_amount := amount p; row_datetime := when p;
     row_ocr_text_path := path_join DATA_DIR (id p ++ U ".txt") |}.

(** The name under which an attachment is stored: the draft id followed by
    the lowercased extension of the attachment name, [.jpg] without one. *)
Definition stored_name `{Host} (pid : str) (att : attachment) : str :=
  pid ++ match str_lower (snd (splitext (att_filename att))) with
         | [] => U ".jpg"
         | ext => ext
         end.

(** The replies of the handlers. *)
Definition REPLY_SAVED : reply := {| r_text := MSG_SAVED; r_ephemeral := false |}.
Definition REPLY_CORRECTED : reply := {| r_text := MSG_CORRECTED; r_ephemeral := false |}.
Definition REPLY_EXPIRED : reply := {| r_text := MSG_EXPIRED; r_ephemeral := true |}.
Definition REPLY_NOT_FOUND : reply := {| r_text := MSG_NOT_FOUND; r_ephemeral := true |}.

(** The state at start-up. *)
Definition empty_world : world := {| PENDING := ∅; ledger := []; files := ∅ |}.

(** The draft as [on_submit] corrects it. *)
Definition corrected `{Host} (p : Pending) (f : form) : Pending :=
  let digits := List.filter is_decimal (or_empty (t_amount f)) in
  let dt := str_strip (or_empty (t_dt f)) in
  {| id := id p; filename := filename p;
     category := if nonempty (str_strip (t_category f))
                 then str_strip (t_category f) else ETC;
     amount := match digits with [] => amount p | _ => Some (digits_value digits) end;
     when := match dt with
             | [] => when p
             | _ => match strptime dt with Some d => Some d | None => when p end
             end;
     ocr_text := ocr_text p |}.

(** A host whose OCR engine reads one fixed receipt, a draft id, and a
    state holding one draft. *)
Definition demo_host : Host :=
  posix_host (fun _ => U "스타벅스 아메리카노 4,500원 2025-11-13 14:05").

Definition demo_pid : str := U "3f2b8c1d9e4a4f6b8a7c5d2e1f0a9b8c".
Definition demo_draft : Pending :=
  {| id := demo_pid; filename := demo_pid ++ U ".png"; category := U "카페";
     amount := Some 4500%Z; when := Some (DateTime 2025 11 13 14 5 0);
     ocr_text := U "스타벅스 아메리카노 4,500원 2025-11-13 14:05" |}.
Definition demo_world : world :=
  {| PENDING := {[demo_pid := demo_draft]}; ledger := []; files := ∅ |}.

(** ** Notions the further properties are stated with *)

(** What the bot reacts to: a message (with the answer of [seen_before]
    and the ids [uuid4] hands out), a press of the confirm button of the
    view of a draft, the submission of the correction form of a draft. *)
Inductive event :=
| Message (seen : bool) (ids : list str) (msg : message)
| Confirm (pid : str)
| Submit (pid : str) (f : form).

Definition step `{Host} (vendor_patterns : vendor_table) (e : event) (w : world)
  : res world :=
  match e with
  | Message seen ids msg => on_message vendor_patterns seen ids msg w
  | Confirm pid => Ret (fst (confirm pid w))
  | Submit pid f => bind (on_submit pid f w) (fun r => Ret (fst r))
  end.

Fixpoint run `{Host} (vendor_patterns : vendor_table) (es : list event) (w : world)
  : res world :=
  match es with
  | [] => Ret w
  | e :: es' => bind (step vendor_patterns e w) (run vendor_patterns es')
  end.

(** The ids of the rows of the ledger. *)
Definition ledger_ids (w : world) : list str := List.map row_id (ledger w).

(** [uuid4] never hands out the id of a row already in the ledger: the
    condition on the ids of the messages of a run. *)
Fixpoint unused_ids `{Host} (vendor_patterns : vendor_table) (es : list event)
    (w : world) : Prop :=
  match es with
  | [] => True
  | e :: es' =>
      match e with
      | Message _ ids _ => forall k, In k ids -> ~ In k (ledger_ids w)
      | _ => True
      end
      /\ forall w', step vendor_patterns e w = Ret w' -> unused_ids vendor_patterns es' w'
  end.


(** What holds of every state the bot reaches. *)
Definition consistent `{Host} (w : world) : Prop :=
  (forall k p, PENDING w !! k = Some p -> id p = k)
  /\ NoDup (ledger_ids w)
  /\ (forall k p, PENDING w !! k = Some p -> ~ In k (ledger_ids w))
  /\ (forall r, In r (ledger w) ->
        row_ocr_text_path r = path_join DATA_DIR (row_id r ++ U ".txt")
        /\ is_Some (files w !! row_ocr_text_path r)).

(** An image attachment; a message with it and one other attachment; a
    run: the message arrives, its draft is confirmed, and the button is
    pressed once more. *)
Definition demo_attachment : attachment :=
  {| att_filename := U "receipt.PNG"; att_content_type := Some (U "image/png");
     att_data := [137; 80; 78; 71]%N |}.

Definition demo_message : message :=
  {| author_bot := false; in_dm := true;
     attachments :=
       [ demo_attachment;
         {| att_filename := U "memo.txt"; att_content_type := Some (U "text/plain");
            att_data := [104; 105]%N |} ] |}.

Definition demo_events : list event :=
  [Message false [demo_pid] demo_message; Confirm demo_pid; Confirm demo_pid].

Definition demo_final : world :=
  match @run demo_host [] demo_events empty_world with
  | Ret w => w
  | Raise _ => empty_world
  end.

(** The draft that processing makes of an attachment under an id. *)
Definition draft_of `{Host} (vendor_patterns : vendor_table) (pid : str)
    (att : attachment) (p : Pending) : Prop :=
  id p = pid
  /\ filename p = stored_name pid att
  /\ ocr_text p = ocr (att_data att)
  /\ category p = guess_category vendor_patterns (ocr (att_data att))
  /\ guess_amount (ocr (att_data att)) = Ret (amount p)
  /\ guess_datetime (ocr (att_data att)) = Ret (when p).


(** A host whose OCR engine fails on every image. *)
Definition blind_host : Host := posix_host (ocr_text_of (fun _ _ => None)).

(** Whether the pattern of a row of [vendor_map.csv] compiles and is found
    in a text. *)
Definition row_hits (compile : str -> option compiled) (t : str) (row : vendor_row)
  : bool :=
  match compile (vr_alias_regex row) with
  | Some pat => pat t
  | None => false
  end.

(** Whether a code point is a path separator of the platform. *)
Definition is_sep `{Host} (c : char) : bool :=
  N.eqb c os_sep || match os_altsep with Some alt => N.eqb c alt | None => false end.

(** The view that [on_message] sends for the draft it stores under [pid]. *)
Definition view_of (pid : str) (p : Pending) : ReviewView :=
  {| rv_pid := pid; rv_cat := category p; rv_amt := amount p; rv_when := when p |}.

(** * Proofs *)

(** ** Soundness of the matcher *)

Lemma consumed_app prev prev' s t :
  consumed (Cur prev (s ++ t)) (Cur prev' t) = s.
Proof.
  unfold consumed. simpl. rewrite length_app.
  replace (length s + length t - length t) with (length s) by lia.
  rewrite firstn_app, firstn_all, Nat.sub_diag. simpl. apply app_nil_r.
Qed.

Lemma consumed_rest cur cur' s :
  c_rest cur = s ++ c_rest cur' -> consumed cur cur' = s.
Proof.
  destruct cur as [p r], cur' as [p' r']. simpl. intros ->. apply consumed_app.
Qed.

Lemma step_if_inv p cur k res :
  step_if p cur k = Some res ->
  exists c s', c_rest cur = c :: s' /\ p c = true /\ k (Cur (Some c) s') = Some res.
Proof.
  unfold step_if. destruct (c_rest cur) as [|c s]; [discriminate|].
  destruct (p c) eqn:E; [|discriminate]. intros Hk. exists c, s. auto.
Qed.

Section RepSound.
Variable body : cursor -> caps -> kont -> outcome.
Variable P : str -> caps -> caps -> Prop.
Hypothesis body_sound : forall cur cs k res,
  body cur cs k = Some res ->
  exists s cur' cs', c_rest cur = s ++ c_rest cur' /\ P s cs cs' /\ k cur' cs' = Some res.

Lemma rep_sound k res : forall rounds lo cur cs,
  rep body k rounds lo cur cs = Some res ->
  exists n s cur' cs',
    lo <= n /\ n <= rounds /\ c_rest cur = s ++ c_rest cur'
    /\ rep_lang P n s cs cs' /\ k cur' cs' = Some res.
Proof.
  induction rounds as [|rounds IH]; intros lo cur cs; simpl.
  - destruct (Nat.eqb_spec lo 0) as [->|]; [|discriminate].
    intros Hk. exists 0, [], cur, cs. simpl. repeat split; auto.
  - destruct (body cur cs _) as [x|] eqn:Hb.
    + intros [= ->]. apply body_sound in Hb.
      destruct Hb as (s1 & cur1 & cs1 & Hr1 & HP & Hrec).
      apply IH in Hrec. destruct Hrec as (n & s2 & cur' & cs' & Hlo & Hhi & Hr2 & Hl & Hk).
      exists (S n), (s1 ++ s2), cur', cs'. repeat split; try lia.
      * rewrite Hr1, Hr2. apply app_assoc.
      * simpl. exists s1, s2, cs1. auto.
      * exact Hk.
    + destruct (Nat.eqb_spec lo 0) as [->|]; [|discriminate].
      intros Hk. exists 0, [], cur, cs. simpl. repeat split; auto; lia.
Qed.
End RepSound.

(** Whenever the matcher succeeds, the pattern took a text of its language
    and the continuation accepted the position and captures reached. *)
Lemma mt_sound r : forall cur cs k res,
  mt r cur cs k = Some res ->
  exists s cur' cs',
    c_rest cur = s ++ c_rest cur' /\ lang r s cs cs' /\ k cur' cs' = Some res.
Proof.
  induction r as [|c|c|neg items|r1 IH1 r2 IH2|r1 IH1 r2 IH2|lo hi r1 IH1|n r1 IH1|r1 IH1|];
    intros cur cs k res; simpl.
  - intros Hk. exists [], cur, cs. repeat split; auto.
  - intros Hs. apply step_if_inv in Hs. destruct Hs as (x & s' & Hr & Hp & Hk).
    apply N.eqb_eq in Hp. subst x. exists [c], (Cur (Some c) s'), cs. repeat split; auto.
  - intros Hs. apply step_if_inv in Hs. destruct Hs as (x & s' & Hr & Hp & Hk).
    apply N.eqb_eq in Hp. exists [x], (Cur (Some x) s'), cs. repeat split; auto.
    exists x. auto.
  - intros Hs. apply step_if_inv in Hs. destruct Hs as (x & s' & Hr & Hp & Hk).
    exists [x], (Cur (Some x) s'), cs. repeat split; auto. exists x. auto.
  - intros Hm. apply IH1 in Hm. destruct Hm as (s1 & cur1 & cs1 & Hr1 & Hl1 & Hm).
    apply IH2 in Hm. destruct Hm as (s2 & cur2 & cs2 & Hr2 & Hl2 & Hk).
    exists (s1 ++ s2), cur2, cs2. split; [rewrite Hr1, Hr2; apply app_assoc|].
    split; [|exact Hk]. exists s1, s2, cs1. auto.
  - destruct (mt r1 cur cs k) as [x|] eqn:E1.
    + intros [= ->]. apply IH1 in E1. destruct E1 as (s & cur' & cs' & ? & ? & ?).
      exists s, cur', cs'. auto.
    + intros E2. apply IH2 in E2. destruct E2 as (s & cur' & cs' & ? & ? & ?).
      exists s, cur', cs'. auto.
  - intros Hr. apply (rep_sound (mt r1) (lang r1) IH1) in Hr.
    destruct Hr as (n & s & cur' & cs' & Hlo & Hhi & Hrest & Hl & Hk).
    exists s, cur', cs'. split; [exact Hrest|]. split; [|exact Hk].
    exists n. split; [exact Hlo|]. split; [|exact Hl].
    destruct hi; [exact Hhi|exact I].
  - intros Hm. apply IH1 in Hm. destruct Hm as (s & cur' & cs' & Hr & Hl & Hk).
    exists s, cur', (setcap n s cs'). split; [exact Hr|]. split.
    + exists cs'. auto.
    + rewrite <- (consumed_rest _ _ _ Hr). exact Hk.
  - destruct (mt r1 cur cs _) as [[c1 cs1]|] eqn:E1; [|discriminate].
    intros Hk. apply IH1 in E1. destruct E1 as (s1 & cur1 & cs1' & Hr & Hl & [= -> ->]).
    exists [], cur, cs1. split; [reflexivity|]. split; [|exact Hk].
    split; [reflexivity|]. exists s1. exact Hl.
  - destruct (xorb _ _); [|discriminate]. intros Hk. exists [], cur, cs. repeat split; auto.
Qed.

(** ** Searching and scanning *)

Lemma match_at_inv r adv cur cur' cs :
  match_at r adv cur = Some (cur', cs) ->
  exists s, c_rest cur = s ++ c_rest cur' /\ lang r s [] cs
            /\ consumed cur cur' = s /\ (adv = true -> s <> []).
Proof.
  unfold match_at. intros Hm. apply mt_sound in Hm.
  destruct Hm as (s & cur1 & cs1 & Hr & Hl & Hk).
  destruct (adv && _) eqn:E in Hk; [discriminate|].
  injection Hk as -> ->. exists s. repeat split; auto.
  - apply consumed_rest; exact Hr.
  - intros -> ->. simpl in E. rewrite Hr in E. simpl in E.
    rewrite Nat.eqb_refl in E. discriminate.
Qed.

Lemma search_from_inv r : forall s adv skipped prev m,
  search_from r adv skipped prev s = Some m ->
  exists pre suf,
    s = pre ++ suf /\ m_pre m = rev skipped ++ pre
    /\ match_at r (adv && negb (nonempty pre)) (Cur (prev_of prev pre) suf)
       = Some (m_after m, m_caps m)
    /\ m_text m = consumed (Cur (prev_of prev pre) suf) (m_after m)
    /\ (forall p1 p2, pre = p1 ++ p2 -> p2 <> [] ->
        match_at r (adv && negb (nonempty p1)) (Cur (prev_of prev p1) (p2 ++ suf)) = None).
Proof.
  induction s as [|c s IH]; intros adv skipped prev m; simpl.
  - destruct (match_at r adv (Cur prev [])) as [[cur' cs]|] eqn:E; [|discriminate].
    intros [= <-]. exists [], []. simpl. rewrite andb_true_r, app_nil_r.
    repeat split; auto. intros p1 p2 Hp. destruct p1, p2; try discriminate. congruence.
  - destruct (match_at r adv (Cur prev (c :: s))) as [[cur' cs]|] eqn:E.
    + intros [= <-]. exists [], (c :: s). simpl. rewrite andb_true_r, app_nil_r.
      repeat split; auto. intros p1 p2 Hp. destruct p1, p2; try discriminate. congruence.
    + intros Hs. apply IH in Hs.
      destruct Hs as (pre & suf & -> & Hpre & Hm & Ht & Hleft).
      exists (c :: pre), suf. simpl. rewrite andb_false_r. simpl in Hm, Hpre.
      repeat split; auto.
      * rewrite Hpre, <- app_assoc. reflexivity.
      * intros p1 p2 Hp Hne. destruct p1 as [|c1 p1]; simpl in *.
        -- subst p2. rewrite andb_true_r. exact E.
        -- injection Hp as <- ->. rewrite andb_false_r.
           apply (Hleft p1 p2 eq_refl Hne).
Qed.

(** What [re.search] returns is the leftmost match: the subject splits
    into the skipped text, the matched text and the rest, the pattern
    matches where the skipped text ends and at no earlier position. *)
Lemma re_search_leftmost r text m :
  re_search r text = Some m ->
  text = m_pre m ++ m_text m ++ c_rest (m_after m)
  /\ lang r (m_text m) [] (m_caps m)
  /\ match_at r false (Cur (prev_of None (m_pre m)) (m_text m ++ c_rest (m_after m)))
     = Some (m_after m, m_caps m)
  /\ (forall p1 p2, m_pre m = p1 ++ p2 -> p2 <> [] ->
      match_at r false (Cur (prev_of None p1) (p2 ++ m_text m ++ c_rest (m_after m))) = None).
Proof.
  unfold re_search, search_at. simpl. intros Hs. apply search_from_inv in Hs.
  destruct Hs as (pre & suf & -> & Hpre & Hm & Ht & Hleft). simpl in *. subst pre.
  pose proof Hm as Hm'. apply match_at_inv in Hm'.
  destruct Hm' as (s & Hr & Hl & Hc & _). simpl in Hr.
  rewrite Ht, Hc, <- Hr. repeat split; auto.
Qed.

Lemma search_at_inv r adv cur m :
  search_at r adv cur = Some m ->
  exists pre, c_rest cur = pre ++ m_text m ++ c_rest (m_after m)
    /\ m_pre m = pre
    /\ match_at r (adv && negb (nonempty pre))
         (Cur (prev_of (c_prev cur) pre) (m_text m ++ c_rest (m_after m)))
       = Some (m_after m, m_caps m)
    /\ lang r (m_text m) [] (m_caps m)
    /\ (adv = true -> pre = [] -> m_text m <> []).
Proof.
  unfold search_at. intros Hs. apply search_from_inv in Hs.
  destruct Hs as (pre & suf & Hsplit & Hpre & Hm & Ht & _). simpl in Hpre.
  pose proof Hm as Hm'. apply match_at_inv in Hm'.
  destruct Hm' as (s & Hr & Hl & Hc & Hadv). simpl in Hr.
  exists pre. rewrite Ht, Hc, <- Hr. repeat split; auto.
  intros -> ->. apply Hadv. reflexivity.
Qed.

(** Every match of a scan is a match of the pattern. *)
Lemma finditer_from_Forall r (P : rmatch -> Prop) :
  (forall adv cur m, search_at r adv cur = Some m -> P m) ->
  forall rounds adv cur, Forall P (finditer_from rounds r adv cur).
Proof.
  intros HP. induction rounds as [|n IH]; intros adv cur; simpl; [constructor|].
  destruct (search_at r adv cur) as [m|] eqn:E; [|constructor].
  constructor; [eapply HP; exact E|apply IH].
Qed.

Lemma search_at_progress r adv cur m :
  search_at r adv cur = Some m ->
  todo (empty_match m) (m_after m) < todo adv cur.
Proof.
  intros Hs. apply search_at_inv in Hs.
  destruct Hs as (pre & Hr & _ & _ & _ & Hadv). unfold todo, empty_match.
  rewrite Hr, !length_app.
  destruct (m_text m) as [|c t] eqn:Et; simpl.
  - destruct pre as [|c p]; simpl; [|lia].
    destruct adv; [exfalso; apply Hadv; auto | lia].
  - destruct adv; lia.
Qed.

(** The scans never run out of rounds: any number of rounds above what is
    left to do gives the same result. *)
Lemma finditer_from_rounds r : forall n1 n2 adv cur,
  todo adv cur < n1 -> todo adv cur < n2 ->
  finditer_from n1 r adv cur = finditer_from n2 r adv cur.
Proof.
  induction n1 as [|n1 IH]; intros n2 adv cur H1 H2; [lia|].
  destruct n2 as [|n2]; [lia|]. simpl.
  destruct (search_at r adv cur) as [m|] eqn:E; [|reflexivity].
  apply search_at_progress in E. f_equal. apply IH; lia.
Qed.

Lemma sub_from_rounds r repl : forall n1 n2 adv cur,
  todo adv cur < n1 -> todo adv cur < n2 ->
  sub_from n1 r repl adv cur = sub_from n2 r repl adv cur.
Proof.
  induction n1 as [|n1 IH]; intros n2 adv cur H1 H2; [lia|].
  destruct n2 as [|n2]; [lia|]. simpl.
  destruct (search_at r adv cur) as [m|] eqn:E; [|reflexivity].
  apply search_at_progress in E. do 2 f_equal. apply IH; lia.
Qed.

Lemma iter_bound_todo adv prev s : todo adv (Cur prev s) < iter_bound s.
Proof. unfold todo, iter_bound. simpl. destruct adv; lia. Qed.

Lemma re_finditer_rounds r text n :
  iter_bound text <= n -> finditer_from n r false (Cur None text) = re_finditer r text.
Proof.
  intros Hn. unfold re_finditer. pose proof (iter_bound_todo false None text).
  apply finditer_from_rounds; lia.
Qed.

Lemma re_sub_rounds r repl text n :
  iter_bound text <= n -> sub_from n r repl false (Cur None text) = re_sub r repl text.
Proof.
  intros Hn. unfold re_sub. pose proof (iter_bound_todo false None text).
  apply sub_from_rounds; lia.
Qed.

Lemma search_from_skipped r : forall s adv skipped prev,
  search_from r adv skipped prev s
  = option_map (prepend (rev skipped)) (search_from r adv [] prev s).
Proof.
  induction s as [|c s IH]; intros adv skipped prev; simpl.
  - destruct (match_at _ _ _) as [[cur' cs]|]; simpl; [|reflexivity].
    unfold prepend. simpl. rewrite app_nil_r. reflexivity.
  - destruct (match_at _ _ _) as [[cur' cs]|]; simpl.
    + unfold prepend. simpl. rewrite app_nil_r. reflexivity.
    + rewrite (IH false (c :: skipped)), (IH false [c]).
      destruct (search_from r false [] (Some c) s) as [m|]; simpl; [|reflexivity].
      unfold prepend. simpl. rewrite <- app_assoc. reflexivity.
Qed.

(** Steps of a substitution scan. *)
Lemma sub_from_skip r repl n adv prev c s :
  match_at r adv (Cur prev (c :: s)) = None ->
  sub_from (S n) r repl adv (Cur prev (c :: s))
  = c :: sub_from (S n) r repl false (Cur (Some c) s).
Proof.
  intros Hm. simpl. unfold search_at. simpl. rewrite Hm.
  rewrite search_from_skipped.
  destruct (search_from r false [] (Some c) s) as [m|]; reflexivity.
Qed.

Lemma sub_from_hit r repl n adv cur cur' cs :
  match_at r adv cur = Some (cur', cs) ->
  length (c_rest cur') < length (c_rest cur) ->
  sub_from (S n) r repl adv cur = repl ++ sub_from n r repl false cur'.
Proof.
  intros Hm Hlt. simpl. unfold search_at.
  destruct cur as [prev s]. simpl in *.
  destruct s as [|c s]; simpl; rewrite Hm; simpl.
  - simpl in Hlt. lia.
  - unfold empty_match, consumed. cbn [m_text c_rest].
    destruct (length (c :: s) - length (c_rest cur')) eqn:E; [lia|].
    reflexivity.
Qed.

Lemma sub_from_end r repl n adv prev :
  match_at r adv (Cur prev []) = None ->
  sub_from n r repl adv (Cur prev []) = [].
Proof.
  intros Hm. destruct n; simpl; [reflexivity|]. unfold search_at. simpl.
  rewrite Hm. reflexivity.
Qed.

(** ** Whitespace *)

Lemma U_space : U " " = [32%N].
Proof. reflexivity. Qed.

Lemma span_space_rest : forall s prev, c_rest (span_space prev s) = lstrip s.
Proof.
  induction s as [|c s IH]; intros prev; simpl; [reflexivity|].
  destruct (is_space c); [apply IH|reflexivity].
Qed.

Lemma lstrip_length s : length (lstrip s) <= length s.
Proof.
  induction s as [|c s IH]; simpl; [lia|]. destruct (is_space c); simpl; lia.
Qed.

Lemma rep_space_all : forall s prev rounds,
  length s <= rounds ->
  rep (mt rspace) (fun cur' cs' => Some (cur', cs')) rounds 0 (Cur prev s) []
  = Some (span_space prev s, []).
Proof.
  induction s as [|c s IH]; intros prev rounds Hlen.
  - destruct rounds; reflexivity.
  - destruct rounds as [|rounds]; [simpl in Hlen; lia|].
    simpl. unfold step_if. simpl. unfold cset_mem. simpl.
    rewrite orb_false_r. destruct (is_space c) eqn:Ec.
    + rewrite IH; [reflexivity|simpl in Hlen; lia].
    + reflexivity.
Qed.

Lemma match_at_ws prev s :
  match_at ws_patt false (Cur prev s)
  = match s with
    | c :: s' => if is_space c then Some (span_space (Some c) s', []) else None
    | [] => None
    end.
Proof.
  unfold match_at, ws_patt, rplus. simpl.
  destruct s as [|c s]; [reflexivity|]. simpl.
  unfold step_if. simpl. unfold cset_mem. simpl. rewrite orb_false_r.
  destruct (is_space c); [|reflexivity].
  rewrite rep_space_all; [reflexivity|lia].
Qed.

Lemma collapse_lstrip : forall s, collapse_from true s = collapse_from false (lstrip s).
Proof.
  induction s as [|c s IH]; cbn [collapse_from lstrip]; [reflexivity|].
  destruct (is_space c) eqn:E; [exact IH|]. cbn [collapse_from]. rewrite E. reflexivity.
Qed.

Lemma sub_ws_from : forall n s prev rounds,
  length s <= n -> length s < rounds ->
  sub_from rounds ws_patt (U " ") false (Cur prev s) = collapse_ws s.
Proof.
  induction n as [|n IH]; intros s prev rounds Hn Hr.
  - destruct s; [|simpl in Hn; lia]. apply sub_from_end. apply match_at_ws.
  - destruct s as [|c s]; [apply sub_from_end; apply match_at_ws|].
    destruct rounds as [|rounds]; [lia|]. simpl in Hn, Hr.
    pose proof (match_at_ws prev (c :: s)) as Hm.
    cbn [c_rest] in Hm. destruct (is_space c) eqn:Ec.
    + pose proof (lstrip_length s) as Hl.
      rewrite (sub_from_hit _ _ _ _ _ _ _ Hm).
      2:{ rewrite span_space_rest. simpl. lia. }
      destruct (span_space (Some c) s) as [p r] eqn:Es.
      assert (r = lstrip s) as -> by (rewrite <- (span_space_rest s (Some c)), Es; reflexivity).
      rewrite IH by lia.
      unfold collapse_ws. cbn [collapse_from]. rewrite Ec, collapse_lstrip. reflexivity.
    + rewrite (sub_from_skip _ _ _ _ _ _ _ Hm).
      rewrite IH by lia. unfold collapse_ws. cbn [collapse_from]. rewrite Ec. reflexivity.
Qed.

(** [re.sub(r"\s+", " ", s)] replaces every whitespace run by one space. *)
Lemma re_sub_ws s : re_sub ws_patt (U " ") s = collapse_ws s.
Proof.
  unfold re_sub. apply (sub_ws_from (length s)); unfold iter_bound; lia.
Qed.

(* strip *)

Lemma lstrip_app a b :
  lstrip (a ++ b) = match lstrip a with [] => lstrip b | _ => lstrip a ++ b end.
Proof.
  induction a as [|c a IH]; simpl; [reflexivity|].
  destruct (is_space c); [exact IH|reflexivity].
Qed.

Lemma rstrip_cons c s :
  rstrip (c :: s)
  = match rstrip s with
    | [] => if is_space c then [] else [c]
    | r => c :: r
    end.
Proof.
  unfold rstrip. simpl. rewrite lstrip_app.
  destruct (lstrip (rev s)) as [|d t] eqn:E; simpl.
  - destruct (is_space c); reflexivity.
  - rewrite rev_app_distr. simpl.
    destruct (rev t ++ [d]) eqn:E2; [destruct (rev t); discriminate|reflexivity].
Qed.

Lemma str_strip_rstrip s : str_strip s = rstrip (lstrip s).
Proof. reflexivity. Qed.

Lemma sparse_collapse : forall s b, sparse b (collapse_from b s) = true.
Proof.
  induction s as [|c s IH]; intros b; cbn [collapse_from]; [reflexivity|].
  destruct (is_space c) eqn:Ec.
  - destruct b; [apply IH|]. rewrite U_space. cbn [app sparse].
    change (is_space 32%N) with true. cbn [negb N.eqb Pos.eqb andb]. apply IH.
  - cbn [sparse]. rewrite Ec. apply IH.
Qed.

Lemma sparse_nonspace_head b b' u :
  match u with c :: _ => is_space c = false | [] => True end ->
  sparse b u = sparse b' u.
Proof. destruct u as [|c u]; simpl; [reflexivity|]. intros ->. reflexivity. Qed.

Lemma sparse_true_head u :
  sparse true u = true -> match u with c :: _ => is_space c = false | [] => True end.
Proof.
  destruct u as [|c u]; simpl; [auto|]. destruct (is_space c); [|reflexivity].
  rewrite andb_false_r. discriminate.
Qed.

Lemma lstrip_nonspace_head u :
  match u with c :: _ => is_space c = false | [] => True end -> lstrip u = u.
Proof. destruct u as [|c u]; simpl; [reflexivity|]. intros ->. reflexivity. Qed.

Lemma sparse_lstrip b u : sparse b u = true -> sparse true (lstrip u) = true.
Proof.
  destruct u as [|c u]; simpl; [reflexivity|].
  destruct (is_space c) eqn:Ec.
  - intros H. apply andb_prop in H. destruct H as [_ H].
    rewrite (lstrip_nonspace_head u (sparse_true_head u H)). exact H.
  - simpl. rewrite Ec. auto.
Qed.

Lemma sparse_rstrip : forall u b,
  sparse b u = true -> rstrip u = [] \/ separated b (rstrip u) = true.
Proof.
  induction u as [|c u IH]; intros b; [left; reflexivity|].
  simpl. rewrite rstrip_cons. destruct (is_space c) eqn:Ec.
  - intros H. apply andb_prop in H. destruct H as [H1 H2].
    destruct (IH true H2) as [E|E].
    + rewrite E. left. reflexivity.
    + right. destruct (rstrip u) as [|d r] eqn:Er; [simpl in E; discriminate|].
      cbn [separated]. rewrite Ec, H1. exact E.
  - intros H. right. destruct (IH false H) as [E|E].
    + rewrite E. simpl. rewrite Ec. reflexivity.
    + destruct (rstrip u) as [|d r] eqn:Er.
      * simpl. rewrite Ec. reflexivity.
      * cbn [separated]. rewrite Ec. exact E.
Qed.

(** Collapsing and stripping gives separated text, and leaves separated
    text as it is. *)
Lemma tidy_strip_collapse s : tidy (str_strip (collapse_ws s)).
Proof.
  rewrite str_strip_rstrip. apply sparse_rstrip.
  apply (sparse_lstrip false). apply sparse_collapse.
Qed.

Lemma separated_true_head u :
  separated true u = true -> exists c u', u = c :: u' /\ is_space c = false.
Proof.
  destruct u as [|c u]; simpl; [discriminate|]. destruct (is_space c) eqn:E.
  - rewrite andb_false_r. discriminate.
  - eauto.
Qed.

Lemma collapse_separated : forall u b, separated b u = true -> collapse_from false u = u.
Proof.
  induction u as [|c u IH]; intros b; cbn [collapse_from separated]; [reflexivity|].
  destruct (is_space c) eqn:Ec.
  - intros H. apply andb_prop in H. destruct H as [H1 H2].
    apply andb_prop in H1. destruct H1 as [H1 _]. apply N.eqb_eq in H1. subst c.
    rewrite U_space. cbn [app]. f_equal.
    destruct (separated_true_head u H2) as (d & u' & -> & Ed).
    rewrite collapse_lstrip. cbn [lstrip]. rewrite Ed.
    apply (IH true H2).
  - intros H. f_equal. apply (IH false H).
Qed.

Lemma rstrip_separated : forall u b, separated b u = true -> rstrip u = u.
Proof.
  induction u as [|c u IH]; intros b; [reflexivity|].
  simpl. rewrite rstrip_cons. destruct (is_space c) eqn:Ec.
  - intros H. apply andb_prop in H. destruct H as [_ H2].
    rewrite (IH true H2). destruct u; [simpl in H2; discriminate|reflexivity].
  - intros H. rewrite (IH false H). destruct u; reflexivity.
Qed.

Lemma strip_collapse_tidy u : tidy u -> str_strip (collapse_ws u) = u.
Proof.
  intros [->|H]; [reflexivity|].
  unfold collapse_ws. rewrite (collapse_separated u true H), str_strip_rstrip.
  destruct (separated_true_head u H) as (c & u' & -> & Ec).
  rewrite (lstrip_nonspace_head (c :: u') Ec). apply (rstrip_separated _ true H).
Qed.

(** ** Lowercase and the normalizer *)

Lemma assoc_In c : forall tbl v, assoc c tbl = Some v -> In (c, v) tbl.
Proof.
  induction tbl as [|[k w] tbl IH]; intros v; simpl; [discriminate|].
  destruct (N.eqb_spec k c) as [->|]; [intros [= ->]; auto|].
  intros Hv. right. apply IH. exact Hv.
Qed.

(** Checked on the whole table: no entry maps from or to whitespace, and
    every image is left alone by [str.lower]. *)
Lemma lower_pairs_checked :
  forallb (fun kv => negb (is_space (fst kv)) && negb (is_space (snd kv))
                     && lower_fixed (snd kv)) UCD.lower_pairs = true.
Proof. vm_compute. reflexivity. Qed.

Lemma lower_pairs_entry c v :
  assoc c UCD.lower_pairs = Some v ->
  is_space c = false /\ is_space v = false /\ lower_fixed v = true.
Proof.
  intros Hv. apply assoc_In in Hv.
  pose proof lower_pairs_checked as Hc. rewrite forallb_forall in Hc.
  apply Hc in Hv. simpl in Hv.
  apply andb_prop in Hv. destruct Hv as [Hv H3].
  apply andb_prop in Hv. destruct Hv as [H1 H2].
  apply negb_true_iff in H1, H2. auto.
Qed.

Lemma unmapped_fixed c : assoc c UCD.lower_pairs = None -> lower_fixed c = true.
Proof.
  intros Hn. unfold lower_fixed. rewrite Hn.
  destruct (N.eqb_spec c 0x3a3) as [->|]; [vm_compute in Hn; discriminate|].
  destruct (N.eqb_spec c 0x130) as [->|]; [vm_compute in Hn; discriminate|].
  reflexivity.
Qed.

Lemma lower_from_cons before c s :
  lower_from before (c :: s) = lower_block before c s ++ lower_from (c :: before) s.
Proof. reflexivity. Qed.

Lemma lower_block_props before c after :
  lower_block before c after <> []
  /\ Forall (fun x => lower_fixed x = true /\ is_space x = is_space c)
            (lower_block before c after).
Proof.
  unfold lower_block. destruct (N.eqb_spec c 0x3a3) as [->|Hs].
  - split; [discriminate|]. constructor; [|constructor].
    unfold handle_capital_sigma. destruct (_ && _); split; reflexivity.
  - unfold tolower_full. destruct (N.eqb_spec c 0x130) as [->|Hi].
    + split; [discriminate|]. repeat constructor.
    + split; [discriminate|]. constructor; [|constructor]. unfold tolower.
      destruct (assoc c UCD.lower_pairs) as [v|] eqn:E.
      * destruct (lower_pairs_entry c v E) as (H1 & H2 & H3). rewrite H1, H2. auto.
      * split; [apply unmapped_fixed; exact E|reflexivity].
Qed.

Lemma lower_block_fixed before c after :
  lower_fixed c = true -> lower_block before c after = [c].
Proof.
  unfold lower_fixed, lower_block, tolower_full, tolower. intros H.
  apply andb_prop in H. destruct H as [H H3].
  apply andb_prop in H. destruct H as [H1 H2].
  apply negb_true_iff in H1, H2. rewrite H1, H2.
  destruct (assoc c UCD.lower_pairs); [discriminate|reflexivity].
Qed.

Lemma lower_block_space before c after :
  is_space c = true -> lower_block before c after = [c].
Proof.
  intros Hc. apply lower_block_fixed. unfold lower_fixed.
  destruct (N.eqb_spec c 0x3a3) as [->|]; [vm_compute in Hc; discriminate|].
  destruct (N.eqb_spec c 0x130) as [->|]; [vm_compute in Hc; discriminate|].
  destruct (assoc c UCD.lower_pairs) as [v|] eqn:E; [|reflexivity].
  destruct (lower_pairs_entry c v E) as (H1 & _). congruence.
Qed.

Lemma lower_from_fixed : forall s before,
  Forall (fun x => lower_fixed x = true) (lower_from before s).
Proof.
  induction s as [|c s IH]; intros before; [constructor|].
  rewrite lower_from_cons. apply Forall_app. split; [|apply IH].
  destruct (lower_block_props before c s) as [_ H].
  eapply Forall_impl; [|exact H]. simpl. tauto.
Qed.

Lemma lower_from_id : forall s before,
  Forall (fun x => lower_fixed x = true) s -> lower_from before s = s.
Proof.
  induction s as [|c s IH]; intros before Hs; [reflexivity|].
  inversion Hs as [|? ? Hc Hs']; subst.
  rewrite lower_from_cons, (lower_block_fixed _ _ _ Hc), IH by exact Hs'.
  reflexivity.
Qed.

(** [str.lower] is idempotent and keeps separated text separated. *)
Lemma str_lower_idempotent s : str_lower (str_lower s) = str_lower s.
Proof. unfold str_lower. apply lower_from_id, lower_from_fixed. Qed.

Lemma separated_app_nonspace : forall blk b r,
  blk <> [] -> Forall (fun x => is_space x = false) blk ->
  separated b (blk ++ r) = separated false r.
Proof.
  induction blk as [|x blk IH]; intros b r Hne Hall; [congruence|].
  inversion Hall as [|? ? Hx Hall']; subst. simpl. rewrite Hx.
  destruct blk as [|y blk]; [reflexivity|]. apply IH; [discriminate|exact Hall'].
Qed.

Lemma separated_lower : forall u before b,
  separated b u = true -> separated b (lower_from before u) = true.
Proof.
  induction u as [|c u IH]; intros before b; [auto|].
  rewrite lower_from_cons. cbn [separated]. destruct (is_space c) eqn:Ec.
  - rewrite (lower_block_space _ _ _ Ec). cbn [app separated]. rewrite Ec.
    intros H. apply andb_prop in H. destruct H as [H1 H2].
    rewrite H1. apply IH. exact H2.
  - destruct (lower_block_props before c u) as [Hne Hall].
    rewrite separated_app_nonspace; [apply IH|exact Hne|].
    eapply Forall_impl; [|exact Hall]. simpl. intros x [_ Hx]. congruence.
Qed.

Lemma tidy_lower u : tidy u -> tidy (str_lower u).
Proof.
  intros [->|H]; [left; reflexivity|]. right. apply separated_lower. exact H.
Qed.

(** C6: the normalizer is idempotent.  It replaces every whitespace run by
    one space, strips both ends and lowercases. *)
Theorem normalize_idempotent (s : str) :
  normalize (normalize s) = normalize s
  /\ normalize s = str_lower (str_strip (collapse_ws s)).
Proof.
  assert (Hn : forall t, normalize t = str_lower (str_strip (collapse_ws t))).
  { intros t. unfold normalize. rewrite re_sub_ws. reflexivity. }
  split; [|apply Hn].
  rewrite (Hn (normalize s)), (Hn s).
  rewrite (strip_collapse_tidy _ (tidy_lower _ (tidy_strip_collapse s))).
  apply str_lower_idempotent.
Qed.

(** ** The patterns of the program *)

Lemma rep_lang_inv (P : str -> caps -> caps -> Prop) (Q : str -> Prop) :
  (forall s cs cs', P s cs cs' -> Q s /\ cs' = cs) ->
  forall n s cs cs', rep_lang P n s cs cs' ->
  cs' = cs /\ exists ss, s = concat ss /\ length ss = n /\ Forall Q ss.
Proof.
  intros HP. induction n as [|n IH]; intros s cs cs'; simpl.
  - intros [-> ->]. split; [reflexivity|]. exists []. auto.
  - intros (s1 & s2 & cs1 & -> & H1 & H2).
    apply HP in H1. destruct H1 as [Hq ->].
    apply IH in H2. destruct H2 as (-> & ss & -> & Hlen & Hall).
    split; [reflexivity|]. exists (s1 :: ss). simpl. auto.
Qed.

Lemma lang_nogroups r : nogroups r = true ->
  forall s cs cs', lang r s cs cs' -> cs' = cs.
Proof.
  induction r as [|c|c|neg items|r1 IH1 r2 IH2|r1 IH1 r2 IH2|lo hi r1 IH1|n r1 IH1|r1 IH1|];
    simpl; intros Hg s cs cs'; try tauto; try discriminate.
  - apply andb_prop in Hg. destruct Hg as [H1 H2].
    intros (s1 & s2 & cs1 & _ & L1 & L2).
    apply (IH1 H1) in L1. apply (IH2 H2) in L2. congruence.
  - apply andb_prop in Hg. destruct Hg as [H1 H2].
    intros [L|L]; [apply (IH1 H1) in L|apply (IH2 H2) in L]; exact L.
  - intros (n & _ & _ & L).
    apply (rep_lang_inv _ (fun _ => True)) in L; [tauto|].
    intros s0 cs0 cs0' L0. split; [exact I|]. apply (IH1 Hg) in L0. exact L0.
  - intros (_ & s1 & L). apply (IH1 Hg) in L. exact L.
Qed.

Lemma concat_singletons (p : char -> bool) : forall ss,
  Forall (fun s => exists x, s = [x] /\ p x = true) ss ->
  length (concat ss) = length ss /\ forallb p (concat ss) = true.
Proof.
  induction 1 as [|s ss (x & -> & Hx) _ [IH1 IH2]]; [auto|].
  simpl. rewrite Hx, IH1, IH2. auto.
Qed.

Lemma lang_rep_in lo hi neg items s cs cs' :
  lang (RRep lo hi (RIn neg items)) s cs cs' ->
  cs' = cs /\ lo <= length s
  /\ match hi with Some h => length s <= h | None => True end
  /\ forallb (cset_mem neg items) s = true.
Proof.
  simpl. intros (n & Hlo & Hhi & L).
  apply (rep_lang_inv _ (fun s => exists x, s = [x] /\ cset_mem neg items x = true)) in L.
  2:{ intros s0 cs0 cs0' [H ->]. auto. }
  destruct L as (-> & ss & -> & Hlen & Hall).
  apply concat_singletons in Hall. destruct Hall as [Hl Hp].
  rewrite Hl, Hlen. auto.
Qed.

Lemma cset_digit c : cset_mem false [CDigit] c = is_decimal c.
Proof. unfold cset_mem. simpl. apply orb_false_r. Qed.

Lemma forallb_ext_eq {A} (f g : A -> bool) l :
  (forall x, f x = g x) -> forallb f l = forallb g l.
Proof. intros H. induction l as [|x l IH]; simpl; [auto|]. rewrite H, IH. auto. Qed.

Lemma lang_digits lo hi s cs cs' :
  lang (RRep lo (Some hi) rdigit) s cs cs' -> cs' = cs /\ digits lo hi s.
Proof.
  intros L. apply lang_rep_in in L. destruct L as (-> & H1 & H2 & H3).
  rewrite (forallb_ext_eq _ is_decimal) in H3 by apply cset_digit.
  unfold digits. auto.
Qed.

Lemma lang_digits_open lo s cs cs' :
  lang (RRep lo None rdigit) s cs cs' ->
  cs' = cs /\ lo <= length s /\ forallb is_decimal s = true.
Proof.
  intros L. apply lang_rep_in in L. destruct L as (-> & H1 & _ & H3).
  rewrite (forallb_ext_eq _ is_decimal) in H3 by apply cset_digit. auto.
Qed.

(** The date patterns: three groups of digits. *)
Lemma lang_date_patt n s cs :
  lang (date_patt n) s [] cs ->
  exists g1 g2 g3,
    cs = [(3, g3); (2, g2); (1, g1)]
    /\ digits n n g1 /\ digits 1 2 g2 /\ digits 1 2 g3.
Proof.
  unfold date_patt, rtimes. cbn [rcat lang].
  intros (g1 & s1 & c1 & -> & (c1' & L1 & ->) & s2 & s3 & c2 & -> & [_ ->]
          & g2 & s4 & c3 & -> & (c3' & L2 & ->) & s5 & g3 & c4 & -> & [_ ->]
          & c5 & L3 & ->).
  apply lang_digits in L1, L2, L3. destruct L1 as [-> D1], L2 as [-> D2], L3 as [-> D3].
  exists g1, g2, g3. auto.
Qed.

(** The time pattern: two groups of digits and an optional third. *)
Lemma lang_time_patt s cs :
  lang time_patt s [] cs ->
  exists g1 g2,
    digits 1 2 g1 /\ digits 2 2 g2
    /\ (cs = [(2, g2); (1, g1)]
        \/ exists g3, cs = [(3, g3); (2, g2); (1, g1)] /\ digits 2 2 g3).
Proof.
  unfold time_patt, rtimes, ropt. cbn [rcat lang].
  intros (g1 & s1 & c1 & -> & (c1' & L1 & ->) & s2 & s3 & c2 & -> & [_ ->]
          & g2 & s4 & c3 & -> & (c3' & L2 & ->) & n & _ & Hn & L3).
  apply lang_digits in L1, L2. destruct L1 as [-> D1], L2 as [-> D2].
  exists g1, g2. split; [exact D1|]. split; [exact D2|].
  destruct n as [|[|n]]; [| |lia]; cbn [rep_lang lang] in L3.
  - destruct L3 as [_ ->]. left. reflexivity.
  - destruct L3 as (s5 & s6 & c4 & _ & (s7 & g3 & c5 & _ & [_ ->] & c6 & L4 & ->) & _ & ->).
    apply lang_digits in L4. destruct L4 as [-> D3].
    right. exists g3. auto.
Qed.

Lemma lang_amount_patt s cs :
  lang amount_patt s [] cs -> cs = [(1, s)] /\ amount_token s.
Proof.
  unfold amount_patt. cbn [lang].
  intros (tok & s1 & c1 & -> & (c0 & L1 & ->) & -> & s2 & L2).
  apply lang_nogroups in L2; [|reflexivity]. subst cs.
  rewrite app_nil_r. destruct L1 as [L1|L1].
  - destruct L1 as (h & t & c2 & -> & Lh & Lt).
    apply (lang_digits 1 3) in Lh. destruct Lh as [-> Dh].
    destruct Lt as (n & Hn & _ & Lt).
    apply (rep_lang_inv _ amount_group) in Lt.
    2:{ intros s0 cs0 cs0' (a & d & c3 & -> & [(x & -> & Hx) ->] & Ld).
        apply (lang_digits 3 3) in Ld. destruct Ld as [-> Dd]. split; [|reflexivity].
        exists x, d. split; [reflexivity|]. split; [|exact Dd].
        unfold cset_mem in Hx. cbn [existsb item_mem xorb] in Hx.
        rewrite orb_false_r in Hx.
        apply orb_prop in Hx. destruct Hx as [Hx|Hx]; [left|right; exact Hx].
        apply N.eqb_eq in Hx. auto. }
    destruct Lt as (-> & gs & -> & Hlen & Hall).
    split; [reflexivity|]. left. exists h, gs. repeat split; auto.
    + destruct Dh; lia.
    + destruct Dh; lia.
    + destruct Dh; auto.
    + intros ->. simpl in Hlen. lia.
  - apply (lang_digits_open 4) in L1. destruct L1 as (-> & Hlen & Hd).
    split; [reflexivity|]. right. auto.
Qed.

(** ** The amount extractor *)

Lemma match_at_nondigit prev s :
  match_at nondigit_patt false (Cur prev s)
  = match s with
    | c :: s' => if is_decimal c then None else Some (Cur (Some c) s', [])
    | [] => None
    end.
Proof.
  unfold match_at, nondigit_patt. cbn [mt]. unfold step_if. cbn [c_rest].
  destruct s as [|c s]; [reflexivity|].
  unfold cset_mem. cbn [existsb item_mem]. rewrite orb_false_r.
  destruct (is_decimal c); reflexivity.
Qed.

Lemma sub_nondigit_from : forall s prev rounds,
  length s < rounds ->
  sub_from rounds nondigit_patt [] false (Cur prev s) = List.filter is_decimal s.
Proof.
  induction s as [|c s IH]; intros prev rounds Hr.
  - apply sub_from_end. apply match_at_nondigit.
  - destruct rounds as [|rounds]; [lia|]. simpl in Hr.
    pose proof (match_at_nondigit prev (c :: s)) as Hm. cbv iota in Hm. cbn [List.filter].
    destruct (is_decimal c) eqn:Ec.
    + rewrite (sub_from_skip _ _ _ _ _ _ _ Hm). rewrite IH by lia. reflexivity.
    + rewrite (sub_from_hit _ _ _ _ _ _ _ Hm) by (simpl; lia).
      rewrite IH by lia. reflexivity.
Qed.

(** Substituting nothing for [[^\d]] keeps the decimal digits of [s]. *)
Lemma re_sub_nondigit s : re_sub nondigit_patt [] s = List.filter is_decimal s.
Proof. unfold re_sub. apply sub_nondigit_from. unfold iter_bound. lia. Qed.

Lemma py_int_digits s :
  s <> [] -> forallb is_decimal s = true -> py_int s = Ret (digits_value s).
Proof.
  intros Hne Hd. unfold py_int. destruct s; [congruence|]. rewrite Hd. reflexivity.
Qed.

Lemma filter_all {A} (p : A -> bool) l : forallb p l = true -> List.filter p l = l.
Proof.
  induction l as [|x l IH]; simpl; [auto|]. intros H.
  apply andb_prop in H. destruct H as [-> H]. rewrite IH; auto.
Qed.

Lemma forallb_filter {A} (p : A -> bool) l : forallb p (List.filter p l) = true.
Proof.
  induction l as [|x l IH]; simpl; [auto|]. destruct (p x) eqn:E; simpl; [rewrite E|]; auto.
Qed.

Lemma amount_token_has_digit tok :
  amount_token tok -> List.filter is_decimal tok <> [].
Proof.
  intros [(h & gs & -> & [Hlen Hd] & _)|[Hlen Hd]].
  - rewrite filter_app, (filter_all _ _ Hd). destruct h; [simpl in Hlen; lia|discriminate].
  - rewrite (filter_all _ _ Hd). destruct tok; [simpl in Hlen; lia|discriminate].
Qed.

Lemma py_int_token tok :
  amount_token tok -> py_int (re_sub nondigit_patt [] tok) = Ret (token_value tok).
Proof.
  intros Ht. rewrite re_sub_nondigit. apply py_int_digits.
  - apply amount_token_has_digit. exact Ht.
  - apply forallb_filter.
Qed.

(** Each match of the amount scan has a well-formed token as its group 1. *)
Lemma amount_match_ok adv cur m :
  search_at amount_patt adv cur = Some m ->
  group m 1 = Some (m_text m) /\ amount_token (m_text m).
Proof.
  intros Hs. apply search_at_inv in Hs.
  destruct Hs as (pre & _ & _ & _ & Hl & _).
  apply lang_amount_patt in Hl. destruct Hl as [Hc Ht].
  split; [|exact Ht]. unfold group. rewrite Hc. reflexivity.
Qed.


Lemma mapM_Ret {A B} (f : A -> res B) (g : A -> B) l :
  Forall (fun a => f a = Ret (g a)) l -> mapM f l = Ret (List.map g l).
Proof.
  induction 1 as [|a l Ha _ IH]; simpl; [reflexivity|]. rewrite Ha, IH. reflexivity.
Qed.

(** The loop over the matches never raises and collects the token values. *)
Lemma amount_candidates_ok text :
  mapM amount_of_match (re_finditer amount_patt text) = Ret (amount_candidates text).
Proof.
  unfold amount_candidates, amount_tokens. rewrite List.map_map.
  apply mapM_Ret. unfold re_finditer. apply finditer_from_Forall.
  intros adv cur m Hs. destruct (amount_match_ok _ _ _ Hs) as [Hg Ht].
  unfold amount_of_match. rewrite Hg. apply py_int_token. exact Ht.
Qed.

Lemma fold_max_spec : forall l x,
  In (fold_left Z.max l x) (x :: l)
  /\ forall w, In w (x :: l) -> (w <= fold_left Z.max l x)%Z.
Proof.
  induction l as [|y l IH]; intros x; simpl.
  - split; [auto|]. intros w [->|[]]. lia.
  - destruct (IH (Z.max x y)) as [Hin Hub]. split.
    + destruct Hin as [Hin|Hin]; [|auto].
      rewrite <- Hin. destruct (Z.max_spec x y) as [[_ ->]|[_ ->]]; auto.
    + intros w Hw. assert (Hxy : (Z.max x y <= fold_left Z.max l (Z.max x y))%Z)
        by (apply Hub; left; reflexivity).
      destruct Hw as [->|[->|Hw]]; [lia|lia|]. apply Hub. right. exact Hw.
Qed.

Lemma py_max_unique l v :
  In v l -> (forall w, In w l -> (w <= v)%Z) -> py_max l = Ret v.
Proof.
  destruct l as [|x l]; [intros []|]. intros Hin Hub. unfold py_max. f_equal.
  destruct (fold_max_spec l x) as [Hin' Hub'].
  apply Z.le_antisymm; [apply Hub; exact Hin'|apply Hub'; exact Hin].
Qed.

Lemma guess_amount_unfold text :
  guess_amount text =
  let candidates := amount_candidates text in
  let big := List.filter (fun v => (1000 <=? v)%Z) candidates in
  if nonempty big then bind (py_max big) (fun v => Ret (Some v))
  else if nonempty candidates then bind (py_max candidates) (fun v => Ret (Some v))
  else Ret None.
Proof.
  unfold guess_amount. rewrite amount_candidates_ok. reflexivity.
Qed.



(** ** The date and time extractor *)

Lemma decimal_value_range c : (0 <= decimal_value c <= 9)%Z.
Proof.
  unfold decimal_value. destruct (find _ _) as [r|]; [|lia].
  assert (H : ((c - fst r) mod 10 < 10)%N) by (apply N.mod_upper_bound; discriminate).
  revert H. generalize ((c - fst r) mod 10)%N. intros n H. lia.
Qed.

Lemma digits_value_from : forall s acc,
  (0 <= acc)%Z ->
  (0 <= fold_left (fun a c => 10 * a + decimal_value c) s acc
   < (acc + 1) * 10 ^ Z.of_nat (length s))%Z.
Proof.
  induction s as [|c s IH]; intros acc Hacc.
  - simpl. lia.
  - cbn [fold_left length]. pose proof (decimal_value_range c) as Hc.
    specialize (IH (10 * acc + decimal_value c)%Z ltac:(lia)).
    rewrite Nat2Z.inj_succ, Z.pow_succ_r by lia.
    destruct IH as [IH1 IH2]. split; [exact IH1|].
    eapply Z.lt_le_trans; [exact IH2|].
    assert (0 < 10 ^ Z.of_nat (length s))%Z by (apply Z.pow_pos_nonneg; lia).
    nia.
Qed.

Lemma digits_value_bound s :
  (0 <= digits_value s < 10 ^ Z.of_nat (length s))%Z.
Proof.
  unfold digits_value. pose proof (digits_value_from s 0%Z ltac:(lia)) as H.
  simpl in H. lia.
Qed.

Lemma digits_nonempty lo hi s : 1 <= lo -> digits lo hi s -> s <> [].
Proof. intros Hlo [[H _] _] ->. simpl in H. lia. Qed.

Lemma py_int_of_digits lo hi s :
  1 <= lo -> digits lo hi s -> py_int s = Ret (digits_value s).
Proof.
  intros Hlo Hd. apply py_int_digits; [apply (digits_nonempty lo hi); auto|].
  destruct Hd as [_ Hd]. exact Hd.
Qed.

Lemma digits_value_le lo hi s :
  digits lo hi s -> (0 <= digits_value s < 10 ^ Z.of_nat hi)%Z.
Proof.
  intros [[_ Hlen] _]. pose proof (digits_value_bound s) as [H1 H2].
  split; [exact H1|]. eapply Z.lt_le_trans; [exact H2|].
  apply Z.pow_le_mono_r; lia.
Qed.

(** What a match of a date pattern holds. *)
Lemma date_match n text m :
  1 <= n -> re_search (date_patt n) text = Some m ->
  exists g1 g2 g3,
    group m 1 = Some g1 /\ group m 2 = Some g2 /\ group m 3 = Some g3
    /\ digits n n g1 /\ digits 1 2 g2 /\ digits 1 2 g3.
Proof.
  intros Hn Hs. apply re_search_leftmost in Hs. destruct Hs as (_ & Hl & _).
  apply lang_date_patt in Hl. destruct Hl as (g1 & g2 & g3 & Hc & D1 & D2 & D3).
  exists g1, g2, g3. unfold group. rewrite Hc.
  split; [reflexivity|]. split; [reflexivity|]. split; [reflexivity|]. auto.
Qed.

Lemma time_match text m :
  re_search time_patt text = Some m ->
  exists g1 g2,
    group m 1 = Some g1 /\ group m 2 = Some g2 /\ digits 1 2 g1 /\ digits 2 2 g2
    /\ (group m 3 = None \/ exists g3, group m 3 = Some g3 /\ digits 2 2 g3).
Proof.
  intros Hs. apply re_search_leftmost in Hs. destruct Hs as (_ & Hl & _).
  apply lang_time_patt in Hl. destruct Hl as (g1 & g2 & D1 & D2 & [Hc|(g3 & Hc & D3)]);
    exists g1, g2; unfold group; rewrite Hc;
    (split; [reflexivity|]); (split; [reflexivity|]);
    (split; [exact D1|]); (split; [exact D2|]).
  - left. reflexivity.
  - right. exists g3. auto.
Qed.

Lemma find_date_one n text m :
  (n = 4 \/ n = 2) -> re_search (date_patt n) text = Some m ->
  forall rest,
  find_date (date_patt n :: rest) text
  = Ret (Some ((if Nat.eqb n 4 then 0 else 2000) + group_value m 1,
               group_value m 2, group_value m 3)%Z).
Proof.
  intros Hn Hs rest. cbn [find_date]. rewrite Hs.
  assert (Hn0 : 1 <= n) by (destruct Hn; lia).
  destruct (date_match n text m Hn0 Hs) as (g1 & g2 & g3 & H1 & H2 & H3 & D1 & D2 & D3).
  unfold int_group, group_value. rewrite H1, H2, H3.
  assert (Hn1 : 1 <= n) by (destruct Hn; lia).
  rewrite (py_int_of_digits n n g1 Hn1 D1),
    (py_int_of_digits 1 2 g2 ltac:(lia) D2), (py_int_of_digits 1 2 g3 ltac:(lia) D3).
  cbn [bind]. destruct D1 as [[Da Db] _].
  assert (length g1 = n) as -> by lia.
  destruct Hn as [-> | ->]; reflexivity.
Qed.

Lemma find_date_skip dp rest text :
  re_search dp text = None -> find_date (dp :: rest) text = find_date rest text.
Proof. intros E. cbn [find_date]. rewrite E. reflexivity. Qed.

(** The two searches of the program return what the text shows. *)
Lemma find_date_ok text : find_date date_patts text = Ret (found_date text).
Proof.
  unfold date_patts, found_date.
  destruct (re_search (date_patt 4) text) as [m|] eqn:E4.
  - rewrite (find_date_one 4 text m (or_introl eq_refl) E4). reflexivity.
  - rewrite (find_date_skip _ _ _ E4).
    destruct (re_search (date_patt 2) text) as [m|] eqn:E2.
    + rewrite (find_date_one 2 text m (or_intror eq_refl) E2). reflexivity.
    + rewrite (find_date_skip _ _ _ E2). reflexivity.
Qed.

Lemma find_time_ok text : find_time text = Ret (found_time text).
Proof.
  unfold find_time, found_time.
  destruct (re_search time_patt text) as [m|] eqn:E; [|reflexivity].
  destruct (time_match text m E) as (g1 & g2 & H1 & H2 & D1 & D2 & H3).
  unfold int_group, group_value. rewrite H1, H2.
  rewrite (py_int_of_digits 1 2 g1 ltac:(lia) D1), (py_int_of_digits 2 2 g2 ltac:(lia) D2).
  cbn [bind]. destruct H3 as [H3|(g3 & H3 & D3)]; rewrite H3; [reflexivity|].
  pose proof (digits_nonempty 2 2 g3 ltac:(lia) D3) as Hne.
  destruct g3 as [|c g3]; [congruence|]. cbn [nonempty].
  rewrite (py_int_of_digits 2 2 (c :: g3) ltac:(lia) D3). reflexivity.
Qed.

Lemma found_date_range text y mo d :
  found_date text = Some (y, mo, d) ->
  (0 <= y < 10000 /\ 0 <= mo < 100 /\ 0 <= d < 100)%Z.
Proof.
  unfold found_date.
  destruct (re_search (date_patt 4) text) as [m|] eqn:E4.
  - destruct (date_match 4 text m ltac:(lia) E4) as (g1 & g2 & g3 & H1 & H2 & H3 & D1 & D2 & D3).
    unfold group_value. rewrite H1, H2, H3. intros [= <- <- <-].
    pose proof (digits_value_le _ _ _ D1). pose proof (digits_value_le _ _ _ D2).
    pose proof (digits_value_le _ _ _ D3). cbn in *. lia.
  - destruct (re_search (date_patt 2) text) as [m|] eqn:E2; [|discriminate].
    destruct (date_match 2 text m ltac:(lia) E2) as (g1 & g2 & g3 & H1 & H2 & H3 & D1 & D2 & D3).
    unfold group_value. rewrite H1, H2, H3. intros [= <- <- <-].
    pose proof (digits_value_le _ _ _ D1). pose proof (digits_value_le _ _ _ D2).
    pose proof (digits_value_le _ _ _ D3). cbn in *. lia.
Qed.

Lemma found_time_range text hh mi ss :
  found_time text = (hh, mi, ss) ->
  (0 <= hh < 100 /\ 0 <= mi < 100 /\ 0 <= ss < 100)%Z.
Proof.
  unfold found_time.
  destruct (re_search time_patt text) as [m|] eqn:E; [|intros [= <- <- <-]; lia].
  destruct (time_match text m E) as (g1 & g2 & H1 & H2 & D1 & D2 & H3).
  unfold group_value. rewrite H1, H2.
  pose proof (digits_value_le _ _ _ D1). pose proof (digits_value_le _ _ _ D2).
  destruct H3 as [H3|(g3 & H3 & D3)]; rewrite H3; intros [= <- <- <-].
  - cbn in *. lia.
  - pose proof (digits_value_le _ _ _ D3). cbn in *. lia.
Qed.

(** With arguments of at most four digits the constructor cannot overflow:
    it returns on valid arguments and raises ValueError otherwise. *)
Lemma datetime_new_small y mo d hh mi ss :
  (0 <= y < 10000 /\ 0 <= mo < 100 /\ 0 <= d < 100)%Z ->
  (0 <= hh < 100 /\ 0 <= mi < 100 /\ 0 <= ss < 100)%Z ->
  datetime_new y mo d hh mi ss
  = if valid_date y mo d && valid_time hh mi ss
    then Ret (DateTime y mo d hh mi ss) else Raise ValueError.
Proof.
  intros Hd Ht. unfold datetime_new.
  assert (Hfit : forall z, (0 <= z < 10000)%Z -> fits_c_int z = true).
  { intros z Hz. unfold fits_c_int. apply andb_true_intro. split.
    - apply Z.leb_le. lia.
    - apply Z.ltb_lt. change (2 ^ 31)%Z with 2147483648%Z. lia. }
  cbn [forallb]. rewrite !Hfit by lia. cbn [andb negb].
  unfold valid_date, valid_time. rewrite <- !andb_assoc. reflexivity.
Qed.

Lemma valid_date_truthy y mo d :
  valid_date y mo d = true -> truthy y && truthy mo && truthy d = true.
Proof.
  unfold valid_date, truthy. intros H.
  repeat (apply andb_prop in H; destruct H as [H ?]).
  repeat match goal with
         | H : (_ <=? _)%Z = true |- _ => apply Z.leb_le in H
         end.
  rewrite !andb_true_iff, !negb_true_iff, !Z.eqb_neq. lia.
Qed.

(** The extractor returns, and what it returns is the date and the time
    found, put together. *)
Lemma guess_datetime_combine text :
  guess_datetime text = Ret (combine (found_date text) (found_time text)).
Proof.
  unfold guess_datetime. rewrite find_date_ok, find_time_ok. cbn [bind].
  unfold combine. destruct (found_date text) as [[[y mo] d]|] eqn:Ed; [|reflexivity].
  destruct (found_time text) as [[hh mi] ss] eqn:Et. cbn [fst snd].
  rewrite (datetime_new_small _ _ _ _ _ _ (found_date_range _ _ _ _ Ed)
             (found_time_range _ _ _ _ Et)).
  destruct (valid_date y mo d) eqn:Ev.
  - rewrite (valid_date_truthy _ _ _ Ev). cbn [andb].
    destruct (valid_time hh mi ss); reflexivity.
  - cbn [andb]. destruct (truthy y && truthy mo && truthy d); reflexivity.
Qed.

(** ** The category classifier *)

Lemma str_eqb_eq a b : str_eqb a b = true <-> a = b.
Proof. unfold str_eqb. destruct (list_eq_dec N.eq_dec a b); split; auto; discriminate. Qed.

Lemma nodupb_sound l : nodupb l = true -> NoDup l.
Proof.
  induction l as [|x l IH]; simpl; [constructor|]. intros H.
  apply andb_prop in H. destruct H as [H1 H2]. constructor; [|apply IH; exact H2].
  intros Hin. apply negb_true_iff in H1.
  assert (existsb (str_eqb x) l = true); [|congruence].
  apply existsb_exists. exists x. split; [exact Hin|apply str_eqb_eq; reflexivity].
Qed.

Lemma keyword_score_from t : forall kws acc,
  fold_left (fun s kw => if contains (str_lower kw) t then (s + 1)%Z else s) kws acc
  = (acc + hits t kws)%Z.
Proof.
  unfold hits. induction kws as [|kw kws IH]; intros acc; cbn [fold_left List.filter].
  - simpl. lia.
  - rewrite IH. destruct (contains (str_lower kw) t); cbn [length]; lia.
Qed.

Lemma keyword_score_hits t kws : keyword_score t kws = hits t kws.
Proof. unfold keyword_score. rewrite keyword_score_from. lia. Qed.

Lemma hits_nonneg t kws : (0 <= hits t kws)%Z.
Proof. unfold hits. lia. Qed.

Lemma dict_set_fresh k v : forall d,
  ~ In k (List.map fst d) -> dict_set k v d = d ++ [(k, v)].
Proof.
  induction d as [|[k' v'] d IH]; intros Hk; simpl; [reflexivity|].
  destruct (str_eqb k' k) eqn:E.
  - apply str_eqb_eq in E. subst. exfalso. apply Hk. left. reflexivity.
  - rewrite IH; [reflexivity|]. intros Hin. apply Hk. right. exact Hin.
Qed.

Lemma positive_scores_keys t rules k :
  In k (List.map fst (positive_scores t rules)) -> In k (List.map fst rules).
Proof.
  unfold positive_scores. rewrite !in_map_iff. intros ([k' v] & <- & Hin).
  apply filter_In in Hin. destruct Hin as [Hin _].
  apply in_map_iff in Hin. destruct Hin as (r & [= <- <-] & Hr). exists r. auto.
Qed.

Lemma score_rules_from t : forall rules acc,
  NoDup (List.map fst rules) ->
  (forall k, In k (List.map fst acc) -> ~ In k (List.map fst rules)) ->
  fold_left
    (fun score rule =>
       let s := keyword_score t (snd rule) in
       if (0 <? s)%Z then dict_set (fst rule) s score else score)
    rules acc
  = acc ++ positive_scores t rules.
Proof.
  induction rules as [|[cat kws] rules IH]; intros acc Hnd Hdisj.
  - simpl. rewrite app_nil_r. reflexivity.
  - cbn [fold_left fst snd]. inversion Hnd as [|? ? Hcat Hnd']; subst.
    unfold positive_scores. cbn [List.map List.filter fst snd].
    rewrite keyword_score_hits. destruct (0 <? hits t kws)%Z eqn:E.
    + rewrite dict_set_fresh.
      2:{ intros Hin. apply (Hdisj _ Hin). left. reflexivity. }
      rewrite IH; [rewrite <- app_assoc; reflexivity|exact Hnd'|].
      intros k Hin. rewrite List.map_app in Hin. apply in_app_or in Hin.
      destruct Hin as [Hin|[<-|[]]]; [|exact Hcat].
      intros Hk. apply (Hdisj _ Hin). right. exact Hk.
    + apply IH; [exact Hnd'|]. intros k Hin Hk. apply (Hdisj _ Hin). right. exact Hk.
Qed.

(** With distinct category names, the dictionary [score] lists the positive
    scores in the order of the rules. *)
Lemma score_rules_positive t rules :
  NoDup (List.map fst rules) -> score_rules t rules = positive_scores t rules.
Proof.
  intros Hnd. unfold score_rules. rewrite score_rules_from; [reflexivity|exact Hnd|].
  intros k [].
Qed.

Lemma max_by_keeps {A} (key : A -> Z) : forall l best,
  (forall x, In x l -> (key x <= key best)%Z) -> max_by key best l = best.
Proof.
  induction l as [|x l IH]; intros best Hub; [reflexivity|]. cbn [max_by].
  assert (Hx : (key x <= key best)%Z) by (apply Hub; left; reflexivity).
  destruct (Z.ltb_spec (key best) (key x)); [lia|].
  apply IH. intros y Hy. apply Hub. right. exact Hy.
Qed.

Lemma max_by_first {A} (key : A -> Z) : forall pre best top post,
  (key best < key top)%Z ->
  (forall x, In x pre -> (key x < key top)%Z) ->
  (forall x, In x post -> (key x <= key top)%Z) ->
  max_by key best (pre ++ top :: post) = top.
Proof.
  induction pre as [|x pre IH]; intros best top post Hb Hpre Hpost.
  - cbn [app max_by]. destruct (Z.ltb_spec (key best) (key top)); [|lia].
    apply max_by_keeps. exact Hpost.
  - cbn [app max_by]. apply IH; [|intros y Hy; apply Hpre; right; exact Hy|exact Hpost].
    destruct (key best <? key x)%Z; [apply Hpre; left; reflexivity|exact Hb].
Qed.

(** [max] with a key returns the first of the items with the largest key. *)
Lemma max_first_of {A} (key : A -> Z) pre top post :
  (forall x, In x pre -> (key x < key top)%Z) ->
  (forall x, In x post -> (key x <= key top)%Z) ->
  match pre ++ top :: post with
  | [] => None
  | item :: items => Some (max_by key item items)
  end = Some top.
Proof.
  intros Hpre Hpost. destruct pre as [|x pre]; cbn [app]; f_equal.
  - apply max_by_keeps. exact Hpost.
  - apply max_by_first; [apply Hpre; left; reflexivity| |exact Hpost].
    intros y Hy. apply Hpre. right. exact Hy.
Qed.

Lemma category_keys_distinct : NoDup (List.map fst CATEGORY_RULES).
Proof. apply nodupb_sound. vm_compute. reflexivity. Qed.

Lemma first_vendor_none vp t :
  (forall e, In e vp -> fst (fst e) t = false) -> first_vendor vp t = None.
Proof.
  induction vp as [|[[pat cat] v] vp IH]; intros H; [reflexivity|]. cbn [first_vendor].
  assert (Hp : pat t = false) by (apply (H (pat, cat, v)); left; reflexivity).
  rewrite Hp. apply IH.
  intros e He. apply H. right. exact He.
Qed.

Lemma first_vendor_hit t : forall pre pat cat v post,
  (forall e, In e pre -> fst (fst e) t = false) -> pat t = true ->
  first_vendor (pre ++ (pat, cat, v) :: post) t = Some cat.
Proof.
  induction pre as [|[[p c] w] pre IH]; intros pat cat v post Hpre Hpat; cbn [app first_vendor].
  - rewrite Hpat. reflexivity.
  - assert (Hp : p t = false) by (apply (Hpre (p, c, w)); left; reflexivity).
    rewrite Hp. apply IH; [|exact Hpat].
    intros e He. apply Hpre. right. exact He.
Qed.

Lemma positive_scores_app t a b :
  positive_scores t (a ++ b) = positive_scores t a ++ positive_scores t b.
Proof. unfold positive_scores. rewrite List.map_app, filter_app. reflexivity. Qed.

Lemma positive_scores_bound t rules (P : Z -> Prop) :
  (forall r, In r rules -> P (hits t (snd r))) ->
  forall kv, In kv (positive_scores t rules) -> P (snd kv).
Proof.
  intros H kv Hin. unfold positive_scores in Hin. apply filter_In in Hin.
  destruct Hin as [Hin _]. apply in_map_iff in Hin.
  destruct Hin as (r & <- & Hr). apply H. exact Hr.
Qed.

Lemma guess_category_scores vp text :
  (forall e, In e vp -> fst (fst e) (normalize text) = false) ->
  guess_category vp text =
  match positive_scores (normalize text) CATEGORY_RULES with
  | [] => ETC
  | item :: items => fst (max_by snd item items)
  end.
Proof.
  intros Hv. unfold guess_category. cbv zeta.
  rewrite (first_vendor_none _ _ Hv), (score_rules_positive _ _ category_keys_distinct).
  reflexivity.
Qed.

Lemma first_max_exists {A} (key : A -> Z) : forall l,
  l <> [] ->
  exists pre top post,
    l = pre ++ top :: post
    /\ (forall x, In x pre -> (key x < key top)%Z)
    /\ (forall x, In x post -> (key x <= key top)%Z).
Proof.
  induction l as [|x l IH]; intros Hne; [congruence|].
  destruct l as [|y l].
  - exists [], x, []. repeat split; intros z [].
  - destruct (IH ltac:(discriminate)) as (pre & top & post & Hl & Hpre & Hpost).
    destruct (Z.ltb_spec (key x) (key top)) as [Hlt|Hge].
    + exists (x :: pre), top, post. rewrite Hl. repeat split; auto.
      intros z [<-|Hz]; auto.
    + exists [], x, (y :: l). repeat split; [intros z []|].
      intros z Hz. rewrite Hl in Hz. apply in_app_or in Hz.
      destruct Hz as [Hz|[<-|Hz]]; [apply Hpre in Hz|idtac|apply Hpost in Hz]; lia.
Qed.

(** C2: after normalizing the text, the vendor patterns are tried in load
    order and the category of the first one found in the text is the
    answer, whatever the built-in keywords would say. *)
Theorem guess_category_vendor_first
    (vp : vendor_table) (text : str) pre pat cat vendor post :
  vp = pre ++ (pat, cat, vendor) :: post ->
  (forall e, In e pre -> fst (fst e) (normalize text) = false) ->
  pat (normalize text) = true ->
  guess_category vp text = cat.
Proof.
  intros -> Hpre Hpat. unfold guess_category. cbv zeta.
  rewrite (first_vendor_hit _ _ _ _ _ _ Hpre Hpat). reflexivity.
Qed.

Lemma guess_category_vendor_first_witness :
  let table := [(re_compile (word_patt "편의점"), U "편의점", U "동네편의점");
                (re_compile (word_patt "스타벅스"), U "선물", U "스타벅스 기프트");
                (re_compile (word_patt "아메리카노"), U "음료", U "아메리카노")] in
  guess_category [] (U "스타벅스  아메리카노") = U "카페"
  /\ guess_category table (U "스타벅스  아메리카노") = U "선물".
Proof.
  split; [vm_compute; reflexivity|].
  apply (guess_category_vendor_first _ _
           [(re_compile (word_patt "편의점"), U "편의점", U "동네편의점")]
           (re_compile (word_patt "스타벅스")) (U "선물") (U "스타벅스 기프트")
           [(re_compile (word_patt "아메리카노"), U "음료", U "아메리카노")]).
  - reflexivity.
  - intros e [<-|[]]. vm_compute. reflexivity.
  - vm_compute. reflexivity.
Defined.

(** C3: when no vendor pattern is found, each category of the table scores
    the number of its keywords (all distinct) that occur in the normalized
    text; with no positive score the answer is the sentinel, otherwise it
    is the first category of the table, in table order, whose score is the
    largest. *)
Theorem guess_category_keywords (vp : vendor_table) (text : str) :
  (forall e, In e vp -> fst (fst e) (normalize text) = false) ->
  let t := normalize text in
  ((forall r, In r CATEGORY_RULES -> hits t (snd r) = 0%Z) ->
     guess_category vp text = ETC)
  /\ (forall pre cat kws post,
        CATEGORY_RULES = pre ++ (cat, kws) :: post ->
        (0 < hits t kws)%Z ->
        (forall r, In r pre -> (hits t (snd r) < hits t kws)%Z) ->
        (forall r, In r post -> (hits t (snd r) <= hits t kws)%Z) ->
        guess_category vp text = cat)
  /\ ((exists r, In r CATEGORY_RULES /\ (0 < hits t (snd r))%Z) ->
      exists pre cat kws post,
        CATEGORY_RULES = pre ++ (cat, kws) :: post
        /\ (0 < hits t kws)%Z
        /\ (forall r, In r pre -> (hits t (snd r) < hits t kws)%Z)
        /\ (forall r, In r post -> (hits t (snd r) <= hits t kws)%Z))
  /\ Forall (fun r => NoDup (List.map str_lower (snd r))) CATEGORY_RULES.
Proof.
  intros Hv t. rewrite (guess_category_scores _ _ Hv). fold t.
  split; [|split; [|split]].
  - intros Hzero. assert (E : positive_scores t CATEGORY_RULES = []).
    { destruct (positive_scores t CATEGORY_RULES) as [|kv l] eqn:E; [reflexivity|].
      assert (Hin : In kv (positive_scores t CATEGORY_RULES)) by (rewrite E; left; reflexivity).
      pose proof (positive_scores_bound t CATEGORY_RULES (fun z => z = 0%Z) Hzero kv Hin) as Hz.
      unfold positive_scores in Hin. apply filter_In in Hin. destruct Hin as [_ Hpos].
      apply Z.ltb_lt in Hpos. simpl in Hz. lia. }
    rewrite E. reflexivity.
  - intros pre cat kws post -> Hpos Hpre Hpost.
    rewrite positive_scores_app.
    change (positive_scores t ((cat, kws) :: post))
      with (List.filter (fun kv => (0 <? snd kv)%Z)
              ((cat, hits t kws) :: List.map (fun rule => (fst rule, hits t (snd rule))) post)).
    cbn [List.filter snd]. apply Z.ltb_lt in Hpos. rewrite Hpos. apply Z.ltb_lt in Hpos.
    fold (positive_scores t post).
    pose proof (max_first_of snd (positive_scores t pre) (cat, hits t kws)
                  (positive_scores t post)) as Hmax.
    cbn [snd] in Hmax.
    specialize (Hmax (positive_scores_bound t pre (fun z => (z < hits t kws)%Z) Hpre)
                     (positive_scores_bound t post (fun z => (z <= hits t kws)%Z) Hpost)).
    destruct (positive_scores t pre ++ (cat, hits t kws) :: positive_scores t post);
      [discriminate|]. injection Hmax as ->. reflexivity.
  - intros (r0 & Hr0 & Hpos0).
    destruct (first_max_exists (fun r => hits t (snd r)) CATEGORY_RULES)
      as (pre & [cat kws] & post & Hl & Hpre & Hpost); [discriminate|].
    exists pre, cat, kws, post. cbn [snd] in *. repeat split; auto.
    rewrite Hl in Hr0. apply in_app_or in Hr0.
    destruct Hr0 as [H0|[<-|H0]]; [apply Hpre in H0|idtac|apply Hpost in H0];
      cbn [snd] in *; lia.
  - assert (Hb : forallb (fun r => nodupb (List.map str_lower (snd r))) CATEGORY_RULES = true)
      by (vm_compute; reflexivity).
    rewrite forallb_forall in Hb. apply Forall_forall. intros r Hr.
    apply nodupb_sound, Hb, Hr.
Qed.

(** ** Claims about the date and time extractor *)

Lemma guess_category_keywords_witness :
  guess_category [] (U "GS25 편의점") = U "편의점"
  /\ guess_category [] (U "현금 영수증") = ETC
  /\ (exists pre cat kws post,
        CATEGORY_RULES = pre ++ (cat, kws) :: post
        /\ (0 < hits (normalize (U "버거킹 치킨버거 배달의민족")) kws)%Z
        /\ (forall r, In r pre ->
            (hits (normalize (U "버거킹 치킨버거 배달의민족")) (snd r)
             < hits (normalize (U "버거킹 치킨버거 배달의민족")) kws)%Z)
        /\ (forall r, In r post ->
            (hits (normalize (U "버거킹 치킨버거 배달의민족")) (snd r)
             <= hits (normalize (U "버거킹 치킨버거 배달의민족")) kws)%Z)).
Proof.
  assert (Hv : forall text (e : compiled * str * str),
             In e [] -> fst (fst e) (normalize text) = false) by (intros text e []).
  split; [|split].
  - apply (proj1 (proj2 (guess_category_keywords [] (U "GS25 편의점") (Hv _)))
             [] (U "편의점") (snd (hd (ETC, []) CATEGORY_RULES)) (tl CATEGORY_RULES)).
    + reflexivity.
    + vm_compute. reflexivity.
    + intros r [].
    + intros r Hr. cbn in Hr.
      repeat (destruct Hr as [<-|Hr]; [vm_compute; discriminate|]). destruct Hr.
  - apply (proj1 (guess_category_keywords [] (U "현금 영수증") (Hv _))).
    intros r Hr. cbn in Hr.
    repeat (destruct Hr as [<-|Hr]; [vm_compute; reflexivity|]). destruct Hr.
  - apply (proj1 (proj2 (proj2
             (guess_category_keywords [] (U "버거킹 치킨버거 배달의민족") (Hv _))))).
    exists (nth 4 CATEGORY_RULES (ETC, [])). split.
    + cbn. auto 10.
    + vm_compute. reflexivity.
Defined.

(** C4: the date comes from the leftmost match of the four-digit-year
    pattern, else from the leftmost match of the two-digit-year pattern
    with 2000 added to the year; the time comes from the leftmost match of
    the time pattern, 0:00:00 without one; the result puts both together.
    A search returns the match at the least position where the pattern
    matches. *)
Theorem guess_datetime_spec (text : str) :
  guess_datetime text = Ret (combine (found_date text) (found_time text))
  /\ (forall r m, re_search r text = Some m ->
        text = m_pre m ++ m_text m ++ c_rest (m_after m)
        /\ match_at r false
             (Cur (prev_of None (m_pre m)) (m_text m ++ c_rest (m_after m)))
           = Some (m_after m, m_caps m)
        /\ (forall p1 p2, m_pre m = p1 ++ p2 -> p2 <> [] ->
            match_at r false
              (Cur (prev_of None p1) (p2 ++ m_text m ++ c_rest (m_after m))) = None))
  /\ guess_datetime (U "2025-11-13 14:05:30 결제완료")
     = Ret (Some (DateTime 2025 11 13 14 5 30))
  /\ guess_datetime (U "25.3.2 13:00") = Ret (Some (DateTime 2025 3 2 13 0 0)).
Proof.
  split; [apply guess_datetime_combine|]. split.
  - intros r m Hs. apply re_search_leftmost in Hs. tauto.
  - split; vm_compute; reflexivity.
Qed.

Lemma guess_datetime_spec_witness :
  exists m, re_search (date_patt 2) (U "no 25.3.2") = Some m
    /\ m_pre m = U "no " /\ m_text m = U "25.3.2"
    /\ match_at (date_patt 2) false (Cur None (U "no 25.3.2")) = None
    /\ match_at (date_patt 2) false (Cur (Some (ch "n")) (U "o 25.3.2")) = None
    /\ match_at (date_patt 2) false (Cur (Some (ch "o")) (U " 25.3.2")) = None.
Proof.
  destruct (re_search (date_patt 2) (U "no 25.3.2")) as [m|] eqn:E;
    [|vm_compute in E; discriminate].
  exists m. split; [reflexivity|].
  destruct (proj1 (proj2 (guess_datetime_spec (U "no 25.3.2"))) (date_patt 2) m E)
    as (_ & _ & Hleft).
  assert (Hm : m_pre m = U "no " /\ m_text m = U "25.3.2"
               /\ c_rest (m_after m) = []).
  { vm_compute in E. injection E as <-. repeat split. }
  destruct Hm as (Hpre & Htext & Hrest). rewrite Hpre, Htext, Hrest in Hleft.
  split; [exact Hpre|]. split; [exact Htext|].
  split; [|split].
  - apply (Hleft [] (U "no ")); [reflexivity|discriminate].
  - apply (Hleft (U "n") (U "o ")); [reflexivity|discriminate].
  - apply (Hleft (U "no") (U " ")); [reflexivity|discriminate].
Defined.

(** C5: the extractor returns absent, and does not raise, when the
    year, month and day found are not a date of the calendar, and when
    neither date pattern matches, whether or not a time is found. *)
Theorem guess_datetime_absent (text : str) :
  (re_search (date_patt 4) text = None -> re_search (date_patt 2) text = None ->
     guess_datetime text = Ret None)
  /\ (forall y mo d, found_date text = Some (y, mo, d) -> valid_date y mo d = false ->
        guess_datetime text = Ret None)
  /\ guess_datetime (U "2025-13-40") = Ret None.
Proof.
  rewrite guess_datetime_combine. split; [|split].
  - intros E4 E2. unfold found_date. rewrite E4, E2. reflexivity.
  - intros y mo d -> Hv. cbn [combine]. rewrite Hv. reflexivity.
  - vm_compute. reflexivity.
Qed.

Lemma guess_datetime_absent_witness :
  guess_datetime (U "결제 14:05:30") = Ret None
  /\ guess_datetime (U "2023-02-29 14:05") = Ret None.
Proof.
  split.
  - apply (proj1 (guess_datetime_absent (U "결제 14:05:30"))); vm_compute; reflexivity.
  - apply (proj1 (proj2 (guess_datetime_absent (U "2023-02-29 14:05"))) 2023 2 29)%Z;
      vm_compute; reflexivity.
Defined.

(** C10: the extractor always returns: no exception escapes it.  A time
    found with an hour, minute or second out of range makes the result
    absent even when the date found is valid. *)
Theorem guess_datetime_total (text : str) :
  (exists o, guess_datetime text = Ret o)
  /\ (forall y mo d hh mi ss,
        found_date text = Some (y, mo, d) -> valid_date y mo d = true ->
        found_time text = (hh, mi, ss) ->
        (24 <= hh \/ 60 <= mi \/ 60 <= ss)%Z ->
        guess_datetime text = Ret None).
Proof.
  rewrite guess_datetime_combine. split; [eauto|].
  intros y mo d hh mi ss -> Hv -> Ht. cbn [combine fst snd]. rewrite Hv.
  assert (E : valid_time hh mi ss = false).
  { unfold valid_time. rewrite !andb_false_iff, !Z.leb_gt. lia. }
  rewrite E. reflexivity.
Qed.

Lemma guess_datetime_total_witness :
  found_date (U "2025-11-13 25:00") = Some (2025, 11, 13)%Z
  /\ guess_datetime (U "2025-11-13 25:00") = Ret None.
Proof.
  split; [vm_compute; reflexivity|].
  apply (proj2 (guess_datetime_total (U "2025-11-13 25:00")) 2025 11 13 25 0 0)%Z.
  - vm_compute. reflexivity.
  - vm_compute. reflexivity.
  - vm_compute. reflexivity.
  - lia.
Defined.

(** ** Drafts and the ledger *)

Lemma guess_amount_total text : exists o, guess_amount text = Ret o.
Proof.
  rewrite guess_amount_unfold. cbv zeta.
  destruct (List.filter _ _) as [|x l]; cbn [nonempty py_max bind]; [|eauto].
  destruct (amount_candidates text); cbn [nonempty py_max bind]; eauto.
Qed.

Section HandlerFacts.
Context `{Host}.

(** Processing an attachment always returns, with the draft stored. *)
Lemma handle_attachment_ok vp pid att w :
  exists amt when_,
    handle_attachment vp pid att w
    = Ret {| PENDING := <[pid := {| id := pid; filename := stored_name pid att;
                                    category := guess_category vp (ocr (att_data att));
                                    amount := amt; when := when_;
                                    ocr_text := ocr (att_data att) |}]> (PENDING w);
             ledger := ledger w;
             files := <[path_join UPLOAD_DIR (stored_name pid att) := att_data att]> (files w) |}.
Proof.
  destruct (guess_amount_total (ocr (att_data att))) as [amt Ha].
  pose proof (guess_datetime_combine (ocr (att_data att))) as Hd.
  exists amt, (combine (found_date (ocr (att_data att))) (found_time (ocr (att_data att)))). unfold handle_attachment, stored_name.
  rewrite Ha, Hd. cbn [bind].
  destruct (str_lower (snd (splitext (att_filename att)))); reflexivity.
Qed.

Lemma confirm_live pid w p :
  PENDING w !! pid = Some p ->
  confirm pid w
  = ({| PENDING := delete pid (PENDING w);
        ledger := ledger w ++ [row_of p];
        files := <[path_join DATA_DIR (id p ++ U ".txt") := ocr_text p]> (files w) |},
     REPLY_SAVED).
Proof. intros Hp. unfold confirm. rewrite Hp. reflexivity. Qed.

Lemma confirm_stale pid w :
  PENDING w !! pid = None -> confirm pid w = (w, REPLY_EXPIRED).
Proof. intros Hp. unfold confirm. rewrite Hp. reflexivity. Qed.

Lemma on_submit_stale pid f w :
  PENDING w !! pid = None -> on_submit pid f w = Ret (w, REPLY_NOT_FOUND).
Proof. intros Hp. unfold on_submit. rewrite Hp. reflexivity. Qed.

Lemma on_submit_live pid f w p :
  PENDING w !! pid = Some p ->
  on_submit pid f w
  = Ret ({| PENDING := delete pid (PENDING w);
            ledger := ledger w ++ [row_of (corrected p f)];
            files := <[path_join DATA_DIR (id p ++ U ".txt") := ocr_text p]> (files w) |},
         REPLY_CORRECTED).
Proof.
  intros Hp. unfold on_submit. rewrite Hp, re_sub_nondigit.
  assert (Hdt : (if nonempty (or_empty (t_dt f)) then str_strip (or_empty (t_dt f)) else [])
                = str_strip (or_empty (t_dt f))).
  { destruct (or_empty (t_dt f)); reflexivity. }
  rewrite Hdt.
  assert (Hamt : (if nonempty (List.filter is_decimal (or_empty (t_amount f)))
                  then bind (py_int (List.filter is_decimal (or_empty (t_amount f))))
                            (fun v => Ret (Some v))
                  else Ret None)
                 = Ret (match List.filter is_decimal (or_empty (t_amount f)) with
                        | [] => None
                        | ds => Some (digits_value ds)
                        end)).
  { destruct (List.filter is_decimal (or_empty (t_amount f))) as [|c ds] eqn:E; [reflexivity|].
    cbn [nonempty]. rewrite py_int_digits; [reflexivity|discriminate|].
    rewrite <- E. apply forallb_filter. }
  rewrite Hamt. cbn [bind]. unfold save_row, set_pending. cbn [PENDING ledger files].
  rewrite delete_insert_eq. unfold corrected, row_of, REPLY_CORRECTED. cbn [id ocr_text].
  destruct (List.filter is_decimal (or_empty (t_amount f)));
    destruct (str_strip (or_empty (t_dt f))); cbn [nonempty];
    try destruct (strptime _); try reflexivity;
    destruct (when p); reflexivity.
Qed.

End HandlerFacts.


(** C8: a correction for a stored draft is always saved.  The category is
    the stripped input (the sentinel when that is empty); an amount field
    without a digit keeps the draft's amount, one with digits sets the
    number they spell; a timestamp field that is blank or that the parser
    rejects keeps the draft's timestamp, one that parses sets it. *)
Theorem correction_keeps_previous `{Host} (pid : str) (f : form) (w : world) (p : Pending) :
  PENDING w !! pid = Some p ->
  exists w' p',
    on_submit pid f w = Ret (w', REPLY_CORRECTED)
    /\ ledger w' = ledger w ++ [row_of p']
    /\ PENDING w' = delete pid (PENDING w)
    /\ id p' = id p /\ filename p' = filename p /\ ocr_text p' = ocr_text p
    /\ category p' = (if nonempty (str_strip (t_category f))
                      then str_strip (t_category f) else ETC)
    /\ (forallb (fun c => negb (is_decimal c)) (or_empty (t_amount f)) = true ->
        amount p' = amount p)
    /\ (forallb (fun c => negb (is_decimal c)) (or_empty (t_amount f)) = false ->
        amount p' = Some (digits_value (List.filter is_decimal (or_empty (t_amount f)))))
    /\ (str_strip (or_empty (t_dt f)) = []
        \/ strptime (str_strip (or_empty (t_dt f))) = None ->
        when p' = when p)
    /\ (forall d, str_strip (or_empty (t_dt f)) <> [] ->
        strptime (str_strip (or_empty (t_dt f))) = Some d -> when p' = Some d).
Proof.
  intros Hp. rewrite (on_submit_live _ _ _ _ Hp).
  eexists _, (corrected p f). split; [reflexivity|]. cbn [PENDING ledger].
  unfold corrected. cbn [id filename ocr_text category amount when].
  repeat (split; [reflexivity|]).
  assert (Hnone : forall l, forallb (fun c => negb (is_decimal c)) l = true
                            <-> List.filter is_decimal l = []).
  { induction l as [|c l IH]; cbn [forallb List.filter]; [tauto|].
    destruct (is_decimal c); cbn [negb andb]; [split; discriminate|exact IH]. }
  split; [|split; [|split]].
  - intros Hn. apply Hnone in Hn. rewrite Hn. reflexivity.
  - intros Hn. destruct (List.filter is_decimal (or_empty (t_amount f))) eqn:E; [|reflexivity].
    apply Hnone in E. congruence.
  - intros [-> | Hn]; [reflexivity|]. rewrite Hn.
    destruct (str_strip (or_empty (t_dt f))); reflexivity.
  - intros d Hne ->. destruct (str_strip (or_empty (t_dt f))); [congruence|reflexivity].
Qed.



Lemma correction_keeps_previous_witness :
  (exists w' p',
    @on_submit demo_host demo_pid
      {| t_category := U " 간식 "; t_amount := Some (U "모름"); t_dt := Some (U "2025/11/14") |}
      demo_world = Ret (w', REPLY_CORRECTED)
    /\ ledger w' = [@row_of demo_host p']
    /\ category p' = U "간식"
    /\ amount p' = Some 4500%Z
    /\ when p' = Some (DateTime 2025 11 13 14 5 0))
  /\ (exists w' p',
    @on_submit demo_host demo_pid
      {| t_category := U ""; t_amount := Some (U "5,200원");
         t_dt := Some (U " 2025-11-14 09:30:00 ") |}
      demo_world = Ret (w', REPLY_CORRECTED)
    /\ category p' = ETC
    /\ amount p' = Some 5200%Z
    /\ when p' = Some (DateTime 2025 11 14 9 30 0)).
Proof.
  assert (Hlive : PENDING demo_world !! demo_pid = Some demo_draft)
    by (vm_compute; reflexivity).
  split.
  - destruct (@correction_keeps_previous demo_host demo_pid
                {| t_category := U " 간식 "; t_amount := Some (U "모름");
                   t_dt := Some (U "2025/11/14") |}
                demo_world demo_draft Hlive)
      as (w' & p' & Hs & Hl & _ & _ & _ & _ & Hc & Ha & _ & Hw & _).
    exists w', p'. split; [exact Hs|]. split; [exact Hl|].
    split; [rewrite Hc; vm_compute; reflexivity|].
    split.
    + rewrite Ha; [reflexivity|vm_compute; reflexivity].
    + rewrite Hw; [reflexivity|]. right. vm_compute. reflexivity.
  - destruct (@correction_keeps_previous demo_host demo_pid
                {| t_category := U ""; t_amount := Some (U "5,200원");
                   t_dt := Some (U " 2025-11-14 09:30:00 ") |}
                demo_world demo_draft Hlive)
      as (w' & p' & Hs & _ & _ & _ & _ & _ & Hc & _ & Ha & _ & Hw).
    exists w', p'. split; [exact Hs|].
    split; [rewrite Hc; vm_compute; reflexivity|].
    split.
    + rewrite Ha; [vm_compute; reflexivity|vm_compute; reflexivity].
    + apply Hw; [vm_compute; discriminate|vm_compute; reflexivity].
Defined.


(** ** Examples of the specification *)

Example category_cafe : guess_category [] (U "스타벅스 아메리카노") = U "카페".
Proof. vm_compute. reflexivity. Qed.

Example category_convenience : guess_category [] (U "GS25 편의점") = U "편의점".
Proof. vm_compute. reflexivity. Qed.

Example category_none : guess_category [] (U "현금 영수증 12,000") = ETC.
Proof. vm_compute. reflexivity. Qed.

Example amount_none : guess_amount (U "감사합니다") = Ret None.
Proof. vm_compute. reflexivity. Qed.

Example amount_marker_after_blank : guess_amount (U "total 1 234 567 KRW") = Ret (Some 1234567%Z).
Proof. vm_compute. reflexivity. Qed.

Example amount_glued_to_word : guess_amount (U "no1234abc") = Ret None.
Proof. vm_compute. reflexivity. Qed.

Example datetime_time_before_date :
  guess_datetime (U "09:41 2024/02/29") = Ret (Some (DateTime 2024 2 29 9 41 0)).
Proof. vm_compute. reflexivity. Qed.

Example strptime_lenient :
  strptime_ymd_hms (U "2025-1-2 3:04:05") = Some (DateTime 2025 1 2 3 4 5).
Proof. vm_compute. reflexivity. Qed.

Example normalize_sample : normalize (U "  GS25   편의점 ") = U "gs25 편의점".
Proof. vm_compute. reflexivity. Qed.

(** * Further properties of the program *)

(** ** More on the normalizer and the extractors *)

Lemma normalize_stages s : normalize s = str_lower (str_strip (collapse_ws s)).
Proof. unfold normalize. rewrite re_sub_ws. reflexivity. Qed.

Lemma normalize_tidy s : tidy (normalize s).
Proof. rewrite normalize_stages. apply tidy_lower, tidy_strip_collapse. Qed.

Lemma normalize_again s : normalize (normalize s) = normalize s.
Proof.
  rewrite (normalize_stages (normalize s)).
  rewrite (strip_collapse_tidy _ (normalize_tidy s)).
  rewrite normalize_stages. apply str_lower_idempotent.
Qed.

Lemma separated_spaces : forall u b,
  separated b u = true -> Forall (fun c => is_space c = true -> c = 32%N) u.
Proof.
  induction u as [|c u IH]; intros b; [constructor|]. cbn [separated].
  destruct (is_space c) eqn:Ec.
  - intros H. apply andb_prop in H. destruct H as [H1 H2].
    apply andb_prop in H1. destruct H1 as [H1 _]. apply N.eqb_eq in H1.
    constructor; [auto|apply (IH true H2)].
  - intros H. constructor; [intros ?; congruence|apply (IH false H)].
Qed.

(** X1: a normalized text is a fixed point of each of the three steps of
    the normalizer, and the only whitespace it holds is the plain space. *)
Theorem normalize_fixed_points (s : str) :
  re_sub ws_patt (U " ") (normalize s) = normalize s
  /\ str_strip (normalize s) = normalize s
  /\ str_lower (normalize s) = normalize s
  /\ Forall (fun c => is_space c = true -> c = 32%N) (normalize s).
Proof.
  pose proof (normalize_tidy s) as Ht.
  assert (Hc : collapse_ws (normalize s) = normalize s).
  { destruct Ht as [->|Ht]; [reflexivity|]. apply (collapse_separated _ true Ht). }
  split; [rewrite re_sub_ws; exact Hc|]. split; [|split].
  - rewrite <- Hc at 1. apply strip_collapse_tidy. exact Ht.
  - rewrite normalize_stages. apply str_lower_idempotent.
  - destruct Ht as [->|Ht]; [constructor|]. apply (separated_spaces _ true Ht).
Qed.

Lemma collapse_all_space : forall s b,
  forallb is_space (collapse_from b s) = forallb is_space s.
Proof.
  induction s as [|c s IH]; intros b; cbn [collapse_from forallb]; [reflexivity|].
  destruct (is_space c) eqn:Ec; cbn [andb].
  - destruct b; [apply IH|]. rewrite U_space. cbn [app forallb].
    change (is_space 32%N) with true. apply IH.
  - cbn [forallb]. rewrite Ec. reflexivity.
Qed.

Lemma lstrip_empty_iff u : lstrip u = [] <-> forallb is_space u = true.
Proof.
  induction u as [|c u IH]; cbn [lstrip forallb]; [tauto|].
  destruct (is_space c); cbn [andb]; [exact IH|]. split; discriminate.
Qed.

Lemma rstrip_empty_iff : forall u, rstrip u = [] <-> forallb is_space u = true.
Proof.
  induction u as [|c u IH]; [cbn; tauto|]. rewrite rstrip_cons. cbn [forallb].
  destruct (rstrip u) as [|d r] eqn:Er.
  - destruct (is_space c); cbn [andb]; [|split; discriminate].
    split; [intros _; apply IH; reflexivity|reflexivity].
  - split; [discriminate|]. intros H. apply andb_prop in H. destruct H as [_ H].
    apply IH in H. discriminate.
Qed.

Lemma lstrip_all_space u :
  forallb is_space (lstrip u) = true -> forallb is_space u = true.
Proof.
  induction u as [|c u IH]; cbn [lstrip forallb]; [auto|].
  destruct (is_space c) eqn:Ec; cbn [andb]; [exact IH|].
  cbn [forallb]. rewrite Ec. discriminate.
Qed.

Lemma str_strip_empty_iff u : str_strip u = [] <-> forallb is_space u = true.
Proof.
  rewrite str_strip_rstrip, rstrip_empty_iff. split.
  - apply lstrip_all_space.
  - intros H. apply lstrip_empty_iff in H. rewrite H. reflexivity.
Qed.

Lemma lower_from_empty_iff u before : lower_from before u = [] <-> u = [].
Proof.
  destruct u as [|c u]; [cbn; tauto|]. rewrite lower_from_cons.
  destruct (lower_block_props before c u) as [Hne _].
  split; [|discriminate]. intros H. apply app_eq_nil in H. tauto.
Qed.

(** X2: the normalizer gives the empty text exactly on the texts made of
    whitespace only. *)
Theorem normalize_empty_iff (s : str) :
  normalize s = [] <-> forallb is_space s = true.
Proof.
  rewrite normalize_stages. unfold str_lower.
  rewrite lower_from_empty_iff, str_strip_empty_iff.
  unfold collapse_ws. rewrite collapse_all_space. tauto.
Qed.

Lemma normalize_empty_iff_witness :
  normalize (U "   ") = [] /\ forallb is_space (U " x ") = false.
Proof.
  split.
  - apply (proj2 (normalize_empty_iff (U "   "))). vm_compute. reflexivity.
  - destruct (forallb is_space (U " x ")) eqn:E; [|reflexivity].
    apply (proj2 (normalize_empty_iff (U " x "))) in E. vm_compute in E. discriminate.
Defined.

(** The result of the amount extractor: the largest of all candidates. *)
Lemma guess_amount_value text :
  guess_amount text
  = Ret (match amount_candidates text with
         | [] => None
         | x :: l => Some (fold_left Z.max l x)
         end).
Proof.
  rewrite guess_amount_unfold. cbv zeta.
  destruct (amount_candidates text) as [|x l] eqn:Ec; [reflexivity|].
  destruct (fold_max_spec l x) as [Hin Hub].
  destruct (List.filter (fun v => (1000 <=? v)%Z) (x :: l)) as [|y bs] eqn:Eb.
  - reflexivity.
  - cbn [nonempty]. rewrite <- Eb.
    rewrite (py_max_unique _ (fold_left Z.max l x)); [reflexivity| |].
    + apply filter_In. split; [exact Hin|]. apply Z.leb_le.
      assert (Hy : In y (List.filter (fun v => (1000 <=? v)%Z) (x :: l)))
        by (rewrite Eb; left; reflexivity).
      apply filter_In in Hy. destruct Hy as [Hy1 Hy2]. apply Z.leb_le in Hy2.
      specialize (Hub y Hy1). lia.
    + intros w Hw. apply filter_In in Hw. apply Hub. tauto.
Qed.



Lemma token_value_nonneg tok : (0 <= token_value tok)%Z.
Proof. unfold token_value. apply digits_value_bound. Qed.

(** X4: the amount extractor returns absent exactly when the pattern
    finds no token, and an amount it returns is never negative. *)
Theorem guess_amount_absent_iff (text : str) :
  (guess_amount text = Ret None <-> amount_tokens text = [])
  /\ (forall v, guess_amount text = Ret (Some v) -> (0 <= v)%Z).
Proof.
  rewrite guess_amount_value. unfold amount_candidates. split.
  - destruct (amount_tokens text); cbn [List.map]; split; auto; discriminate.
  - intros v. destruct (List.map token_value (amount_tokens text)) as [|x l] eqn:E;
      [discriminate|]. intros [= <-].
    destruct (fold_max_spec l x) as [Hin _]. rewrite <- E in Hin.
    apply in_map_iff in Hin. destruct Hin as (tok & <- & _). apply token_value_nonneg.
Qed.

Lemma guess_amount_absent_iff_witness :
  guess_amount (U "전화 02-123") = Ret None
  /\ (0 <= 4500)%Z.
Proof.
  split.
  - apply (proj2 (proj1 (guess_amount_absent_iff (U "전화 02-123")))).
    vm_compute. reflexivity.
  - apply (proj2 (guess_amount_absent_iff (U "아메리카노 4,500원")) 4500%Z).
    vm_compute. reflexivity.
Defined.

(** X5: a timestamp that the extractor returns is a date of the calendar
    and a time of the day, and comes from the date and time found; when
    only the two-digit-year pattern matches, its year lies in 2000..2099. *)
Theorem guess_datetime_valid (text : str) (dt : datetime) :
  guess_datetime text = Ret (Some dt) ->
  valid_date (year dt) (month dt) (day dt) = true
  /\ valid_time (hour dt) (minute dt) (second dt) = true
  /\ found_date text = Some (year dt, month dt, day dt)
  /\ found_time text = (hour dt, minute dt, second dt)
  /\ (re_search (date_patt 4) text = None -> (2000 <= year dt <= 2099)%Z).
Proof.
  rewrite guess_datetime_combine. unfold combine.
  destruct (found_date text) as [[[y mo] d]|] eqn:Ed; [|discriminate].
  destruct (found_time text) as [[hh mi] ss] eqn:Et. cbn [fst snd].
  destruct (valid_date y mo d) eqn:Ev; [|discriminate].
  destruct (valid_time hh mi ss) eqn:Evt; [|discriminate].
  cbn [andb]. intros [= <-]. cbn [year month day hour minute second].
  repeat split; auto.
  - unfold found_date in Ed. rewrite H in Ed.
    destruct (re_search (date_patt 2) text) as [m|] eqn:E2; [|discriminate].
    destruct (date_match 2 text m ltac:(lia) E2)
      as (g1 & g2 & g3 & H1 & _ & _ & D1 & _ & _).
    injection Ed as <- _ _. unfold group_value. rewrite H1.
    pose proof (digits_value_le _ _ _ D1). lia.
  - unfold found_date in Ed. rewrite H in Ed.
    destruct (re_search (date_patt 2) text) as [m|] eqn:E2; [|discriminate].
    destruct (date_match 2 text m ltac:(lia) E2)
      as (g1 & g2 & g3 & H1 & _ & _ & D1 & _ & _).
    injection Ed as <- _ _. unfold group_value. rewrite H1.
    pose proof (digits_value_le _ _ _ D1). cbn in *. lia.
Qed.

Lemma guess_datetime_valid_witness :
  found_date (U "99/12/31 23:59") = Some (2099, 12, 31)%Z
  /\ (2000 <= 2099 <= 2099)%Z.
Proof.
  destruct (guess_datetime_valid (U "99/12/31 23:59") (DateTime 2099 12 31 23 59 0))
    as (_ & _ & Hd & _ & Hy); [vm_compute; reflexivity|].
  split; [exact Hd|]. apply Hy. vm_compute. reflexivity.
Defined.

Lemma first_vendor_In : forall vp t cat,
  first_vendor vp t = Some cat -> In cat (List.map (fun e => snd (fst e)) vp).
Proof.
  induction vp as [|[[pat c] v] vp IH]; intros t cat; cbn [first_vendor List.map];
    [discriminate|].
  destruct (pat t); [intros [= <-]; left; reflexivity|].
  intros H. right. apply (IH _ _ H).
Qed.

Lemma max_by_In {A} (key : A -> Z) : forall l best, In (max_by key best l) (best :: l).
Proof.
  induction l as [|x l IH]; intros best; cbn [max_by]; [left; reflexivity|].
  destruct (IH (if (key best <? key x)%Z then x else best)) as [H|H].
  - rewrite <- H. destruct (key best <? key x)%Z; [right; left|left]; reflexivity.
  - right. right. exact H.
Qed.

(** X6: the classifier answers with a category of the vendor table, a
    category of the keyword table or the sentinel, and with nothing else. *)
Theorem guess_category_range (vp : vendor_table) (text : str) :
  In (guess_category vp text)
     (List.map (fun e => snd (fst e)) vp ++ List.map fst CATEGORY_RULES ++ [ETC]).
Proof.
  unfold guess_category. cbv zeta. apply in_or_app.
  destruct (first_vendor vp (normalize text)) as [cat|] eqn:Ev.
  - left. apply (first_vendor_In _ _ _ Ev).
  - right. apply in_or_app.
    rewrite (score_rules_positive _ _ category_keys_distinct).
    destruct (positive_scores (normalize text) CATEGORY_RULES) as [|item items] eqn:Ep.
    + right. left. reflexivity.
    + left. apply (positive_scores_keys (normalize text)). rewrite Ep.
      apply in_map. apply max_by_In.
Qed.

(** X7: the classifier only looks at the normalized text: a text and its
    normal form get the same category, so case and the layout of
    whitespace do not matter. *)
Theorem guess_category_normalized (vp : vendor_table) (text text' : str) :
  normalize text = normalize text' ->
  guess_category vp text = guess_category vp text'
  /\ guess_category vp (normalize text) = guess_category vp text.
Proof.
  intros He. unfold guess_category. cbv zeta. rewrite normalize_again, He. auto.
Qed.

Lemma guess_category_normalized_witness :
  guess_category [] (U "  gs25   강남점") = guess_category [] (U "GS25 강남점 ").
Proof.
  apply (proj1 (guess_category_normalized [] (U "  gs25   강남점") (U "GS25 강남점 ")
                  ltac:(vm_compute; reflexivity))).
Defined.

(** ** The duplicate filter *)

Section Dedup.
Context `{Clock}.

Lemma kept_lookup now (recent : gmap Z instant) k t :
  base.filter (fun kt => expired now (snd kt) = false) recent !! k = Some t
  <-> recent !! k = Some t /\ expired now t = false.
Proof. rewrite map_lookup_filter_Some. reflexivity. Qed.

Lemma kept_lookup_None now (recent : gmap Z instant) k :
  base.filter (fun kt => expired now (snd kt) = false) recent !! k = None
  <-> recent !! k = None \/ exists t, recent !! k = Some t /\ expired now t = true.
Proof.
  rewrite map_lookup_filter_None. split.
  - intros [Hn|Hall]; [left; exact Hn|].
    destruct (recent !! k) as [t|] eqn:E; [|left; reflexivity].
    right. exists t. split; [reflexivity|]. specialize (Hall t eq_refl). simpl in Hall.
    destruct (expired now t); congruence.
  - intros [Hn|(t & Ht & He)]; [left; exact Hn|]. right.
    intros t' Ht'. simpl. congruence.
Qed.

(** X8: [seen_before] answers True exactly for an id recorded at a time
    that has not expired, and then leaves the record as it is, so the
    window runs from the first sighting; otherwise it answers False and
    records the id at the present time. *)
Theorem seen_before_answer (now : instant) (msg_id : Z) (recent : gmap Z instant) :
  (fst (seen_before now msg_id recent) = true
   <-> exists t, recent !! msg_id = Some t /\ expired now t = false)
  /\ (forall t, recent !! msg_id = Some t -> expired now t = false ->
      snd (seen_before now msg_id recent) !! msg_id = Some t)
  /\ (fst (seen_before now msg_id recent) = false ->
      snd (seen_before now msg_id recent) !! msg_id = Some now).
Proof.
  unfold seen_before. cbv zeta.
  destruct (base.filter _ recent !! msg_id) as [t|] eqn:E; cbn [fst snd].
  - apply kept_lookup in E. split; [|split].
    + split; [intros _; exists t; exact E|reflexivity].
    + intros t' Ht' He'. apply kept_lookup. auto.
    + discriminate.
  - split; [|split].
    + split; [discriminate|]. intros (t & Ht & He).
      assert (base.filter (fun kt => expired now (snd kt) = false) recent !! msg_id = Some t)
        by (apply kept_lookup; auto). congruence.
    + intros t Ht He.
      assert (base.filter (fun kt => expired now (snd kt) = false) recent !! msg_id = Some t)
        by (apply kept_lookup; auto). congruence.
    + intros _. apply lookup_insert_eq.
Qed.

(** X9: a call of [seen_before] purges: of the other ids, those recorded
    at a time that has not expired stay as they are and all others are
    gone. *)
Theorem seen_before_purges (now : instant) (msg_id k : Z) (recent : gmap Z instant) :
  k <> msg_id ->
  forall t, snd (seen_before now msg_id recent) !! k = Some t
            <-> recent !! k = Some t /\ expired now t = false.
Proof.
  intros Hk t. unfold seen_before. cbv zeta.
  destruct (base.filter _ recent !! msg_id); cbn [snd].
  - apply kept_lookup.
  - rewrite lookup_insert_ne by congruence. apply kept_lookup.
Qed.

Lemma seen_before_new now msg_id (recent : gmap Z instant) :
  recent !! msg_id = None ->
  seen_before now msg_id recent
  = (false, <[msg_id := now]>
              (base.filter (fun kt => expired now (snd kt) = false) recent)).
Proof.
  intros Hnone. unfold seen_before. cbv zeta.
  assert (E : base.filter (fun kt => expired now (snd kt) = false) recent !! msg_id = None)
    by (apply kept_lookup_None; left; exact Hnone).
  rewrite E. reflexivity.
Qed.

Lemma seen_before_known now msg_id (recent : gmap Z instant) t :
  recent !! msg_id = Some t ->
  fst (seen_before now msg_id recent) = negb (expired now t)
  /\ snd (seen_before now msg_id recent) !! msg_id
     = Some (if expired now t then now else t).
Proof.
  intros Ht. unfold seen_before. cbv zeta. destruct (expired now t) eqn:Ee.
  - assert (E : base.filter (fun kt => expired now (snd kt) = false) recent !! msg_id = None).
    { apply kept_lookup_None. right. exists t. auto. }
    rewrite E. cbn [fst snd negb]. split; [reflexivity|apply lookup_insert_eq].
  - assert (E : base.filter (fun kt => expired now (snd kt) = false) recent !! msg_id = Some t).
    { apply kept_lookup. auto. }
    rewrite E. cbn [fst snd negb]. split; [reflexivity|exact E].
Qed.

(** X10: two calls for the same id.  After a first call for an id not on
    record, a second call answers True while the time of the first has not
    expired, and False, recording the id anew, once it has. *)
Theorem seen_before_twice (now1 now2 : instant) (msg_id : Z) (recent : gmap Z instant) :
  recent !! msg_id = None ->
  let r1 := snd (seen_before now1 msg_id recent) in
  fst (seen_before now1 msg_id recent) = false
  /\ fst (seen_before now2 msg_id r1) = negb (expired now2 now1)
  /\ snd (seen_before now2 msg_id r1) !! msg_id
     = Some (if expired now2 now1 then now2 else now1).
Proof.
  intros Hnone r1. subst r1. rewrite (seen_before_new _ _ _ Hnone). cbn [fst snd].
  split; [reflexivity|]. apply seen_before_known. apply lookup_insert_eq.
Qed.

End Dedup.

Lemma seen_before_answer_witness :
  fst (@seen_before seconds_clock 105%Z 7%Z ({[7%Z := 100%Z; 8%Z := 90%Z]} : gmap Z Z)) = true
  /\ snd (@seen_before seconds_clock 105%Z 7%Z ({[7%Z := 100%Z; 8%Z := 90%Z]} : gmap Z Z)) !! 7%Z = Some 100%Z
  /\ snd (@seen_before seconds_clock 105%Z 9%Z ({[7%Z := 100%Z; 8%Z := 90%Z]} : gmap Z Z)) !! 9%Z = Some 105%Z.
Proof.
  destruct (@seen_before_answer seconds_clock 105%Z 7%Z ({[7%Z := 100%Z; 8%Z := 90%Z]} : gmap Z Z))
    as (Ha & Hb & _).
  destruct (@seen_before_answer seconds_clock 105%Z 9%Z ({[7%Z := 100%Z; 8%Z := 90%Z]} : gmap Z Z))
    as (_ & _ & Hc).
  split; [|split].
  - apply Ha. exists 100%Z. split; vm_compute; reflexivity.
  - apply Hb; vm_compute; reflexivity.
  - apply Hc. vm_compute. reflexivity.
Defined.

Lemma seen_before_purges_witness :
  snd (@seen_before seconds_clock 105%Z 7%Z ({[7%Z := 100%Z; 8%Z := 90%Z; 9%Z := 99%Z]} : gmap Z Z)) !! 9%Z = Some 99%Z
  /\ snd (@seen_before seconds_clock 105%Z 7%Z ({[7%Z := 100%Z; 8%Z := 90%Z; 9%Z := 99%Z]} : gmap Z Z)) !! 8%Z = None.
Proof.
  split.
  - apply (proj2 (@seen_before_purges seconds_clock 105%Z 7%Z 9%Z
                    ({[7%Z := 100%Z; 8%Z := 90%Z; 9%Z := 99%Z]} : gmap Z Z) ltac:(discriminate) 99%Z)).
    split; vm_compute; reflexivity.
  - destruct (snd (@seen_before seconds_clock 105%Z 7%Z ({[7%Z := 100%Z; 8%Z := 90%Z; 9%Z := 99%Z]} : gmap Z Z)) !! 8%Z)
      as [t|] eqn:E; [|reflexivity].
    apply (proj1 (@seen_before_purges seconds_clock 105%Z 7%Z 8%Z
                    ({[7%Z := 100%Z; 8%Z := 90%Z; 9%Z := 99%Z]} : gmap Z Z) ltac:(discriminate) t)) in E.
    destruct E as [E1 E2]. vm_compute in E1. injection E1 as <-.
    vm_compute in E2. discriminate.
Defined.

Lemma seen_before_twice_witness :
  fst (@seen_before seconds_clock 103%Z 7%Z
         (snd (@seen_before seconds_clock 100%Z 7%Z (∅ : gmap Z Z)))) = true
  /\ fst (@seen_before seconds_clock 111%Z 7%Z
            (snd (@seen_before seconds_clock 100%Z 7%Z (∅ : gmap Z Z)))) = false.
Proof.
  assert (Hnew : (∅ : gmap Z Z) !! 7%Z = None) by (vm_compute; reflexivity).
  split.
  - apply (proj1 (proj2 (@seen_before_twice seconds_clock 100%Z 103%Z 7%Z ∅ Hnew))).
  - apply (proj1 (proj2 (@seen_before_twice seconds_clock 100%Z 111%Z 7%Z ∅ Hnew))).
Defined.

(** ** Runs of the bot *)

Section Runs.
Context `{Host}.

Lemma handle_attachments_ok vp : forall atts ids w,
  exists w', handle_attachments vp ids atts w = Ret w'
    /\ ledger w' = ledger w
    /\ (forall k p, PENDING w' !! k = Some p ->
          PENDING w !! k = Some p \/ (In k ids /\ id p = k))
    /\ (forall path, is_Some (files w !! path) -> is_Some (files w' !! path)).
Proof.
  induction atts as [|att atts IH]; intros ids w; cbn [handle_attachments].
  - exists w. auto.
  - destruct (is_image att).
    + destruct ids as [|pid ids]; [exists w; auto|].
      destruct (handle_attachment_ok vp pid att w) as (amt & when_ & ->). cbn [bind].
      match goal with |- context [handle_attachments vp ids atts ?w1] =>
        destruct (IH ids w1) as (w' & -> & Hl & Hp & Hf) end.
      exists w'. split; [reflexivity|]. cbn [ledger PENDING files] in *.
      split; [exact Hl|]. split.
      * intros k p Hk. destruct (Hp k p Hk) as [Hk'|[Hin Hid]].
        -- destruct (decide (k = pid)) as [->|Hne].
           ++ rewrite lookup_insert_eq in Hk'. injection Hk' as <-.
              right. split; [left; reflexivity|reflexivity].
           ++ rewrite lookup_insert_ne in Hk' by congruence. left. exact Hk'.
        -- right. split; [right; exact Hin|exact Hid].
      * intros path Hs. apply Hf.
        destruct (decide (path_join UPLOAD_DIR (stored_name pid att) = path)) as [<-|Hne].
        -- rewrite lookup_insert_eq. eauto.
        -- rewrite lookup_insert_ne by exact Hne. exact Hs.
    + destruct (IH ids w) as (w' & -> & Hl & Hp & Hf). exists w'. auto.
Qed.

Lemma on_message_ok vp seen ids msg w :
  exists w', on_message vp seen ids msg w = Ret w'
    /\ ledger w' = ledger w
    /\ (forall k p, PENDING w' !! k = Some p ->
          PENDING w !! k = Some p \/ (In k ids /\ id p = k))
    /\ (forall path, is_Some (files w !! path) -> is_Some (files w' !! path)).
Proof.
  unfold on_message.
  destruct (author_bot msg); [exists w; auto|].
  destruct (negb (in_dm msg)); [exists w; auto|].
  destruct seen; [exists w; auto|]. apply handle_attachments_ok.
Qed.



Lemma consistent_step vp e w w' :
  consistent w ->
  match e with
  | Message _ ids _ => forall k, In k ids -> ~ In k (ledger_ids w)
  | _ => True
  end ->
  step vp e w = Ret w' -> consistent w'.
Proof.
  intros (I1 & I2 & I3 & I4) Hfresh.
  assert (Hclose : forall pid p p', PENDING w !! pid = Some p -> id p' = id p ->
            consistent
              {| PENDING := delete pid (PENDING w);
                 ledger := ledger w ++ [row_of p'];
                 files := <[path_join DATA_DIR (id p ++ U ".txt") := ocr_text p]> (files w) |}).
  { intros pid p p' Hp Hid. pose proof (I1 _ _ Hp) as Hpid.
    unfold consistent, ledger_ids. cbn [PENDING ledger files].
    rewrite List.map_app. cbn [List.map row_of row_id]. rewrite Hid, Hpid.
    split; [|split; [|split]].
    - intros k q Hk. apply lookup_delete_Some in Hk. destruct Hk as [_ Hk]. apply (I1 _ _ Hk).
    - apply NoDup_app; [exact I2|repeat constructor; intros []|].
      intros x Hx [<-|[]]. apply (I3 _ _ Hp). exact Hx.
    - intros k q Hk. apply lookup_delete_Some in Hk. destruct Hk as [Hne Hk].
      intros Hin. apply in_app_or in Hin. destruct Hin as [Hin|[Heq|[]]]; [|congruence].
      apply (I3 _ _ Hk). exact Hin.
    - intros r Hr. apply in_app_or in Hr. destruct Hr as [Hr|[<-|[]]].
      + destruct (I4 r Hr) as [Hpath Hfile]. split; [exact Hpath|].
        destruct (decide (path_join DATA_DIR (pid ++ U ".txt") = row_ocr_text_path r)) as [<-|Hne].
        * rewrite lookup_insert_eq. eauto.
        * rewrite lookup_insert_ne by exact Hne. exact Hfile.
      + cbn [row_of row_ocr_text_path row_id]. rewrite Hid, Hpid.
        split; [reflexivity|]. rewrite lookup_insert_eq. eauto. }
  destruct e as [seen ids msg|pid|pid f]; cbn [step].
  - destruct (on_message_ok vp seen ids msg w) as (w1 & -> & Hl & Hp & Hf).
    intros [= <-]. unfold consistent, ledger_ids. rewrite Hl.
    split; [|split; [|split]].
    + intros k p Hk. destruct (Hp k p Hk) as [Hk'|[_ Hid]]; [apply (I1 _ _ Hk')|exact Hid].
    + exact I2.
    + intros k p Hk. destruct (Hp k p Hk) as [Hk'|[Hin _]];
        [apply (I3 _ _ Hk')|apply (Hfresh _ Hin)].
    + intros r Hr. destruct (I4 r Hr) as [Hpath Hfile]. split; [exact Hpath|].
      apply Hf. exact Hfile.
  - destruct (PENDING w !! pid) as [p|] eqn:Ep.
    + rewrite (confirm_live _ _ _ Ep). cbn [fst]. intros [= <-].
      apply (Hclose pid p p Ep eq_refl).
    + rewrite (confirm_stale _ _ Ep). cbn [fst]. intros [= <-].
      exact (conj I1 (conj I2 (conj I3 I4))).
  - destruct (PENDING w !! pid) as [p|] eqn:Ep.
    + rewrite (on_submit_live _ _ _ _ Ep). cbn [bind fst]. intros [= <-].
      apply (Hclose pid p (corrected p f) Ep eq_refl).
    + rewrite (on_submit_stale _ _ _ Ep). cbn [bind fst]. intros [= <-].
      exact (conj I1 (conj I2 (conj I3 I4))).
Qed.

Lemma consistent_run vp : forall es w w',
  consistent w -> unused_ids vp es w -> run vp es w = Ret w' -> consistent w'.
Proof.
  induction es as [|e es IH]; intros w w' Hc Hu; cbn [run].
  - intros [= <-]. exact Hc.
  - destruct Hu as [Hfresh Hrest].
    destruct (step vp e w) as [w1|x] eqn:Es; [|discriminate]. cbn [bind].
    apply (IH w1 w' (consistent_step vp e w w1 Hc Hfresh Es) (Hrest w1 eq_refl)).
Qed.

Lemma consistent_empty : consistent empty_world.
Proof.
  unfold consistent, ledger_ids. cbn [PENDING ledger files empty_world List.map].
  split; [|split; [|split]].
  - intros k p Hk. rewrite lookup_empty in Hk. discriminate.
  - constructor.
  - intros k p Hk. rewrite lookup_empty in Hk. discriminate.
  - intros r [].
Qed.

End Runs.

(** X12: in every state the bot reaches from its start, provided [uuid4]
    never repeats the id of a saved row, no id has two rows in the ledger,
    a draft still waiting for review has no row, and every draft is stored
    under its own id. *)
Theorem ledger_ids_unique `{Host} (vp : vendor_table) (es : list event) (w : world) :
  unused_ids vp es empty_world ->
  run vp es empty_world = Ret w ->
  NoDup (ledger_ids w)
  /\ (forall k p, PENDING w !! k = Some p -> id p = k /\ ~ In k (ledger_ids w)).
Proof.
  intros Hu Hr.
  destruct (consistent_run vp es empty_world w consistent_empty Hu Hr) as (I1 & I2 & I3 & _).
  split; [exact I2|]. intros k p Hk. split; [apply (I1 _ _ Hk)|apply (I3 _ _ Hk)].
Qed.

(** X13: in every state the bot reaches from its start, under the same
    proviso, each row of the ledger names the sidecar path made from its
    id, and a file has been written at that path. *)
Theorem ledger_rows_have_sidecar `{Host} (vp : vendor_table) (es : list event) (w : world) :
  unused_ids vp es empty_world ->
  run vp es empty_world = Ret w ->
  forall r, In r (ledger w) ->
    row_ocr_text_path r = path_join DATA_DIR (row_id r ++ U ".txt")
    /\ is_Some (files w !! row_ocr_text_path r).
Proof.
  intros Hu Hr.
  destruct (consistent_run vp es empty_world w consistent_empty Hu Hr) as (_ & _ & _ & I4).
  exact I4.
Qed.

Lemma demo_events_unused : @unused_ids demo_host [] demo_events empty_world.
Proof.
  split; [intros k _ []|]. intros w1 _. split; [exact I|].
  intros w2 _. split; [exact I|]. intros w3 _. exact I.
Qed.

Lemma demo_events_run : @run demo_host [] demo_events empty_world = Ret demo_final.
Proof. vm_compute. reflexivity. Qed.

Lemma ledger_ids_unique_witness :
  NoDup (@ledger_ids demo_final)
  /\ (forall k p, PENDING demo_final !! k = Some p ->
        id p = k /\ ~ In k (ledger_ids demo_final)).
Proof.
  apply (@ledger_ids_unique demo_host [] demo_events demo_final
           demo_events_unused demo_events_run).
Defined.

Lemma ledger_rows_have_sidecar_witness :
  ledger demo_final <> []
  /\ Forall (fun r =>
               row_ocr_text_path r
               = @path_join demo_host (@DATA_DIR demo_host) (row_id r ++ U ".txt")
               /\ is_Some (files demo_final !! row_ocr_text_path r))
            (ledger demo_final).
Proof.
  split; [vm_compute; discriminate|]. apply Forall_forall.
  apply (@ledger_rows_have_sidecar demo_host [] demo_events demo_final
           demo_events_unused demo_events_run).
Defined.

(** ** Messages *)


Section Messages.
Context `{Host}.

Lemma handle_attachment_draft vp pid att w :
  exists w1 p,
    handle_attachment vp pid att w = Ret w1
    /\ draft_of vp pid att p
    /\ PENDING w1 = <[pid := p]> (PENDING w)
    /\ ledger w1 = ledger w.
Proof.
  destruct (guess_amount_total (ocr (att_data att))) as [amt Ha].
  pose proof (guess_datetime_combine (ocr (att_data att))) as Hd.
  unfold handle_attachment. rewrite Ha, Hd. cbn [bind].
  eexists _, _. split; [reflexivity|]. cbn [PENDING ledger set_pending].
  split; [|split; reflexivity].
  unfold draft_of, stored_name. cbn [id filename ocr_text category amount when].
  repeat split; auto.
  destruct (str_lower (snd (splitext (att_filename att)))); reflexivity.
Qed.



End Messages.

Section Redelivery.
Context `{Host} `{Clock}.


End Redelivery.



(** ** Texts without digits and a failing OCR engine *)

Lemma filter_digits_none text :
  forallb (fun c => negb (is_decimal c)) text = true -> List.filter is_decimal text = [].
Proof.
  induction text as [|c text IH]; cbn [forallb List.filter]; [auto|].
  destruct (is_decimal c); cbn [negb andb]; [discriminate|exact IH].
Qed.

Lemma no_digit_inside pre s rest :
  List.filter is_decimal (pre ++ s ++ rest) = [] -> List.filter is_decimal s = [].
Proof.
  rewrite !filter_app. intros H. apply app_eq_nil in H. destruct H as [_ H].
  apply app_eq_nil in H. tauto.
Qed.

Lemma lang_date_patt_head n s cs :
  lang (date_patt n) s [] cs -> exists g1 rest, s = g1 ++ rest /\ digits n n g1.
Proof.
  unfold date_patt, rtimes. cbn [rcat lang].
  intros (g1 & s1 & c1 & -> & (c1' & L1 & ->) & _).
  apply (lang_digits n n) in L1. destruct L1 as [_ D1]. exists g1, s1. auto.
Qed.

Lemma no_digit_no_date n text :
  1 <= n -> List.filter is_decimal text = [] -> re_search (date_patt n) text = None.
Proof.
  intros Hn Hnone. destruct (re_search (date_patt n) text) as [m|] eqn:E; [|reflexivity].
  apply re_search_leftmost in E. destruct E as (Ht & Hl & _).
  rewrite Ht in Hnone. apply no_digit_inside in Hnone.
  apply lang_date_patt_head in Hl. destruct Hl as (g1 & rest & Hs & [[Hlen _] Hd]).
  rewrite Hs, filter_app, (filter_all _ _ Hd) in Hnone.
  destruct g1; [cbn [length] in Hlen; lia|discriminate].
Qed.

Lemma no_digit_no_token : forall rounds adv cur,
  List.filter is_decimal (c_rest cur) = [] -> finditer_from rounds amount_patt adv cur = [].
Proof.
  intros [|rounds] adv cur Hnone; [reflexivity|]. cbn [finditer_from].
  destruct (search_at amount_patt adv cur) as [m|] eqn:E; [|reflexivity].
  exfalso. apply search_at_inv in E. destruct E as (pre & Hr & _ & _ & Hl & _).
  rewrite Hr in Hnone. apply no_digit_inside in Hnone.
  apply lang_amount_patt in Hl. destruct Hl as [_ Ht].
  apply (amount_token_has_digit _ Ht). exact Hnone.
Qed.

(** X16: a text without a decimal digit yields no amount and no
    timestamp. *)
Theorem no_digits_nothing_found (text : str) :
  forallb (fun c => negb (is_decimal c)) text = true ->
  guess_amount text = Ret None /\ guess_datetime text = Ret None.
Proof.
  intros Hn. apply filter_digits_none in Hn. split.
  - rewrite guess_amount_value. unfold amount_candidates, amount_tokens, re_finditer.
    rewrite no_digit_no_token by exact Hn. reflexivity.
  - rewrite guess_datetime_combine. unfold found_date.
    rewrite !no_digit_no_date by (auto; lia). reflexivity.
Qed.

Lemma no_digits_nothing_found_witness :
  guess_amount (U "감사합니다, 또 오세요") = Ret None
  /\ guess_datetime (U "감사합니다, 또 오세요") = Ret None.
Proof.
  apply (no_digits_nothing_found (U "감사합니다, 또 오세요")). vm_compute. reflexivity.
Defined.

Lemma empty_text_category vp :
  (forall e, In e vp -> fst (fst e) [] = false) -> guess_category vp [] = ETC.
Proof.
  intros Hv.
  assert (Hn : normalize [] = []) by (vm_compute; reflexivity).
  rewrite guess_category_scores by (rewrite Hn; exact Hv). rewrite Hn.
  assert (Hp : positive_scores [] CATEGORY_RULES = []) by (vm_compute; reflexivity).
  rewrite Hp. reflexivity.
Qed.

(** X17: a failure of the OCR engine is not an error of the bot.  When
    the engine fails for both languages, the attachment is still processed:
    the draft is stored with an empty text, no amount and no timestamp, and
    with the sentinel category unless a vendor pattern matches the empty
    text. *)
Theorem ocr_failure_draft `{Host} (image_to_string : str -> list N -> option str)
    (vp : vendor_table) (pid : str) (att : attachment) (w : world) :
  ocr (att_data att) = ocr_text_of image_to_string (att_data att) ->
  image_to_string (U "kor+eng") (att_data att) = None ->
  image_to_string (U "eng") (att_data att) = None ->
  exists w' p,
    handle_attachment vp pid att w = Ret w'
    /\ PENDING w' !! pid = Some p
    /\ ocr_text p = [] /\ amount p = None /\ when p = None
    /\ ((forall e, In e vp -> fst (fst e) [] = false) -> category p = ETC).
Proof.
  intros Hocr E1 E2.
  assert (Ht : ocr (att_data att) = []) by (rewrite Hocr; unfold ocr_text_of; rewrite E1, E2; reflexivity).
  destruct (handle_attachment_draft vp pid att w)
    as (w' & p & Hh & (_ & _ & Htext & Hcat & Hamt & Hwhen) & Hpend & _).
  exists w', p. split; [exact Hh|]. rewrite Hpend, lookup_insert_eq.
  split; [reflexivity|]. rewrite Ht in *.
  assert (Ha : guess_amount [] = Ret None) by (vm_compute; reflexivity).
  assert (Hd : guess_datetime [] = Ret None) by (vm_compute; reflexivity).
  rewrite Ha in Hamt. rewrite Hd in Hwhen. injection Hamt as <-. injection Hwhen as <-.
  repeat split; auto. intros Hv. rewrite Hcat. apply empty_text_category. exact Hv.
Qed.

Lemma ocr_failure_draft_witness :
  exists w' p,
    @handle_attachment blind_host [] demo_pid demo_attachment empty_world = Ret w'
    /\ PENDING w' !! demo_pid = Some p
    /\ ocr_text p = [] /\ amount p = None /\ when p = None
    /\ ((forall e, In e (@nil (compiled * str * str)) -> fst (fst e) [] = false)
        -> category p = ETC).
Proof.
  apply (@ocr_failure_draft blind_host (fun _ _ => None) [] demo_pid demo_attachment
           empty_world); reflexivity.
Defined.

(** ** The vendor file and the stored name *)

Lemma load_vendor_map_from compile : forall rows acc,
  fold_left
    (fun pats row =>
       match compile (vr_alias_regex row) with
       | Some pat => pats ++ [(pat, vr_category row, vr_vendor row)]
       | None => pats
       end)
    rows acc
  = acc ++ load_vendor_map compile rows.
Proof.
  unfold load_vendor_map.
  induction rows as [|row rows IH]; intros acc; cbn [fold_left].
  - rewrite app_nil_r. reflexivity.
  - rewrite (IH (match compile (vr_alias_regex row) with
                 | Some pat => acc ++ [(pat, vr_category row, vr_vendor row)]
                 | None => acc
                 end)).
    rewrite (IH (match compile (vr_alias_regex row) with
                 | Some pat => [] ++ [(pat, vr_category row, vr_vendor row)]
                 | None => []
                 end)).
    destruct (compile (vr_alias_regex row)); [|reflexivity].
    rewrite <- app_assoc. reflexivity.
Qed.

Lemma load_vendor_map_cons compile row rows :
  load_vendor_map compile (row :: rows)
  = match compile (vr_alias_regex row) with
    | Some pat => [(pat, vr_category row, vr_vendor row)]
    | None => []
    end ++ load_vendor_map compile rows.
Proof.
  unfold load_vendor_map at 1. cbn [fold_left]. rewrite load_vendor_map_from.
  destruct (compile (vr_alias_regex row)); reflexivity.
Qed.

Lemma first_vendor_loaded compile t : forall rows,
  first_vendor (load_vendor_map compile rows) t
  = option_map vr_category (find (row_hits compile t) rows).
Proof.
  induction rows as [|row rows IH]; [reflexivity|].
  rewrite load_vendor_map_cons. cbn [find]. unfold row_hits at 1.
  destruct (compile (vr_alias_regex row)) as [pat|]; cbn [app first_vendor].
  - destruct (pat t); [reflexivity|exact IH].
  - exact IH.
Qed.

(** X18: the vendor file decides in file order.  With the table that the
    loader builds from the rows of the file, the classifier answers with
    the category of the first row whose pattern compiles and is found in
    the normalized text; rows whose pattern does not compile are passed
    over, and when no row is left that matches, the answer is the one the
    keywords give. *)
Theorem vendor_map_first_row (compile : str -> option compiled)
    (rows : list vendor_row) (text : str) :
  guess_category (load_vendor_map compile rows) text
  = match find (row_hits compile (normalize text)) rows with
    | Some row => vr_category row
    | None => guess_category [] text
    end.
Proof.
  unfold guess_category. cbv zeta. rewrite first_vendor_loaded.
  destruct (find (row_hits compile (normalize text)) rows); reflexivity.
Qed.

(** ** The extension of a stored file *)

Lemma rfind_from_shift c : forall s i best,
  rfind_from c s i best
  = match rfind c s with
    | Some j => Some (i + j)
    | None => best
    end.
Proof.
  unfold rfind.
  induction s as [|x s IH]; intros i best; cbn [rfind_from]; [reflexivity|].
  rewrite (IH (S i)), (IH 1).
  destruct (rfind_from c s 0 None) as [j|].
  - f_equal. lia.
  - destruct (N.eqb x c); [f_equal; lia|reflexivity].
Qed.

Lemma rfind_cons c x s :
  rfind c (x :: s)
  = match rfind c s with
    | Some j => Some (S j)
    | None => if N.eqb x c then Some 0 else None
    end.
Proof.
  unfold rfind at 1. cbn [rfind_from]. rewrite rfind_from_shift.
  destruct (rfind c s); reflexivity.
Qed.

Lemma rfind_None c : forall s, rfind c s = None -> ~ In c s.
Proof.
  induction s as [|x s IH]; [intros _ []|]. rewrite rfind_cons.
  destruct (rfind c s) as [j|]; [discriminate|].
  destruct (N.eqb_spec x c) as [->|Hne]; [discriminate|].
  intros _ [Hx|Hin]; [congruence|]. apply IH; [reflexivity|exact Hin].
Qed.

Lemma rfind_Some c : forall s i,
  rfind c s = Some i ->
  exists post, skipn i s = c :: post /\ ~ In c post.
Proof.
  induction s as [|x s IH]; intros i; [discriminate|]. rewrite rfind_cons.
  destruct (rfind c s) as [j|] eqn:E.
  - intros [= <-]. cbn [skipn]. apply IH. reflexivity.
  - destruct (N.eqb_spec x c) as [->|Hne]; [|discriminate].
    intros [= <-]. cbn [skipn]. exists s. split; [reflexivity|].
    apply rfind_None. exact E.
Qed.

Lemma In_skipn {A} (x : A) : forall n l, In x (skipn n l) -> In x l.
Proof.
  induction n as [|n IH]; intros [|y l]; cbn [skipn In]; try tauto.
  intros Hin. right. apply IH. exact Hin.
Qed.

Lemma skipn_later {A} : forall i j (l : list A),
  i <= j -> skipn j l = skipn (j - i) (skipn i l).
Proof.
  intros i j l Hij. rewrite skipn_skipn. f_equal. lia.
Qed.

(** No occurrence of [c] lies after the last one. *)
Lemma rfind_after c s d post z :
  (index_of (rfind c s) < Z.of_nat d)%Z -> skipn d s = z :: post -> ~ In c post.
Proof.
  intros Hlt Hs Hin.
  assert (Hin' : In c (skipn (S d) s)).
  { replace (S d) with (1 + d) by lia. rewrite <- skipn_skipn, Hs. exact Hin. }
  destruct (rfind c s) as [j|] eqn:E; cbn [index_of] in Hlt.
  - destruct (rfind_Some c s j E) as (post' & Hj & Hnot).
    apply Hnot.
    rewrite (skipn_later (S j) (S d)) in Hin' by lia.
    apply In_skipn in Hin'.
    replace (S j) with (1 + j) in Hin' by lia.
    rewrite <- skipn_skipn, Hj in Hin'. exact Hin'.
  - apply (rfind_None c s E). apply (In_skipn _ _ _ Hin').
Qed.

Section Extension.
Context `{Host}.

(** The extension that [splitext] gives is empty, or a dot followed by
    code points that are neither a dot nor a separator. *)
Lemma splitext_ext p :
  snd (splitext p) = []
  \/ exists post, snd (splitext p) = ch "." :: post
       /\ Forall (fun c => c <> ch "." /\ is_sep c = false) post.
Proof.
  unfold splitext. cbv zeta.
  set (sepIndex := match os_altsep with
                   | Some alt => Z.max (index_of (rfind os_sep p)) (index_of (rfind alt p))
                   | None => index_of (rfind os_sep p)
                   end).
  destruct (Z.ltb_spec sepIndex (index_of (rfind (ch ".") p))) as [Hlt|_];
    [|left; reflexivity].
  destruct (existsb _ _); [|left; reflexivity]. cbn [snd]. right.
  destruct (rfind (ch ".") p) as [d|] eqn:Ed; cbn [index_of] in *.
  2:{ exfalso. subst sepIndex. destruct os_altsep; destruct (rfind os_sep p);
      try destruct (rfind c p); cbn [index_of] in Hlt; lia. }
  rewrite Nat2Z.id.
  destruct (rfind_Some _ _ _ Ed) as (post & Hs & Hnot).
  exists post. split; [exact Hs|]. apply Forall_forall. intros c Hc. split.
  - intros ->. apply Hnot. exact Hc.
  - unfold is_sep. apply orb_false_iff. split.
    + apply N.eqb_neq. intros ->. revert Hc.
      apply (rfind_after os_sep p d post (ch ".")); [|exact Hs].
      subst sepIndex. destruct os_altsep; lia.
    + subst sepIndex. destruct os_altsep as [alt|]; [|reflexivity].
      apply N.eqb_neq. intros ->. revert Hc.
      apply (rfind_after alt p d post (ch ".")); [lia|exact Hs].
Qed.

End Extension.

(** Checked on the whole table: nothing is lowered to a dot, a slash or a
    backslash. *)
Lemma lower_pairs_marks :
  forallb (fun kv => negb (N.eqb (snd kv) 46 || N.eqb (snd kv) 47 || N.eqb (snd kv) 92))
          UCD.lower_pairs = true.
Proof. vm_compute. reflexivity. Qed.

Lemma lower_block_marks before c after x :
  In x (lower_block before c after) ->
  x = 46%N \/ x = 47%N \/ x = 92%N -> x = c.
Proof.
  unfold lower_block. destruct (N.eqb_spec c 0x3a3) as [->|Hs].
  - unfold handle_capital_sigma. destruct (_ && _); intros [<-|[]] [E|[E|E]]; discriminate.
  - unfold tolower_full. destruct (N.eqb_spec c 0x130) as [->|Hi].
    + intros [<-|[<-|[]]] [E|[E|E]]; discriminate.
    + intros [<-|[]]. unfold tolower.
      destruct (assoc c UCD.lower_pairs) as [v|] eqn:E; [|reflexivity].
      apply assoc_In in E. pose proof lower_pairs_marks as Hc.
      rewrite forallb_forall in Hc. apply Hc in E. cbn [snd] in E.
      apply negb_true_iff in E. apply orb_false_iff in E. destruct E as [E E3].
      apply orb_false_iff in E. destruct E as [E1 E2].
      apply N.eqb_neq in E1, E2, E3. intros [E|[E|E]]; congruence.
Qed.

Lemma lower_from_marks : forall s before x,
  In x (lower_from before s) ->
  x = 46%N \/ x = 47%N \/ x = 92%N -> In x s.
Proof.
  induction s as [|c s IH]; intros before x; [intros []|].
  rewrite lower_from_cons. intros Hin Hx. apply in_app_or in Hin.
  destruct Hin as [Hin|Hin].
  - left. symmetry. apply (lower_block_marks before c s x Hin Hx).
  - right. apply (IH (c :: before) x Hin Hx).
Qed.

Lemma lower_block_dot before after : lower_block before (ch ".") after = [ch "."].
Proof. reflexivity. Qed.

Section StoredName.
Context `{Host}.

(** X19: the name of an attachment cannot steer where its upload is
    stored.  On a platform whose separators are the slash and the
    backslash, the stored name is the draft id followed by a dot and by
    code points none of which is a dot or a path separator, whatever the
    attachment is called. *)
Theorem stored_name_safe (pid : str) (att : attachment) :
  (forall c, is_sep c = true -> c = ch "/" \/ c = ch "\") ->
  exists rest,
    stored_name pid att = pid ++ ch "." :: rest
    /\ Forall (fun c => c <> ch "." /\ is_sep c = false) rest.
Proof.
  intros Hsep. unfold stored_name.
  destruct (splitext_ext (att_filename att)) as [->|(post & -> & Hpost)].
  - exists (U "jpg"). split; [reflexivity|].
    apply Forall_forall. intros c Hc. split.
    + intros ->. vm_compute in Hc. intuition discriminate.
    + destruct (is_sep c) eqn:E; [|reflexivity]. exfalso.
      destruct (Hsep c E) as [->| ->]; vm_compute in Hc; intuition discriminate.
  - unfold str_lower. rewrite lower_from_cons, lower_block_dot. cbn [app].
    exists (lower_from [ch "."] post). split; [reflexivity|].
    rewrite Forall_forall in Hpost. apply Forall_forall. intros c Hc. split.
    + intros ->. apply lower_from_marks in Hc; [|left; reflexivity].
      destruct (Hpost _ Hc) as [Hne _]. apply Hne. reflexivity.
    + destruct (is_sep c) eqn:E; [|reflexivity]. exfalso.
      assert (Hin : In c post).
      { apply (lower_from_marks _ _ _ Hc).
        destruct (Hsep c E) as [->| ->]; [right; left|right; right]; reflexivity. }
      destruct (Hpost _ Hin) as [_ Hns]. congruence.
Qed.

End StoredName.

Lemma stored_name_safe_witness :
  exists rest,
    @stored_name demo_host demo_pid
      {| att_filename := U "../../etc/cron.d/job.SH";
         att_content_type := Some (U "image/png"); att_data := [] |}
    = demo_pid ++ ch "." :: rest
    /\ Forall (fun c => c <> ch "." /\ @is_sep demo_host c = false) rest.
Proof.
  apply (@stored_name_safe demo_host demo_pid
           {| att_filename := U "../../etc/cron.d/job.SH";
              att_content_type := Some (U "image/png"); att_data := [] |}).
  intros c Hc. left. unfold is_sep in Hc. cbn [os_sep os_altsep demo_host posix_host] in Hc.
  rewrite orb_false_r in Hc. apply N.eqb_eq in Hc. exact Hc.
Defined.

(** ** The edit form *)

Lemma uint_str_decimal d : forallb is_decimal (uint_str d) = true.
Proof.
  induction d as [|d IH|d IH|d IH|d IH|d IH|d IH|d IH|d IH|d IH|d IH];
    cbn [uint_str forallb]; [reflexivity|..]; rewrite IH; vm_compute; reflexivity.
Qed.

Lemma uint_str_acc : forall d acc,
  fold_left (fun a c => (10 * a + decimal_value c)%Z) (uint_str d) (Z.pos acc)
  = Z.pos (Pos.of_uint_acc d acc).
Proof.
  induction d as [|d IH|d IH|d IH|d IH|d IH|d IH|d IH|d IH|d IH|d IH]; intros acc;
    cbn [uint_str fold_left Pos.of_uint_acc]; [reflexivity|..];
    rewrite <- IH; f_equal;
    match goal with |- context [decimal_value ?c] =>
      let v := eval vm_compute in (decimal_value c) in
      replace (decimal_value c) with v by (vm_compute; reflexivity)
    end; lia.
Qed.

Lemma uint_str_value d : digits_value (uint_str d) = Z.of_N (Pos.of_uint d).
Proof.
  unfold digits_value.
  induction d as [|d IH|d IH|d IH|d IH|d IH|d IH|d IH|d IH|d IH|d IH];
    cbn [uint_str fold_left Pos.of_uint]; [reflexivity|..];
    match goal with |- context [decimal_value ?c] =>
      let v := eval vm_compute in (decimal_value c) in
      replace (decimal_value c) with v by (vm_compute; reflexivity)
    end; cbn [Z.mul Z.add Z.of_N]; [exact IH|..]; apply uint_str_acc.
Qed.

(** Reading back what [format_int] writes. *)
Lemma format_int_digits v :
  (0 <= v)%Z ->
  List.filter is_decimal (format_int v) = format_int v
  /\ digits_value (format_int v) = v.
Proof.
  destruct v as [|p|p]; intros Hv; [split; vm_compute; reflexivity| |lia].
  cbn [format_int]. split.
  - apply filter_all, uint_str_decimal.
  - rewrite uint_str_value, DecimalPos.Unsigned.of_to. reflexivity.
Qed.

(** X20: pressing the edit button and sending the form back as it is
    saves what the confirm button would have saved.  This holds for a draft
    whose category is not empty and has no whitespace around it and whose
    amount is not negative, when the parser reads the timestamp that the
    form shows as the timestamp of the draft or not at all. *)
Theorem edit_submit_unchanged `{Host} (strftime : datetime -> str) (pid : str)
    (p : Pending) (w : world) :
  PENDING w !! pid = Some p ->
  str_strip (category p) = category p ->
  category p <> [] ->
  (forall v, amount p = Some v -> (0 <= v)%Z) ->
  (forall d d', when p = Some d ->
     strptime (str_strip (strftime d)) = Some d' -> d' = d) ->
  on_submit (cm_pid (edit strftime (view_of pid p)))
            (cm_form (edit strftime (view_of pid p))) w
  = Ret (fst (confirm pid w), REPLY_CORRECTED).
Proof.
  intros Hp Hstrip Hcat Hamt Hwhen.
  assert (Hsame : corrected p (cm_form (edit strftime (view_of pid p))) = p).
  { unfold edit, view_of, corrected.
    cbn [cm_form rv_cat rv_amt rv_when t_category t_amount t_dt or_empty].
    destruct p as [i fn cat amt wh txt].
    cbn [id filename category amount when ocr_text] in *.
    match goal with
    | |- {| id := _; filename := _; category := ?a; amount := ?b; when := ?c;
            ocr_text := _ |} = _ =>
        assert (Hc : a = cat); [|assert (Ha : b = amt); [|assert (Hw : c = wh)]]
    end.
    - rewrite Hstrip. destruct cat; [congruence|reflexivity].
    - destruct amt as [v|]; [|reflexivity].
      destruct (format_int_digits v (Hamt v eq_refl)) as [Hf Hv]. rewrite Hf, Hv.
      destruct (format_int v); reflexivity.
    - destruct wh as [d|]; [|reflexivity].
      destruct (str_strip (strftime d)) as [|c s] eqn:Es; [reflexivity|].
      destruct (strptime (c :: s)) as [d'|] eqn:Ed; [|reflexivity].
      rewrite <- Es in Ed. rewrite (Hwhen d d' eq_refl Ed). reflexivity.
    - rewrite Hc, Ha, Hw. reflexivity. }
  unfold edit at 1. unfold view_of at 1. cbn [cm_pid rv_pid].
  rewrite (on_submit_live _ _ _ _ Hp), (confirm_live _ _ _ Hp), Hsame. reflexivity.
Qed.

Lemma edit_submit_unchanged_witness :
  @on_submit demo_host
    (cm_pid (edit strftime_ymd_hms (view_of demo_pid demo_draft)))
    (cm_form (edit strftime_ymd_hms (view_of demo_pid demo_draft))) demo_world
  = Ret (fst (@confirm demo_host demo_pid demo_world), REPLY_CORRECTED).
Proof.
  apply (@edit_submit_unchanged demo_host strftime_ymd_hms demo_pid demo_draft demo_world).
  - vm_compute. reflexivity.
  - vm_compute. reflexivity.
  - vm_compute. discriminate.
  - intros v Hv. vm_compute in Hv. injection Hv as <-. lia.
  - intros d d' Hd. vm_compute in Hd. injection Hd as <-.
    vm_compute. intros Hd'. injection Hd' as <-. reflexivity.
Defined.

(** ** The category of a correction *)

Lemma lstrip_head : forall s,
  match lstrip s with c :: _ => is_space c = false | [] => True end.
Proof.
  induction s as [|c s IH]; cbn [lstrip]; [exact I|].
  destruct (is_space c) eqn:Ec; [exact IH|exact Ec].
Qed.

Lemma lstrip_idempotent s : lstrip (lstrip s) = lstrip s.
Proof. apply lstrip_nonspace_head, lstrip_head. Qed.

Lemma rstrip_idempotent u : rstrip (rstrip u) = rstrip u.
Proof. unfold rstrip. rewrite rev_involutive, lstrip_idempotent. reflexivity. Qed.

Lemma rstrip_head u :
  match u with c :: _ => is_space c = false | [] => True end ->
  match rstrip u with c :: _ => is_space c = false | [] => True end.
Proof.
  destruct u as [|c u]; [intros _; exact I|]. intros Hc. rewrite rstrip_cons.
  destruct (rstrip u); [rewrite Hc|]; exact Hc.
Qed.

Lemma str_strip_idempotent s : str_strip (str_strip s) = str_strip s.
Proof.
  rewrite !str_strip_rstrip.
  rewrite (lstrip_nonspace_head (rstrip (lstrip s)) (rstrip_head _ (lstrip_head s))).
  apply rstrip_idempotent.
Qed.

(** X21: the category that a correction saves is never empty and has no
    whitespace around it: it is the category field with the whitespace
    around it removed, and the sentinel when nothing is left of the
    field. *)
Theorem on_submit_category `{Host} (pid : str) (f : form) (w : world) (p : Pending) :
  PENDING w !! pid = Some p ->
  exists w' r,
    on_submit pid f w = Ret (w', REPLY_CORRECTED)
    /\ ledger w' = ledger w ++ [r]
    /\ row_category r <> []
    /\ str_strip (row_category r) = row_category r
    /\ row_category r
       = match str_strip (t_category f) with [] => ETC | cat => cat end.
Proof.
  intros Hp. rewrite (on_submit_live _ _ _ _ Hp).
  eexists _, _. split; [reflexivity|]. cbn [ledger]. split; [reflexivity|].
  unfold row_of, corrected. cbn [row_category category].
  destruct (str_strip (t_category f)) as [|c cat] eqn:E; cbn [nonempty].
  - split; [vm_compute; discriminate|]. split; [vm_compute; reflexivity|reflexivity].
  - split; [discriminate|]. split; [|reflexivity].
    rewrite <- E. apply str_strip_idempotent.
Qed.

Lemma on_submit_category_witness :
  exists w' r,
    @on_submit demo_host demo_pid
      {| t_category := U "   "; t_amount := None; t_dt := None |} demo_world
    = Ret (w', REPLY_CORRECTED)
    /\ ledger w' = ledger demo_world ++ [r]
    /\ row_category r <> []
    /\ str_strip (row_category r) = row_category r
    /\ row_category r
       = match str_strip (t_category {| t_category := U "   "; t_amount := None;
                                        t_dt := None |}) with
         | [] => ETC
         | cat => cat
         end.
Proof.
  apply (@on_submit_category demo_host demo_pid
           {| t_category := U "   "; t_amount := None; t_dt := None |}
           demo_world demo_draft).
  vm_compute. reflexivity.
Defined.
